(** * Civic issue reporting client: filtering, sorting and aggregation

    A shallow embedding of the client-side logic of the reports feed
    ([ViewReports]), of the two analytics dashboards ([Analytics],
    [AnalyticsAlt]) and of the submission form ([ReportModal]), with the
    properties the specification states about them.

    Conventions of the embedding:
    - a row of the [issues] table is the record [Issue]; nullable columns
      are [option]s;
    - a string is held as the bytes of its UTF-8 form;
    - JavaScript numbers that hold counts, scores and instants are [Z]; the
      hours of the resolution-time aggregation are binary64 numbers
      ([float]), computed with the operations of IEEE 754 as JavaScript
      computes them; the coordinates of the form, which the program only
      passes on, are rationals ([Q]);
    - a JavaScript object used as a dictionary is the list of its own
      properties ([obj]) in the order in which [Object.values] and
      [Object.keys] list them: the array indices first, in ascending order,
      then the other keys in the order in which they were added; an object
      literal inherits the members of [Object.prototype], which reading a
      property finds when the object has no own property of that name
      ([inherited]);
    - [Array.prototype.sort] is the stable sort the language standard
      requires, computed by insertion ([Array_sort]; [Array_sort_unique]
      shows that no other result is stable and in order);
    - the platform's [Date] parsing, local time zone and lower-case mapping
      are the interface [Platform]; a timestamp of the table denotes a
      finite instant. *)

From Stdlib Require Import ZArith QArith List String Ascii Bool Lia.
From Stdlib Require Import Permutation Sorted DecimalString Floats.
Import ListNotations.

Local Open Scope string_scope.
Local Open Scope Z_scope.

(** ** The issue row *)

Record Issue : Type := mkIssue {
  id : string;
  title : string;
  description : string;
  category : string;
  status : string;
  location_name : option string;
  upvotes_count : option Z;
  priority_score : option Z;
  created_at : string;
  resolved_at : option string;
  is_spam : bool
}.

(** [x || 0] on a nullable number. *)
Definition or0 (x : option Z) : Z :=
  match x with
  | Some n => n
  | None => 0
  end.

(** Truthiness of a nullable string: [null] and the empty string are falsy. *)
Definition truthy (x : option string) : bool :=
  match x with
  | Some s => negb (s =? "")%string
  | None => false
  end.

(** [x || d] on a nullable string. *)
Definition or_else (x : option string) (d : string) : string :=
  match x with
  | Some s => if (s =? "")%string then d else s
  | None => d
  end.

(** [r] with its spam flag set to [b]. *)
Definition with_is_spam (r : Issue) (b : bool) : Issue :=
  {| id := id r; title := title r; description := description r;
     category := category r; status := status r;
     location_name := location_name r; upvotes_count := upvotes_count r;
     priority_score := priority_score r; created_at := created_at r;
     resolved_at := resolved_at r; is_spam := b |}.

(** [l] with the spam flags of its first rows set to [flags], one flag per
    row; rows beyond the flags given are left as they are. *)
Fixpoint reflag (flags : list bool) (l : list Issue) : list Issue :=
  match flags, l with
  | b :: flags', r :: l' => with_is_spam r b :: reflag flags' l'
  | _, _ => l
  end.

(** ** Letter case on ASCII text *)

Definition lower_ascii (c : ascii) : ascii :=
  let n := nat_of_ascii c in
  if ((65 <=? n) && (n <=? 90))%nat then ascii_of_nat (n + 32) else c.

(** What [s.toLowerCase()] is for a string of ASCII characters: the letters
    A to Z become a to z, and every other character is kept. *)
Fixpoint asciiLowerCase (s : string) : string :=
  match s with
  | EmptyString => EmptyString
  | String c s' => String (lower_ascii c) (asciiLowerCase s')
  end.

(** Every character of [s] is an ASCII character, one with a code below
    128. *)
Fixpoint isAscii (s : string) : bool :=
  match s with
  | EmptyString => true
  | String c s' => (nat_of_ascii c <? 128)%nat && isAscii s'
  end.

(** ** The platform: dates, the local time zone and letter case *)

(** [Date_getTime s] is [new Date(s).getTime()], the instant in milliseconds
    since the epoch that the timestamp string [s] denotes (the timestamp
    columns hold ISO-8601 instants, which [Date] parses to a finite number);
    [tzOffset t] is the offset in milliseconds of local time from UTC at the
    instant [t]; [toLowerCase s] is [s.toLowerCase()], the lower-case mapping
    of the Unicode character tables of the engine, which for some letters
    depends on their neighbours. Of that mapping only what the language
    fixes for ASCII text is taken as known ([toLowerCase_ascii]). *)
Class Platform : Type := {
  Date_getTime : string -> Z;
  tzOffset : Z -> Z;
  toLowerCase : string -> string;
  toLowerCase_ascii :
    forall s, isAscii s = true -> toLowerCase s = asciiLowerCase s
}.

Module Calendar.

Definition msPerDay : Z := 86400000.
Definition msPerHour : Z := 1000 * 60 * 60.

(** Day number (days since 1970-01-01) of a local time value. *)
Definition Day (t : Z) : Z := t / msPerDay.

(** Weekday of a day number, 0 = Sunday; 1970-01-01 was a Thursday. *)
Definition WeekDay (day : Z) : Z := (day + 4) mod 7.

(** Proleptic Gregorian date (year, month 1..12, day 1..31) of a day
    number. *)
Definition civil_from_days (day : Z) : Z * Z * Z :=
  let z := day + 719468 in
  let era := z / 146097 in
  let doe := z - era * 146097 in
  let yoe := (doe - doe / 1460 + doe / 36524 - doe / 146096) / 365 in
  let y := yoe + era * 400 in
  let doy := doe - (365 * yoe + yoe / 4 - yoe / 100) in
  let mp := (5 * doy + 2) / 153 in
  let d := doy - (153 * mp + 2) / 5 + 1 in
  let m := if mp <? 10 then mp + 3 else mp - 9 in
  (if m <=? 2 then y + 1 else y, m, d).

(** Day number of a proleptic Gregorian date. *)
Definition days_from_civil (y m d : Z) : Z :=
  let y' := if m <=? 2 then y - 1 else y in
  let era := y' / 400 in
  let yoe := y' - era * 400 in
  let doy := (153 * (if 2 <? m then m - 3 else m + 9) + 2) / 5 + d - 1 in
  let doe := yoe * 365 + yoe / 4 - yoe / 100 + doy in
  era * 146097 + doe - 719468.

Definition digit (n : Z) : ascii := ascii_of_nat (48 + Z.to_nat n).

Definition two_digits (n : Z) : string :=
  String (digit (n / 10 mod 10)) (String (digit (n mod 10)) "").

Definition monthShort (m : Z) : string :=
  nth (Z.to_nat (m - 1))
    ["Jan"; "Feb"; "Mar"; "Apr"; "May"; "Jun";
     "Jul"; "Aug"; "Sep"; "Oct"; "Nov"; "Dec"] "".

(** Value of a decimal digit character, if it is one. *)
Definition digit_val (c : ascii) : option Z :=
  let n := Z.of_nat (nat_of_ascii c) in
  if (48 <=? n) && (n <=? 57) then Some (n - 48) else None.

Fixpoint number_from (acc : Z) (s : string) : option Z :=
  match s with
  | EmptyString => Some acc
  | String c s' =>
      match digit_val c with
      | Some d => number_from (10 * acc + d) s'
      | None => None
      end
  end.

Definition number (s : string) : option Z :=
  match s with
  | EmptyString => None
  | _ => number_from 0 s
  end.

(** The date-only ISO form [YYYY-MM-DD], which [Date] reads as midnight
    UTC of that day. *)
Definition parseDateOnly (s : string) : option Z :=
  if (String.length s =? 10)%nat
  then
    match number (substring 0 4 s), substring 4 1 s,
          number (substring 5 2 s), substring 7 1 s,
          number (substring 8 2 s) with
    | Some y, "-", Some m, "-", Some d =>
        Some (days_from_civil y m d * msPerDay)
    | _, _, _, _, _ => None
    end
  else None.

End Calendar.

Section LocalTime.
Context `{Platform}.

(** Local time value of an instant. *)
Definition LocalTime (t : Z) : Z := t + tzOffset t.

(** [new Date(s).getDay()]. *)
Definition getDay (s : string) : Z :=
  Calendar.WeekDay (Calendar.Day (LocalTime (Date_getTime s))).

(** [formatMonth]: [date.toLocaleString('default', { month: 'short',
    year: '2-digit' })], as the en-US locale renders it ("Jan 24"). *)
Definition formatMonth (dateString : string) : string :=
  let date := LocalTime (Date_getTime dateString) in
  let '(y, m, _) := Calendar.civil_from_days (Calendar.Day date) in
  Calendar.monthShort m ++ " " ++ Calendar.two_digits (y mod 100).

End LocalTime.

(** A platform in the UTC zone that reads date-only ISO strings; it is used
    to run the scenarios of the specification, which are ASCII text. Date
    strings of another form are outside this instance, which reads them as
    the epoch; so are letters outside ASCII, which it leaves as they are. *)
Definition utcPlatform : Platform := {|
  Date_getTime := fun s =>
    match Calendar.parseDateOnly s with
    | Some t => t
    | None => 0
    end;
  tzOffset := fun _ => 0;
  toLowerCase := asciiLowerCase;
  toLowerCase_ascii := fun s _ => eq_refl
|}.


(** ** Strings

    A string is held as the bytes of its UTF-8 form, so that an ASCII
    character is one element of it; text is taken to be well formed, and on
    well-formed text one string occurs in another by bytes exactly when it
    does by the code units [includes] compares. *)

(** [s.startsWith(t)]. *)
Fixpoint startsWith (s t : string) : bool :=
  match t, s with
  | EmptyString, _ => true
  | String _ _, EmptyString => false
  | String b t', String a s' => Ascii.eqb a b && startsWith s' t'
  end.

(** [s.includes(t)]: [t] occurs in [s] as a substring. *)
Fixpoint includes (s t : string) : bool :=
  startsWith s t ||
  match s with
  | EmptyString => false
  | String _ s' => includes s' t
  end.

(** [t] is a substring of [s]. *)
Definition Substring (t s : string) : Prop :=
  exists a b, s = a ++ t ++ b.

(** [t] occurs in [s] when letter case is ignored: the lower-case form of
    [t] occurs in the lower-case form of [s]. *)
Definition SubstringNoCase `{Platform} (t s : string) : Prop :=
  Substring (toLowerCase t) (toLowerCase s).

(** Two characters that are equal, or the two cases of one of the letters A
    to Z. *)
Definition sameLetter (a b : ascii) : bool :=
  let m := nat_of_ascii a in
  let n := nat_of_ascii b in
  (m =? n)%nat
  || ((65 <=? m) && (m <=? 90) && (n =? m + 32))%nat
  || ((65 <=? n) && (n <=? 90) && (m =? n + 32))%nat.

(** Two strings that are equal up to the case of their letters A to Z. *)
Fixpoint sameLetters (s t : string) : bool :=
  match s, t with
  | EmptyString, EmptyString => true
  | String a s', String b t' => sameLetter a b && sameLetters s' t'
  | _, _ => false
  end.

(** ** Objects used as dictionaries *)

(** The names of the members of [Object.prototype], which every object
    literal inherits. Each holds a function, and [__proto__] the prototype
    itself: a value that is truthy. *)
Definition Object_prototype : list string :=
  ["constructor"; "__defineGetter__"; "__defineSetter__"; "hasOwnProperty";
   "__lookupGetter__"; "__lookupSetter__"; "isPrototypeOf";
   "propertyIsEnumerable"; "toString"; "valueOf"; "__proto__";
   "toLocaleString"].

(** [k] names a member of [Object.prototype]: on an object literal without
    an own property [k], [o[k]] is that member. *)
Definition inherited (k : string) : bool :=
  existsb (String.eqb k) Object_prototype.

(** The array index that [k] is, when it is one: a decimal numeral without
    sign or leading zero, of value at most 2^32 - 2. *)
Definition array_index (k : string) : option Z :=
  match k with
  | String "0" (String _ _) => None
  | _ =>
      match Calendar.number k with
      | Some n => if n <=? 4294967294 then Some n else None
      | None => None
      end
  end.

Definition isArrayIndex (k : string) : bool :=
  match array_index k with
  | Some _ => true
  | None => false
  end.

(** A key [k] that is added to an object is listed before the own key [k']
    of the object: array indices are listed first, in ascending order, and
    the other keys after them in the order in which they were added. *)
Definition listed_before (k k' : string) : bool :=
  match array_index k, array_index k' with
  | Some n, Some n' => n <? n'
  | Some _, None => true
  | None, _ => false
  end.

Section JsObject.
Context {V : Type}.

(** The own string-keyed properties of an object, in the order in which
    [Object.keys] and [Object.values] list them. *)
Definition obj : Type := list (string * V).

(** The own property [k] of [o], [None] when there is none. *)
Fixpoint get (o : obj) (k : string) : option V :=
  match o with
  | [] => None
  | (k', v) :: o' => if (k' =? k)%string then Some v else get o' k
  end.

(** [o] with a new own property [k], at its place in the listing. *)
Fixpoint add (o : obj) (k : string) (v : V) : obj :=
  match o with
  | [] => [(k, v)]
  | (k', v') :: o' =>
      if listed_before k k' then (k, v) :: o else (k', v') :: add o' k v
  end.

(** [o] with the value of its own property [k] replaced. *)
Fixpoint replace (o : obj) (k : string) (v : V) : obj :=
  match o with
  | [] => []
  | (k', v') :: o' =>
      if (k' =? k)%string then (k', v) :: o' else (k', v') :: replace o' k v
  end.

(** [o[k] = v], for a key other than [__proto__] (whose assignment sets the
    prototype): an own property keeps its place, a new one is added. *)
Definition set (o : obj) (k : string) (v : V) : obj :=
  match get o k with
  | Some _ => replace o k v
  | None => add o k v
  end.

Definition Object_keys (o : obj) : list string := map fst o.
Definition Object_values (o : obj) : list V := map snd o.

End JsObject.

Arguments obj : clear implicits.

(** ** Sorting *)

Section ArraySort.
Context {A : Type}.
Variable compareFn : A -> A -> Z.

(** [x], which stood before every element of the sorted [l], goes before
    the first element it does not have to follow. *)
Fixpoint sort_insert (x : A) (l : list A) : list A :=
  match l with
  | [] => [x]
  | y :: l' =>
      if compareFn x y <=? 0 then x :: y :: l' else y :: sort_insert x l'
  end.

(** [l.sort(compareFn)]. *)
Fixpoint Array_sort (l : list A) : list A :=
  match l with
  | [] => []
  | x :: l' => sort_insert x (Array_sort l')
  end.

End ArraySort.

(** Elements with the same key stand in [out] in the order they have in
    [l]: for each key value, the elements that have it form the same
    sequence in both lists. *)
Definition StableBy {A : Type} (key : A -> Z) (l out : list A) : Prop :=
  forall v, filter (fun x => key x =? v) out = filter (fun x => key x =? v) l.

(** [l.slice(0, n)]. *)
Definition slice0 {A : Type} (n : nat) (l : list A) : list A := firstn n l.

(** Sum of a list of numbers. *)
Definition sumZ (l : list Z) : Z := fold_right Z.add 0 l.



(** The binary64 number of an integer: the integer itself up to 2^53 in
    magnitude, and beyond it the nearest number that binary64 has (ties to
    even). *)
Definition Number (z : Z) : float :=
  SF2Prim (binary_normalize prec emax z 0 false).


(** Number of elements of [l] that satisfy [p], as a number. *)
Definition countZ {A : Type} (p : A -> bool) (l : list A) : Z :=
  Z.of_nat (List.length (filter p l)).

(** [l.map((item, index) => f(item, index))]. *)
Fixpoint mapi_from {A B : Type} (i : nat) (f : A -> nat -> B) (l : list A)
  : list B :=
  match l with
  | [] => []
  | x :: l' => f x i :: mapi_from (S i) f l'
  end.

Definition mapi {A B : Type} (f : A -> nat -> B) (l : list A) : list B :=
  mapi_from 0 f l.

Section JsObjectUpdate.
Context {V : Type}.

(** [if (!o[k]) { o[k] = init; }], for properties that hold objects. What
    [o[k]] reads is the own property [k] when there is one and otherwise,
    for a [k] that names one, the inherited member; both are truthy. So the
    property is added only when [k] is neither. *)
Definition ensure (o : obj V) (k : string) (init : V) : obj V :=
  match get o k with
  | Some _ => o
  | None => if inherited k then o else set o k init
  end.

(** An update of the object held at [o[k]], such as [o[k].count++]. Where
    the programs below update it, [ensure] has come first: [o[k]] is an own
    property of [o], or, for a [k] that names one, the inherited member.
    In that case the update lands on the inherited member: it stores a
    [NaN] there under the name of the updated field, which a later test
    reads as falsy, and the own properties of [o] are what they were. *)
Definition modify (o : obj V) (k : string) (f : V -> V) : obj V :=
  match get o k with
  | Some v => set o k (f v)
  | None => o
  end.

End JsObjectUpdate.

(** ** Grouping folds

    Every aggregation is a [reduce] whose step makes sure the bucket of the
    issue's key exists and then updates it; [group] is that scheme, and the
    aggregations below are shown to be instances of it. *)

Section Grouping.
Context {A V : Type}.
Variable key : A -> string.
Variable init : string -> V.
Variable upd : A -> V -> V.

Definition group_step (acc : obj V) (x : A) : obj V :=
  modify (ensure acc (key x) (init (key x))) (key x) (upd x).

Definition group (l : list A) : obj V := fold_left group_step l [].

(** The members of the bucket [k], in input order. *)
Definition members (k : string) (l : list A) : list A :=
  filter (fun x => (key x =? k)%string) l.

(** The bucket that the members [g] of [k] build up. *)
Definition bucket_of (k : string) (g : list A) : V :=
  fold_left (fun v x => upd x v) g (init k).

End Grouping.

(** The sum of a measure over the values of an object. *)
Definition total_of {V : Type} (g : V -> Z) (o : obj V) : Z :=
  sumZ (map g (Object_values o)).

(** ** Notifications *)

Record Toast : Type := mkToast {
  toast_title : string;
  toast_description : string;
  toast_destructive : bool
}.

(** ** The remote data gateway *)

Module Gateway.

(** The query clauses the client uses on the [issues] table. Rows with the
    same [created_at] are kept in table order by [order_created_at]; the
    properties below use only which rows a query returns. *)
Inductive clause : Type :=
| eq_is_spam (value : bool)
| order_created_at (ascending : bool).

Section Select.
Context `{Platform}.

Definition apply_clause (rows : list Issue) (c : clause) : list Issue :=
  match c with
  | eq_is_spam value => filter (fun r => Bool.eqb (is_spam r) value) rows
  | order_created_at ascending =>
      Array_sort
        (fun a b =>
           if ascending
           then Date_getTime (created_at a) - Date_getTime (created_at b)
           else Date_getTime (created_at b) - Date_getTime (created_at a))
        rows
  end.

(** [from("issues").select("*")] followed by the clauses [q]. *)
Definition select (q : list clause) (table : list Issue) : list Issue :=
  fold_left apply_clause q table.

End Select.

(** What a query resolves to: the rows, or an error message. *)
Inductive response : Type :=
| data (rows : list Issue)
| error (message : string).

(** Change events of the push feed. *)
Inductive EventType : Type := INSERT | UPDATE | DELETE.

Record Payload : Type := mkPayload {
  eventType : EventType;
  new : Issue
}.

Definition EventType_eqb (a b : EventType) : bool :=
  match a, b with
  | INSERT, INSERT | UPDATE, UPDATE | DELETE, DELETE => true
  | _, _ => false
  end.

End Gateway.

(** ** The reports feed *)

Module ViewReports.
Import Gateway.

Record State : Type := mkState {
  reports : list Issue;
  loading : bool;
  error : option string
}.

(** [useState] initial values. *)
Definition initial : State :=
  {| reports := []; loading := true; error := None |}.

(** The query of [fetchReports]. *)
Definition fetchReports_query : list clause :=
  [eq_is_spam false; order_created_at false].

(** [fetchReports], given what the query resolved to. *)
Definition fetchReports (r : response) (st : State) : State :=
  match r with
  | data rows => {| reports := rows; loading := false; error := error st |}
  | Gateway.error message =>
      {| reports := reports st; loading := false; error := Some message |}
  end.

(** The subscription callback: the new [reports] and the notifications
    raised. *)
Definition on_postgres_changes (payload : Payload) (prev : list Issue)
  : list Issue * list Toast :=
  if EventType_eqb (eventType payload) INSERT
     && negb (is_spam (new payload))
  then
    (new payload :: prev,
     [{| toast_title := "New Issue Reported";
         toast_description :=
           title (new payload) ++ " in " ++ category (new payload);
         toast_destructive := false |}])
  else if EventType_eqb (eventType payload) UPDATE
  then
    (map (fun report =>
            if (id report =? id (new payload))%string
            then new payload else report) prev,
     [])
  else (prev, []).

(** The [reports] after a run of change events, delivered in order. *)
Definition deliver (events : list Payload) (prev : list Issue)
  : list Issue :=
  fold_left (fun st payload => fst (on_postgres_changes payload st))
            events prev.

Definition matchesStatus (statusFilter : string) (report : Issue) : bool :=
  (statusFilter =? "all")%string || (status report =? statusFilter)%string.

Definition matchesCategory (categoryFilter : string) (report : Issue)
  : bool :=
  (categoryFilter =? "all")%string
  || (category report =? categoryFilter)%string.

Section Projection.
Context `{Platform}.

Definition matchesSearch (searchTerm : string) (report : Issue) : bool :=
  includes (toLowerCase (title report)) (toLowerCase searchTerm)
  || includes (toLowerCase (description report)) (toLowerCase searchTerm)
  || match location_name report with
     | Some name => includes (toLowerCase name) (toLowerCase searchTerm)
     | None => false
     end.

(** The comparator of the sort step. *)
Definition compareReports (sortBy : string) (a b : Issue) : Z :=
  if (sortBy =? "popular")%string
  then or0 (upvotes_count b) - or0 (upvotes_count a)
  else if (sortBy =? "priority")%string
  then or0 (priority_score b) - or0 (priority_score a)
  else if (sortBy =? "newest")%string
  then Date_getTime (created_at b) - Date_getTime (created_at a)
  else if (sortBy =? "oldest")%string
  then Date_getTime (created_at a) - Date_getTime (created_at b)
  else Date_getTime (created_at b) - Date_getTime (created_at a).

Definition filtered (reports : list Issue)
           (searchTerm statusFilter categoryFilter : string)
  : list Issue :=
  filter (fun report =>
            matchesSearch searchTerm report
            && matchesStatus statusFilter report
            && matchesCategory categoryFilter report) reports.

Definition sorted (sortBy : string) (l : list Issue) : list Issue :=
  Array_sort (compareReports sortBy) l.

(** The value given to [setFilteredReports]. *)
Definition filteredReports (reports : list Issue)
           (searchTerm statusFilter categoryFilter sortBy : string)
  : list Issue :=
  sorted sortBy (filtered reports searchTerm statusFilter categoryFilter).

End Projection.

End ViewReports.

(** ** The analytics dashboards *)

Module MonthlyReportData.
Record t : Type := mk { month : string; total : Z; resolved : Z }.
End MonthlyReportData.

Module ReportsByDayData.
Record t : Type := mk { day : string; count : Z }.
End ReportsByDayData.

Module LocationHotspotData.
Record t : Type := mk { location : string; count : Z }.
End LocationHotspotData.

(** The aggregations the two dashboards have in common, word for word. *)
Module Aggregators.

Section WithPlatform.
Context `{Platform}.

Definition monthly_step (acc : obj MonthlyReportData.t) (issue : Issue)
  : obj MonthlyReportData.t :=
  let month := formatMonth (created_at issue) in
  let acc :=
    ensure acc month
      {| MonthlyReportData.month := month;
         MonthlyReportData.total := 0;
         MonthlyReportData.resolved := 0 |} in
  let acc :=
    modify acc month (fun e =>
      {| MonthlyReportData.month := MonthlyReportData.month e;
         MonthlyReportData.total := MonthlyReportData.total e + 1;
         MonthlyReportData.resolved := MonthlyReportData.resolved e |}) in
  if (status issue =? "resolved")%string
  then
    modify acc month (fun e =>
      {| MonthlyReportData.month := MonthlyReportData.month e;
         MonthlyReportData.total := MonthlyReportData.total e;
         MonthlyReportData.resolved := MonthlyReportData.resolved e + 1 |})
  else acc.

(** The object built by the [reduce] of [processMonthlyReports]. *)
Definition monthly_buckets (issues : list Issue)
  : obj MonthlyReportData.t :=
  fold_left monthly_step issues [].

(** The value given to [setMonthlyData]. *)
Definition processMonthlyReports (issues : list Issue)
  : list MonthlyReportData.t :=
  Object_values (monthly_buckets issues).

End WithPlatform.

Definition hotspot_step (acc : obj LocationHotspotData.t) (issue : Issue)
  : obj LocationHotspotData.t :=
  let location := or_else (location_name issue) "Unknown" in
  let acc :=
    ensure acc location
      {| LocationHotspotData.location := location;
         LocationHotspotData.count := 0 |} in
  modify acc location (fun e =>
    {| LocationHotspotData.location := LocationHotspotData.location e;
       LocationHotspotData.count := LocationHotspotData.count e + 1 |}).

(** The object built by the [reduce] of [processLocationHotspots]. *)
Definition hotspot_buckets (issues : list Issue)
  : obj LocationHotspotData.t :=
  fold_left hotspot_step issues [].

Definition compareHotspots (a b : LocationHotspotData.t) : Z :=
  LocationHotspotData.count b - LocationHotspotData.count a.

(** The buckets in rank order, before the cut to ten. *)
Definition hotspots_ranked (issues : list Issue)
  : list LocationHotspotData.t :=
  Array_sort compareHotspots (Object_values (hotspot_buckets issues)).

(** The value given to [setLocationData]. *)
Definition processLocationHotspots (issues : list Issue)
  : list LocationHotspotData.t :=
  slice0 10 (hotspots_ranked issues).

End Aggregators.

(** The primary dashboard. *)
Module Analytics.

Module CategoryDistributionData.
Record t : Type := mk { name : string; count : Z; fill : string }.
End CategoryDistributionData.

Record State : Type := mkState {
  monthlyData : list MonthlyReportData.t;
  categoryData : list CategoryDistributionData.t;
  reportsByDayData : list ReportsByDayData.t;
  locationData : list LocationHotspotData.t;
  loading : bool
}.

Definition initial : State :=
  {| monthlyData := []; categoryData := []; reportsByDayData := [];
     locationData := []; loading := true |}.

Definition COLORS : list string :=
  ["#0088FE"; "#00C49F"; "#FFBB28"; "#FF8042"; "#AF19FF"; "#FF1943"].

Definition processMonthlyReports `{Platform} :=
  Aggregators.processMonthlyReports.

Definition category_step (acc : obj CategoryDistributionData.t)
           (issue : Issue) : obj CategoryDistributionData.t :=
  let acc :=
    ensure acc (category issue)
      {| CategoryDistributionData.name := category issue;
         CategoryDistributionData.count := 0;
         CategoryDistributionData.fill := "" |} in
  modify acc (category issue) (fun e =>
    {| CategoryDistributionData.name := CategoryDistributionData.name e;
       CategoryDistributionData.count :=
         CategoryDistributionData.count e + 1;
       CategoryDistributionData.fill := CategoryDistributionData.fill e |}).

(** The value given to [setCategoryData]. *)
Definition processCategoryDistribution (issues : list Issue)
  : list CategoryDistributionData.t :=
  let data := fold_left category_step issues [] in
  mapi (fun item index =>
          {| CategoryDistributionData.name :=
               CategoryDistributionData.name item;
             CategoryDistributionData.count :=
               CategoryDistributionData.count item;
             CategoryDistributionData.fill :=
               nth (index mod List.length COLORS) COLORS "" |})
       (Array_sort
          (fun a b =>
             CategoryDistributionData.count b
             - CategoryDistributionData.count a)
          (Object_values data)).

Definition daysOfWeek : list string :=
  ["Sun"; "Mon"; "Tue"; "Wed"; "Thu"; "Fri"; "Sat"].

Section WithPlatform.
Context `{Platform}.

(** [daysOfWeek[new Date(issue.created_at).getDay()]]. *)
Definition dayName (issue : Issue) : string :=
  nth (Z.to_nat (getDay (created_at issue))) daysOfWeek "undefined".

Definition byDay_step (acc : obj ReportsByDayData.t) (issue : Issue)
  : obj ReportsByDayData.t :=
  let day := dayName issue in
  let acc :=
    ensure acc day
      {| ReportsByDayData.day := day; ReportsByDayData.count := 0 |} in
  modify acc day (fun e =>
    {| ReportsByDayData.day := ReportsByDayData.day e;
       ReportsByDayData.count := ReportsByDayData.count e + 1 |}).

(** The value given to [setReportsByDayData]. No day name is the name of an
    inherited member, so that [data[day]] is the own property [day] or
    [undefined]. *)
Definition processReportsByDay (issues : list Issue)
  : list ReportsByDayData.t :=
  let data := fold_left byDay_step issues [] in
  map (fun day =>
         match get data day with
         | Some e => e
         | None =>
             {| ReportsByDayData.day := day;
                ReportsByDayData.count := 0 |}
         end) daysOfWeek.

Definition processLocationHotspots := Aggregators.processLocationHotspots.

(** The query of [fetchData]: the whole table. *)
Definition fetchData_query : list Gateway.clause := [].

(** [fetchData], given what the query resolved to. *)
Definition fetchData (r : Gateway.response) (st : State) : State :=
  match r with
  | Gateway.error _ =>
      {| monthlyData := monthlyData st; categoryData := categoryData st;
         reportsByDayData := reportsByDayData st;
         locationData := locationData st; loading := false |}
  | Gateway.data issues =>
      {| monthlyData := processMonthlyReports issues;
         categoryData := processCategoryDistribution issues;
         reportsByDayData := processReportsByDay issues;
         locationData := processLocationHotspots issues;
         loading := false |}
  end.

(** The dashboard's state once it has loaded from the table. *)
Definition loaded (table : list Issue) : State :=
  fetchData (Gateway.data (Gateway.select fetchData_query table)) initial.

End WithPlatform.

End Analytics.

(** The alternate dashboard. *)
Module AnalyticsAlt.

Module CategoryDistributionData.
Record t : Type := mk { category : string; count : Z }.
End CategoryDistributionData.

Module ResolutionTimeData.
Record t : Type := mk { category : string; avg_time_hours : float }.
End ResolutionTimeData.

(** The accumulator entries of [processResolutionTimes]. *)
Module TimeAcc.
Record t : Type := mk { total_time : float; count : Z }.
End TimeAcc.

Record State : Type := mkState {
  monthlyData : list MonthlyReportData.t;
  categoryData : list CategoryDistributionData.t;
  resolutionTimeData : list ResolutionTimeData.t;
  locationData : list LocationHotspotData.t;
  loading : bool
}.

Definition initial : State :=
  {| monthlyData := []; categoryData := []; resolutionTimeData := [];
     locationData := []; loading := true |}.

Definition processMonthlyReports `{Platform} :=
  Aggregators.processMonthlyReports.

Definition category_step (acc : obj CategoryDistributionData.t)
           (issue : Issue) : obj CategoryDistributionData.t :=
  let acc :=
    ensure acc (category issue)
      {| CategoryDistributionData.category := category issue;
         CategoryDistributionData.count := 0 |} in
  modify acc (category issue) (fun e =>
    {| CategoryDistributionData.category :=
         CategoryDistributionData.category e;
       CategoryDistributionData.count :=
         CategoryDistributionData.count e + 1 |}).

(** The value given to [setCategoryData]. *)
Definition processCategoryDistribution (issues : list Issue)
  : list CategoryDistributionData.t :=
  Object_values (fold_left category_step issues []).

Section WithPlatform.
Context `{Platform}.

(** The issues the resolution-time chart is computed from. *)
Definition isResolved (i : Issue) : bool :=
  (status i =? "resolved")%string && truthy (resolved_at i).

(** [new Date(issue.resolved_at!).getTime()
     - new Date(issue.created_at).getTime()], a subtraction of binary64
    numbers; an absent [resolved_at], which [resolvedIssues] leaves out, is
    [null], read by [Date] as the epoch. *)
Definition timeDiff (issue : Issue) : float :=
  match resolved_at issue with
  | Some r =>
      (Number (Date_getTime r) - Number (Date_getTime (created_at issue)))%float
  | None => (Number 0 - Number (Date_getTime (created_at issue)))%float
  end.

(** [timeDiff / (1000 * 60 * 60)]. *)
Definition hours (issue : Issue) : float :=
  (timeDiff issue / Number (1000 * 60 * 60))%float.

Definition resolution_step (acc : obj TimeAcc.t) (issue : Issue)
  : obj TimeAcc.t :=
  let acc :=
    ensure acc (category issue)
      {| TimeAcc.total_time := Number 0; TimeAcc.count := 0 |} in
  let acc :=
    modify acc (category issue) (fun e =>
      {| TimeAcc.total_time := (TimeAcc.total_time e + hours issue)%float;
         TimeAcc.count := TimeAcc.count e |}) in
  modify acc (category issue) (fun e =>
    {| TimeAcc.total_time := TimeAcc.total_time e;
       TimeAcc.count := TimeAcc.count e + 1 |}).

Definition resolvedIssues (issues : list Issue) : list Issue :=
  filter isResolved issues.

Definition dataByCategory (issues : list Issue) : obj TimeAcc.t :=
  fold_left resolution_step (resolvedIssues issues) [].

(** The value given to [setResolutionTimeData]. Every key that
    [Object.keys] lists is an own property, so the lookup finds an entry;
    the other case of the lookup is never taken. *)
Definition processResolutionTimes (issues : list Issue)
  : list ResolutionTimeData.t :=
  let dataByCategory := dataByCategory issues in
  map (fun category =>
         match get dataByCategory category with
         | Some e =>
             {| ResolutionTimeData.category := category;
                ResolutionTimeData.avg_time_hours :=
                  (TimeAcc.total_time e / Number (TimeAcc.count e))%float |}
         | None =>
             {| ResolutionTimeData.category := category;
                ResolutionTimeData.avg_time_hours := Number 0 |}
         end)
      (Object_keys dataByCategory).

Definition processLocationHotspots := Aggregators.processLocationHotspots.

(** The query of [fetchData]: the whole table. *)
Definition fetchData_query : list Gateway.clause := [].

(** [fetchData], given what the query resolved to. *)
Definition fetchData (r : Gateway.response) (st : State) : State :=
  match r with
  | Gateway.error _ =>
      {| monthlyData := monthlyData st; categoryData := categoryData st;
         resolutionTimeData := resolutionTimeData st;
         locationData := locationData st; loading := false |}
  | Gateway.data issues =>
      {| monthlyData := processMonthlyReports issues;
         categoryData := processCategoryDistribution issues;
         resolutionTimeData := processResolutionTimes issues;
         locationData := processLocationHotspots issues;
         loading := false |}
  end.

(** The dashboard's state once it has loaded from the table. *)
Definition loaded (table : list Issue) : State :=
  fetchData (Gateway.data (Gateway.select fetchData_query table)) initial.

End WithPlatform.

End AnalyticsAlt.

(** ** The submission form *)

Module ReportModal.

Record Location : Type := mkLocation { lat : Q; lng : Q; name : string }.

Record File : Type := mkFile { file_name : string }.

(** The component's state. *)
Record Form : Type := mkForm {
  category : string;
  description : string;
  photo : option File;
  isSubmitting : bool;
  title : string;
  streetAddress : string;
  landmark : string;
  location : option Location
}.

(** The row handed to [insert]. *)
Record Row : Type := mkRow {
  row_title : string;
  row_category : string;
  row_description : string;
  row_latitude : Q;
  row_longitude : Q;
  row_location_name : string;
  row_image_url : option string;
  row_status : string;
  row_street_address : string;
  row_landmark : string
}.

(** What [handleSubmit] does to the outside, in order. *)
Inductive Effect : Type :=
| preventDefault
| toast (t : Toast)
| storage_upload (fileName : string) (file : File)
| storage_getPublicUrl (fileName : string)
| issues_insert (row : Row)
| console_error
| onClose.

(** The calls that go to the remote gateway. *)
Definition is_network_call (e : Effect) : bool :=
  match e with
  | storage_upload _ _ | storage_getPublicUrl _ | issues_insert _ => true
  | _ => false
  end.

(** What the outside answers during one submission; [Date_now] is the
    decimal rendering of [Date.now()]. *)
Record World : Type := mkWorld {
  Date_now : string;
  uploadError : bool;
  publicUrl : string -> string;
  insertError : bool
}.

(** The part of [s] after its last dot: [s.split('.').pop()]. *)
Fixpoint lastSegment_from (seg : string) (s : string) : string :=
  match s with
  | EmptyString => seg
  | String c s' =>
      if Ascii.eqb c "."%char
      then lastSegment_from "" s'
      else lastSegment_from (seg ++ String c "") s'
  end.

Definition lastSegment (s : string) : string := lastSegment_from "" s.

Definition with_isSubmitting (f : Form) (b : bool) : Form :=
  {| category := category f; description := description f;
     photo := photo f; isSubmitting := b; title := title f;
     streetAddress := streetAddress f; landmark := landmark f;
     location := location f |}.

(** The state after a successful submission. *)
Definition cleared : Form :=
  {| category := ""; description := ""; photo := None;
     isSubmitting := false; title := ""; streetAddress := "";
     landmark := ""; location := None |}.

Definition destructive (t d : string) : Effect :=
  toast {| toast_title := t; toast_description := d;
           toast_destructive := true |}.

Definition isEmpty (s : string) : bool := (s =? "")%string.

(** The upload and the insert, after validation: the [try] block with its
    [catch]. *)
Definition submit (w : World) (f : Form) (loc : Location) (ph : File)
  : Form * list Effect :=
  let failed :=
    [console_error;
     destructive "Submission Failed"
                 "Something went wrong. Please try again."] in
  let fileExt := lastSegment (file_name ph) in
  let fileName := Date_now w ++ "." ++ fileExt in
  if uploadError w
  then (with_isSubmitting f false, storage_upload fileName ph :: failed)
  else
    let imageUrl := publicUrl w fileName in
    let row :=
      {| row_title := title f; row_category := category f;
         row_description := description f;
         row_latitude := lat loc; row_longitude := lng loc;
         row_location_name := name loc;
         row_image_url := Some imageUrl; row_status := "new";
         row_street_address := streetAddress f;
         row_landmark := landmark f |} in
    let calls :=
      [storage_upload fileName ph; storage_getPublicUrl fileName;
       issues_insert row] in
    if insertError w
    then (with_isSubmitting f false, (calls ++ failed)%list)
    else
      (cleared,
       (calls ++
        [toast {| toast_title := "Report Submitted!";
                 toast_description :=
                   "Thank you for helping improve our community.";
                  toast_destructive := false |};
         onClose])%list).

(** [handleSubmit]: the resulting state and the effects, in order. *)
Definition handleSubmit (w : World) (f : Form) : Form * list Effect :=
  match location f with
  | None =>
      (f, [preventDefault;
           destructive "Location Required"
                       "Please enable location access and try again."])
  | Some loc =>
      if (name loc =? "Location unavailable")%string
      then
        (f, [preventDefault;
             destructive "Location Required"
                         "Please enable location access and try again."])
      else
        match photo f with
        | None =>
            (f, [preventDefault;
                 destructive "Photo Required"
                             "Please upload a photo of the issue."])
        | Some ph =>
            if isEmpty (title f) || isEmpty (category f)
               || isEmpty (description f) || isEmpty (streetAddress f)
               || isEmpty (landmark f)
            then
              (f, [preventDefault;
                   destructive "Missing Information"
                               "Please fill in all required fields."])
            else
              let '(f', effects) :=
                submit w (with_isSubmitting f true) loc ph in
              (f', preventDefault :: effects)
        end
  end.

End ReportModal.


(** ** Scenarios

    The two issues of the specification's example, and a feed row used to
    run the subscription callback. *)

Module Scenario.

Definition issue1 : Issue :=
  {| id := "1"; title := "Pothole on Main St"; description := "Deep hole";
     category := "Pothole"; status := "new"; location_name := Some "Pune";
     upvotes_count := Some 3; priority_score := None;
     created_at := "2024-01-05"; resolved_at := None; is_spam := false |}.

Definition issue2 : Issue :=
  {| id := "2"; title := "Pothole near school"; description := "Fixed now";
     category := "Pothole"; status := "resolved"; location_name := None;
     upvotes_count := None; priority_score := Some 5;
     created_at := "2024-01-10"; resolved_at := Some "2024-01-12";
     is_spam := false |}.

End Scenario.

(** ** The rest of the reports page *)

Module ViewReportsPage.

(** [String(n)] for a length. *)
Definition lengthString (n : nat) : string :=
  NilZero.string_of_uint (Nat.to_uint n).

(** [Array.from(new Set(l))]: the first occurrence of each element, in
    order. *)
Definition Set_values (l : list string) : list string :=
  fold_left
    (fun seen x => if existsb (String.eqb x) seen then seen
                   else (seen ++ [x])%list)
    l [].

(** [[...new Set(reports.map(r => r.category))]]. *)
Definition uniqueCategories (reports : list Issue) : list string :=
  Set_values (map category reports).

(** The four inputs of the projection. *)
Record Filters : Type := mkFilters {
  searchTerm : string;
  statusFilter : string;
  categoryFilter : string;
  sortBy : string
}.

(** [useState] initial values. *)
Definition initialFilters : Filters :=
  {| searchTerm := ""; statusFilter := "all"; categoryFilter := "all";
     sortBy := "newest" |}.

(** The "Clear" button of the filter bar. *)
Definition clear (f : Filters) : Filters :=
  {| searchTerm := ""; statusFilter := "all"; categoryFilter := "all";
     sortBy := "newest" |}.

(** The "Clear Filters" button of the empty state, which keeps the sort. *)
Definition clearFilters (f : Filters) : Filters :=
  {| searchTerm := ""; statusFilter := "all"; categoryFilter := "all";
     sortBy := sortBy f |}.

(** The projection for given inputs. *)
Definition projection `{Platform} (reports : list Issue) (f : Filters)
  : list Issue :=
  ViewReports.filteredReports reports (searchTerm f) (statusFilter f)
                              (categoryFilter f) (sortBy f).

(** What the page shows in place of the grid when the projection is empty:
    the message, and whether the "Clear Filters" button is offered. Nothing
    of it is shown while loading, after a fetch error, or when the
    projection has an element. *)
Definition emptyState (st : ViewReports.State) (filteredReports : list Issue)
  : option (string * bool) :=
  if negb (ViewReports.loading st)
     && negb (match ViewReports.error st with Some m => negb (m =? "")%string
                                         | None => false end)
     && (List.length filteredReports =? 0)%nat
  then
    Some (if (List.length (ViewReports.reports st) =? 0)%nat
          then "No reports have been submitted yet."
          else "No issues match your current filters.",
          (0 <? List.length (ViewReports.reports st))%nat)
  else None.

(** The colour class of the status badge. *)
Definition statusClass (status : string) : string :=
  if (status =? "resolved")%string then "bg-green-100 text-green-800"
  else if (status =? "in_progress")%string then "bg-blue-100 text-blue-800"
  else "bg-red-100 text-red-800".

(** [report.priority_score > 5]: whether the "High Priority" badge shows. *)
Definition highPriority (report : Issue) : bool :=
  5 <? or0 (priority_score report).

(** The columns of a row that only the export reads. *)
Record Row : Type := mkRow {
  issue : Issue;
  street_address : option string;
  landmark : option string;
  image_url : option string;
  public_notes : option string;
  assigned_to : option string;
  response_time : option string
}.

(** A line of the exported sheet. *)
Record ExportRow : Type := mkExportRow {
  ID : string;
  Title : string;
  Description : string;
  Category : string;
  Status : string;
  Created_At : string;
  Location : option string;
  Address : option string;
  Landmark : option string;
  Upvotes : Z;
  Priority_Score : Z;
  Image_URL : option string;
  Public_Notes : option string;
  Assigned_To : option string;
  Response_Time : option string
}.

Inductive Effect : Type :=
| toast (t : Toast)
| XLSX_writeFile (sheetName : string) (rows : list ExportRow)
                 (fileName : string).

Definition four_digits (n : Z) : string :=
  String (Calendar.digit (n / 1000 mod 10))
         (String (Calendar.digit (n / 100 mod 10)) (Calendar.two_digits n)).

(** [new Date(t).toISOString().split('T')[0]], for the years 0 to 9999. *)
Definition isoDate (t : Z) : string :=
  let '(y, m, d) := Calendar.civil_from_days (Calendar.Day t) in
  four_digits y ++ "-" ++ Calendar.two_digits m ++ "-"
  ++ Calendar.two_digits d.

Section ExportSheet.
Context `{Platform}.
(** [new Date(t).toLocaleString()], which depends on the locale. *)
Variable toLocaleString : Z -> string.
(** [Date.now()]. *)
Variable now : Z.

Definition toExportRow (report : Row) : ExportRow :=
  {| ID := id (issue report);
     Title := title (issue report);
     Description := description (issue report);
     Category := category (issue report);
     Status := status (issue report);
     Created_At := toLocaleString (Date_getTime (created_at (issue report)));
     Location := location_name (issue report);
     Address := street_address report;
     Landmark := landmark report;
     Upvotes := or0 (upvotes_count (issue report));
     Priority_Score := or0 (priority_score (issue report));
     Image_URL := image_url report;
     Public_Notes := public_notes report;
     Assigned_To := assigned_to report;
     Response_Time := response_time report |}.

(** [handleExport], on the current projection. *)
Definition handleExport (filteredReports : list Row) : list Effect :=
  if (List.length filteredReports =? 0)%nat
  then
    [toast {| toast_title := "No Data to Export";
              toast_description :=
                "There are no reports matching the current filters.";
              toast_destructive := true |}]
  else
    [XLSX_writeFile "Reports" (map toExportRow filteredReports)
                    ("community_reports_" ++ isoDate now ++ ".xlsx");
     toast {| toast_title := "Export Successful";
              toast_description :=
                lengthString (List.length filteredReports)
                ++ " reports have been exported.";
              toast_destructive := false |}].

End ExportSheet.

End ViewReportsPage.

(** ** The rest of the submission form *)

Module ReportForm.
Import ReportModal.

Definition issueCategories : list string :=
  ["Pothole"; "Broken Streetlight"; "Overflowing Trash Bin"; "Graffiti";
   "Damaged Public Property"; "Water Leak"; "Sidewalk Damage";
   "Traffic Signal Issue"; "Other"].

(** What [getCurrentPosition] reports. *)
Inductive Geolocation : Type :=
| position (latitude longitude : Q)
| positionError.

(** What the reverse geocoding request resolves to: the three fields of its
    answer that are read, or a failure of the request or of its decoding. *)
Inductive Geocode : Type :=
| geocoded (locality city countryName : option string)
| geocodeFailed.

(** Everything the form does to the outside. *)
Inductive Event : Type :=
| getCurrentPosition
| fetch_reverse_geocode (latitude longitude : Q)
| console_error
| toast (t : Toast)
| submission (e : ReportModal.Effect).

Definition with_location (f : Form) (l : option Location) : Form :=
  {| category := category f; description := description f;
     photo := photo f; isSubmitting := isSubmitting f; title := title f;
     streetAddress := streetAddress f; landmark := landmark f;
     location := l |}.

Definition with_photo (f : Form) (p : option File) : Form :=
  {| category := category f; description := description f;
     photo := p; isSubmitting := isSubmitting f; title := title f;
     streetAddress := streetAddress f; landmark := landmark f;
     location := location f |}.

(** The location effect, run with the dialog open or closed: it asks for the
    position only while the dialog is open and no location is set. *)
Definition locate (isOpen : bool) (geo : Geolocation) (rev : Geocode)
           (f : Form) : Form * list Event :=
  if isOpen && match location f with None => true | Some _ => false end
  then
    match geo with
    | position latitude longitude =>
        match rev with
        | geocoded locality city countryName =>
            let locationName :=
              or_else locality
                (or_else city (or_else countryName "Unknown location")) in
            (with_location f
               (Some {| lat := latitude; lng := longitude;
                        name := locationName |}),
             [getCurrentPosition; fetch_reverse_geocode latitude longitude])
        | geocodeFailed =>
            (with_location f
               (Some {| lat := latitude; lng := longitude;
                        name := "Current location" |}),
             [getCurrentPosition; fetch_reverse_geocode latitude longitude])
        end
    | positionError =>
        (with_location f
           (Some {| lat := 0%Q; lng := 0%Q; name := "Location unavailable" |}),
         [getCurrentPosition; console_error;
          toast {| toast_title := "Location Access Required";
                   toast_description :=
                     "Please enable location services to report an issue.";
                   toast_destructive := true |}])
    end
  else (f, []).

(** [handlePhotoChange], given [e.target.files?.[0]]. *)
Definition handlePhotoChange (file : option File) (f : Form) : Form :=
  match file with
  | Some file => with_photo f (Some file)
  | None => f
  end.

(** What the user and the platform can do to an open form. *)
Inductive Action : Type :=
| setTitle (v : string)
| setCategory (v : string)
| setDescription (v : string)
| setStreetAddress (v : string)
| setLandmark (v : string)
| photoChange (file : option File)
| removePhoto
| runLocate (isOpen : bool) (geo : Geolocation) (rev : Geocode)
| submit (w : World).

Definition step (f : Form) (a : Action) : Form * list Event :=
  match a with
  | setTitle v =>
      ({| category := category f; description := description f;
          photo := photo f; isSubmitting := isSubmitting f; title := v;
          streetAddress := streetAddress f; landmark := landmark f;
          location := location f |}, [])
  | setCategory v =>
      ({| category := v; description := description f;
          photo := photo f; isSubmitting := isSubmitting f; title := title f;
          streetAddress := streetAddress f; landmark := landmark f;
          location := location f |}, [])
  | setDescription v =>
      ({| category := category f; description := v;
          photo := photo f; isSubmitting := isSubmitting f; title := title f;
          streetAddress := streetAddress f; landmark := landmark f;
          location := location f |}, [])
  | setStreetAddress v =>
      ({| category := category f; description := description f;
          photo := photo f; isSubmitting := isSubmitting f; title := title f;
          streetAddress := v; landmark := landmark f;
          location := location f |}, [])
  | setLandmark v =>
      ({| category := category f; description := description f;
          photo := photo f; isSubmitting := isSubmitting f; title := title f;
          streetAddress := streetAddress f; landmark := v;
          location := location f |}, [])
  | photoChange file => (handlePhotoChange file f, [])
  | removePhoto => (with_photo f None, [])
  | runLocate isOpen geo rev => locate isOpen geo rev f
  | submit w =>
      let '(f', effects) := handleSubmit w f in (f', map submission effects)
  end.

(** The form and the events after a run of actions. *)
Fixpoint run (f : Form) (actions : list Action) : Form * list Event :=
  match actions with
  | [] => (f, [])
  | a :: rest =>
      let '(f1, e1) := step f a in
      let '(f2, e2) := run f1 rest in
      (f2, (e1 ++ e2)%list)
  end.

(** An event that is a call to the remote gateway. *)
Definition calls_gateway (e : Event) : bool :=
  match e with
  | submission e => is_network_call e
  | _ => false
  end.

End ReportForm.

(** ** The session and role mirrors *)

(** Browser storage. Its items are a dictionary of strings; when the browser
    refuses access to it, every access throws. *)
Module LocalStorage.

Record t : Type := mk {
  refused : option string;
  items : obj string
}.

(** What an access yields: a value, or the message of the error thrown. *)
Inductive result (A : Type) : Type :=
| ok (a : A)
| thrown (message : string).

Arguments ok {A} a.
Arguments thrown {A} message.

Fixpoint remove (o : obj string) (k : string) : obj string :=
  match o with
  | [] => []
  | (k', v) :: o' =>
      if (k' =? k)%string then remove o' k else (k', v) :: remove o' k
  end.

Definition getItem (s : t) (k : string) : result (option string) :=
  match refused s with
  | Some message => thrown message
  | None => ok (get (items s) k)
  end.

Definition setItem (s : t) (k v : string) : result t :=
  match refused s with
  | Some message => thrown message
  | None => ok {| refused := None; items := set (items s) k v |}
  end.

Definition removeItem (s : t) (k : string) : result t :=
  match refused s with
  | Some message => thrown message
  | None => ok {| refused := None; items := remove (items s) k |}
  end.

End LocalStorage.

(** What the session pages do to the outside. *)
Inductive AuthEvent : Type :=
| auth_console_error
| signInWithPassword (email password : string)
| rpc_is_admin
| signOut
| toast_success (title description : string)
| toast_error (title description : string)
| navigate (path : string) (replace : bool).

(** [AuthProvider]. *)
Module AuthProvider.
Import LocalStorage.

Record State : Type := mkState {
  isAuthenticated : bool;
  loading : bool
}.

(** [useState] initial values. *)
Definition initial : State := {| isAuthenticated := false; loading := true |}.

(** The effect run on mount. *)
Definition mount (s : LocalStorage.t) (st : State) : State * list AuthEvent :=
  match getItem s "isAuthenticated" with
  | ok storedAuth =>
      ({| isAuthenticated :=
            match storedAuth with
            | Some v => if (v =? "true")%string then true
                        else isAuthenticated st
            | None => isAuthenticated st
            end;
          loading := false |}, [])
  | thrown _ =>
      ({| isAuthenticated := isAuthenticated st; loading := false |},
       [auth_console_error])
  end.

(** [login]: the storage and state after it, or the error it throws, in
    which case neither has changed. *)
Definition login (s : LocalStorage.t) (st : State)
  : result (LocalStorage.t * State) :=
  match setItem s "isAuthenticated" "true" with
  | ok s' => ok (s', {| isAuthenticated := true; loading := loading st |})
  | thrown m => thrown m
  end.

Definition logout (s : LocalStorage.t) (st : State)
  : result (LocalStorage.t * State) :=
  match removeItem s "isAuthenticated" with
  | ok s' => ok (s', {| isAuthenticated := false; loading := loading st |})
  | thrown m => thrown m
  end.

End AuthProvider.

(** [AdminProvider]. *)
Module AdminProvider.
Import LocalStorage.

Record State : Type := mkState {
  isAdmin : bool;
  loading : bool
}.

Definition initial : State := {| isAdmin := false; loading := true |}.

Section WithJSON.
(** Whether [JSON.parse(s)] is a truthy value, or the error it throws. *)
Variable JSON_parse : string -> result bool.

(** The effect run on mount. *)
Definition mount (s : LocalStorage.t) (st : State) : State * list AuthEvent :=
  match getItem s "isAdmin" with
  | ok storedIsAdmin =>
      if truthy storedIsAdmin
      then
        match JSON_parse (or_else storedIsAdmin "") with
        | ok v => ({| isAdmin := v; loading := false |}, [])
        | thrown _ =>
            ({| isAdmin := isAdmin st; loading := false |},
             [auth_console_error])
        end
      else ({| isAdmin := isAdmin st; loading := false |}, [])
  | thrown _ =>
      ({| isAdmin := isAdmin st; loading := false |}, [auth_console_error])
  end.

End WithJSON.

(** [setAsAdmin]: the state is set before the storage is written, so it is
    set even when the write throws. *)
Definition setAsAdmin (s : LocalStorage.t) (st : State)
  : State * result LocalStorage.t :=
  ({| isAdmin := true; loading := loading st |}, setItem s "isAdmin" "true").

Definition unsetAsAdmin (s : LocalStorage.t) (st : State)
  : State * result LocalStorage.t :=
  ({| isAdmin := false; loading := loading st |}, removeItem s "isAdmin").

(** The effect that follows the session: it runs on mount and whenever
    [isAuthenticated] changes, with the value of that render. *)
Definition sync (isAuthenticated : bool) (s : LocalStorage.t) (st : State)
  : State * result LocalStorage.t :=
  if negb isAuthenticated then unsetAsAdmin s st else (st, ok s).

End AdminProvider.

(** [ProtectedRoute]. *)
Module ProtectedRoute.

Inductive View : Type :=
| Loading
| Navigate (to : string) (replace : bool)
| children.

Definition render (auth : AuthProvider.State) : View :=
  if AuthProvider.loading auth then Loading
  else if negb (AuthProvider.isAuthenticated auth)
       then Navigate "/admin-login" true
       else children.

End ProtectedRoute.

(** [UserMenu]. *)
Module UserMenu.
Import LocalStorage.

(** [handleLogout]: sign out, clear the session mirror, go to the login
    page; when clearing throws, the navigation is not reached. *)
Definition handleLogout (s : LocalStorage.t) (auth : AuthProvider.State)
  : LocalStorage.t * AuthProvider.State * list AuthEvent :=
  match AuthProvider.logout s auth with
  | ok (s', auth') => (s', auth', [signOut; navigate "/admin-login" false])
  | thrown _ => (s, auth, [signOut])
  end.

End UserMenu.

(** [AdminAuth]. *)
Module AdminAuth.
Import LocalStorage.

(** What the backend answers during one login. *)
Record Server : Type := mkServer {
  authError : option string;
  user : bool;
  rpcError : option string;
  isAdmin : bool
}.

(** The session state a login acts on. *)
Record Session : Type := mkSession {
  storage : LocalStorage.t;
  auth : AuthProvider.State;
  admin : AdminProvider.State;
  loading : bool
}.

Definition failed (x : Session) (events : list AuthEvent) (message : string)
  : Session * list AuthEvent :=
  ({| storage := storage x; auth := auth x; admin := admin x;
      loading := false |},
   (events ++ [toast_error "Authentication Failed" message])%list).

(** [handleLogin]. *)
Definition handleLogin (email password : string) (srv : Server) (x : Session)
  : Session * list AuthEvent :=
  let signIn := [signInWithPassword email password] in
  match authError srv with
  | Some message => failed x signIn message
  | None =>
      if negb (user srv)
      then failed x signIn
                  "Authentication failed. Please check your credentials."
      else
        let asked := (signIn ++ [rpc_is_admin])%list in
        match rpcError srv with
        | Some message => failed x asked message
        | None =>
            if isAdmin srv
            then
              match AuthProvider.login (storage x) (auth x) with
              | thrown message => failed x asked message
              | ok (s1, auth1) =>
                  let '(admin1, written) :=
                    AdminProvider.setAsAdmin s1 (admin x) in
                  match written with
                  | thrown message =>
                      ({| storage := s1; auth := auth1; admin := admin1;
                          loading := false |},
                       (asked ++ [toast_error "Authentication Failed"
                                              message])%list)
                  | ok s2 =>
                      ({| storage := s2; auth := auth1; admin := admin1;
                          loading := false |},
                       (asked ++ [toast_success "Login Successful"
                                                "Welcome back, admin!"])%list)
                  end
              end
            else
              failed x (asked ++ [signOut])%list
                     "You are not authorized to access this page."
        end
  end.

Inductive View : Type := Loading | form.

(** What the page renders. *)
Definition render (auth : AuthProvider.State) : View :=
  if AuthProvider.loading auth || AuthProvider.isAuthenticated auth
  then Loading else form.

(** The effect that leaves the page once the session is known. *)
Definition redirect (auth : AuthProvider.State) : list AuthEvent :=
  if negb (AuthProvider.loading auth) && AuthProvider.isAuthenticated auth
  then [navigate "/admin" true] else [].

Definition togglePasswordVisibility (showPassword : bool) : bool :=
  negb showPassword.

End AdminAuth.

(** The two providers coming up together on a page load: both render with
    their initial state, so the role provider sees no session; then the
    effects of that first commit run, those of the role provider before or
    after the one of the session provider; and the role provider's effect
    that follows the session runs again if the session flag has changed. *)
Module Boot.
Import LocalStorage.

Record Result : Type := mkResult {
  storage : LocalStorage.t;
  auth : AuthProvider.State;
  admin : AdminProvider.State;
  events : list AuthEvent
}.

Section WithJSON.
Variable JSON_parse : string -> result bool.

(** The effects of the role provider in the first commit. *)
Definition adminEffects (s : LocalStorage.t)
  : result (LocalStorage.t * AdminProvider.State * list AuthEvent) :=
  let '(admin1, e1) :=
    AdminProvider.mount JSON_parse s AdminProvider.initial in
  let '(admin2, removed) :=
    AdminProvider.sync (AuthProvider.isAuthenticated AuthProvider.initial)
                       s admin1 in
  match removed with
  | ok s' => ok (s', admin2, e1)
  | thrown m => thrown m
  end.

(** The effect that follows the session, after the re-render: it runs again
    only when the session flag is no longer the initial one. *)
Definition resync (auth1 : AuthProvider.State) (s : LocalStorage.t)
           (admin1 : AdminProvider.State)
  : AdminProvider.State * result LocalStorage.t :=
  if Bool.eqb (AuthProvider.isAuthenticated auth1)
              (AuthProvider.isAuthenticated AuthProvider.initial)
  then (admin1, ok s)
  else AdminProvider.sync (AuthProvider.isAuthenticated auth1) s admin1.

Definition boot (adminFirst : bool) (s : LocalStorage.t) : result Result :=
  if adminFirst
  then
    match adminEffects s with
    | thrown m => thrown m
    | ok (s1, admin1, e1) =>
        let '(auth1, e2) := AuthProvider.mount s1 AuthProvider.initial in
        match resync auth1 s1 admin1 with
        | (admin2, ok s2) =>
            ok {| storage := s2; auth := auth1; admin := admin2;
                  events := (e1 ++ e2)%list |}
        | (_, thrown m) => thrown m
        end
    end
  else
    let '(auth1, e1) := AuthProvider.mount s AuthProvider.initial in
    match adminEffects s with
    | thrown m => thrown m
    | ok (s1, admin1, e2) =>
        match resync auth1 s1 admin1 with
        | (admin2, ok s2) =>
            ok {| storage := s2; auth := auth1; admin := admin2;
                  events := (e1 ++ e2)%list |}
        | (_, thrown m) => thrown m
        end
    end.

End WithJSON.

End Boot.

(** ** Vocabulary of the properties

    The grouping key, the empty bucket and the bucket update of each
    aggregation, by which its [reduce] is an instance of [group]; and the
    conditions and notifications of the submission form. *)

Definition byDay_init (d : string) : ReportsByDayData.t :=
  {| ReportsByDayData.day := d; ReportsByDayData.count := 0 |}.

Definition byDay_upd (_ : Issue) (e : ReportsByDayData.t)
  : ReportsByDayData.t :=
  {| ReportsByDayData.day := ReportsByDayData.day e;
     ReportsByDayData.count := ReportsByDayData.count e + 1 |}.

(** The hotspot an issue counts for. *)
Definition place (i : Issue) : string :=
  or_else (location_name i) "Unknown".

Definition hotspot_init (k : string) : LocationHotspotData.t :=
  {| LocationHotspotData.location := k; LocationHotspotData.count := 0 |}.

Definition hotspot_upd (_ : Issue) (e : LocationHotspotData.t)
  : LocationHotspotData.t :=
  {| LocationHotspotData.location := LocationHotspotData.location e;
     LocationHotspotData.count := LocationHotspotData.count e + 1 |}.

(** The month label an issue counts for. *)
Definition monthOf `{Platform} (i : Issue) : string :=
  formatMonth (created_at i).

Definition isResolvedStatus (i : Issue) : bool :=
  (status i =? "resolved")%string.

Definition monthly_init (k : string) : MonthlyReportData.t :=
  {| MonthlyReportData.month := k; MonthlyReportData.total := 0;
     MonthlyReportData.resolved := 0 |}.

Definition monthly_upd (i : Issue) (e : MonthlyReportData.t)
  : MonthlyReportData.t :=
  {| MonthlyReportData.month := MonthlyReportData.month e;
     MonthlyReportData.total := MonthlyReportData.total e + 1;
     MonthlyReportData.resolved :=
       if isResolvedStatus i
       then MonthlyReportData.resolved e + 1
       else MonthlyReportData.resolved e |}.

Definition time_init (_ : string) : AnalyticsAlt.TimeAcc.t :=
  {| AnalyticsAlt.TimeAcc.total_time := Number 0;
     AnalyticsAlt.TimeAcc.count := 0 |}.

Definition time_upd `{Platform} (i : Issue) (e : AnalyticsAlt.TimeAcc.t)
  : AnalyticsAlt.TimeAcc.t :=
  {| AnalyticsAlt.TimeAcc.total_time :=
       (AnalyticsAlt.TimeAcc.total_time e + AnalyticsAlt.hours i)%float;
     AnalyticsAlt.TimeAcc.count := AnalyticsAlt.TimeAcc.count e + 1 |}.

(** The mean of a list of numbers as binary64 arithmetic computes it: the
    sum, added up from 0 in the order of the list and rounded at each step,
    over the number of elements. *)
Definition mean64 (l : list float) : float :=
  (fold_left PrimFloat.add l (Number 0)
   / Number (Z.of_nat (List.length l)))%float.



(** The device location has been resolved. *)
Definition located (f : ReportModal.Form) : Prop :=
  exists loc, ReportModal.location f = Some loc
              /\ ReportModal.name loc <> "Location unavailable"%string.

(** Every required text field is filled in. *)
Definition complete (f : ReportModal.Form) : Prop :=
  ReportModal.title f <> ""%string /\ ReportModal.category f <> ""%string
  /\ ReportModal.description f <> ""%string
  /\ ReportModal.streetAddress f <> ""%string
  /\ ReportModal.landmark f <> ""%string.

(** The effects of the three rejections. *)
Definition locationRequired : list ReportModal.Effect :=
  [ReportModal.preventDefault;
   ReportModal.destructive "Location Required"
     "Please enable location access and try again."].

Definition photoRequired : list ReportModal.Effect :=
  [ReportModal.preventDefault;
   ReportModal.destructive "Photo Required"
     "Please upload a photo of the issue."].

Definition missingInformation : list ReportModal.Effect :=
  [ReportModal.preventDefault;
   ReportModal.destructive "Missing Information"
     "Please fill in all required fields."].


(** ** Vocabulary of the further properties *)

(** The number by which the sort step orders, smallest first, for each sort
    key. *)
Definition sortKey `{Platform} (sortBy : string) (r : Issue) : Z :=
  if (sortBy =? "popular")%string then - or0 (upvotes_count r)
  else if (sortBy =? "priority")%string then - or0 (priority_score r)
  else if (sortBy =? "oldest")%string then Date_getTime (created_at r)
  else - Date_getTime (created_at r).

(** The order in which the own keys of an object are listed: array indices
    before the other keys, and by ascending index among themselves. *)
Definition keyOrder (k k' : string) : Prop :=
  match array_index k, array_index k' with
  | Some n, Some n' => n <= n'
  | Some _, None => True
  | None, Some _ => False
  | None, None => True
  end.

(** An export effect that writes a file. *)
Definition writes_file (e : ViewReportsPage.Effect) : bool :=
  match e with
  | ViewReportsPage.XLSX_writeFile _ _ _ => true
  | ViewReportsPage.toast _ => false
  end.

(** The empty bucket and the bucket update of the two category counts. *)
Definition category_init (k : string) : Analytics.CategoryDistributionData.t :=
  {| Analytics.CategoryDistributionData.name := k;
     Analytics.CategoryDistributionData.count := 0;
     Analytics.CategoryDistributionData.fill := "" |}.

Definition category_upd (_ : Issue) (e : Analytics.CategoryDistributionData.t)
  : Analytics.CategoryDistributionData.t :=
  {| Analytics.CategoryDistributionData.name :=
       Analytics.CategoryDistributionData.name e;
     Analytics.CategoryDistributionData.count :=
       Analytics.CategoryDistributionData.count e + 1;
     Analytics.CategoryDistributionData.fill :=
       Analytics.CategoryDistributionData.fill e |}.

Definition categoryAlt_init (k : string)
  : AnalyticsAlt.CategoryDistributionData.t :=
  {| AnalyticsAlt.CategoryDistributionData.category := k;
     AnalyticsAlt.CategoryDistributionData.count := 0 |}.

Definition categoryAlt_upd (_ : Issue)
           (e : AnalyticsAlt.CategoryDistributionData.t)
  : AnalyticsAlt.CategoryDistributionData.t :=
  {| AnalyticsAlt.CategoryDistributionData.category :=
       AnalyticsAlt.CategoryDistributionData.category e;
     AnalyticsAlt.CategoryDistributionData.count :=
       AnalyticsAlt.CategoryDistributionData.count e + 1 |}.

(** A string with a dot in it. *)
Fixpoint hasDot (s : string) : bool :=
  match s with
  | EmptyString => false
  | String c s' => Ascii.eqb c "."%char || hasDot s'
  end.

(** A submission that passes validation and whose upload and insert both
    succeed. *)
Definition succeeds (w : ReportModal.World) (f : ReportModal.Form) : Prop :=
  located f /\ ReportModal.photo f <> None /\ complete f
  /\ ReportModal.uploadError w = false /\ ReportModal.insertError w = false.

(** An error notification among the effects of a submission. *)
Definition is_error_toast (e : ReportModal.Effect) : bool :=
  match e with
  | ReportModal.toast t => toast_destructive t
  | _ => false
  end.

Definition is_insert (e : ReportModal.Effect) : bool :=
  match e with
  | ReportModal.issues_insert _ => true
  | _ => false
  end.

(** A login the backend accepts as an administrator's, with the storage
    open to write the mirrors. *)
Definition granted (srv : AdminAuth.Server) (x : AdminAuth.Session) : Prop :=
  AdminAuth.authError srv = None /\ AdminAuth.user srv = true
  /\ AdminAuth.rpcError srv = None /\ AdminAuth.isAdmin srv = true
  /\ LocalStorage.refused (AdminAuth.storage x) = None.

Definition is_toast_error (e : AuthEvent) : bool :=
  match e with
  | toast_error _ _ => true
  | _ => false
  end.

Definition is_toast_success (e : AuthEvent) : bool :=
  match e with
  | toast_success _ _ => true
  | _ => false
  end.

(** * Properties *)

(** ** Objects used as dictionaries *)

Section JsObjectFacts.
Context {V : Type}.
Implicit Types (o : obj V) (k : string) (v : V).

Lemma get_replace o k v k' :
  get (replace o k v) k' =
  if (k =? k')%string then option_map (fun _ => v) (get o k) else get o k'.
Proof.
  induction o as [|[k0 v0] o IH]; simpl.
  - destruct (k =? k')%string; reflexivity.
  - destruct (String.eqb_spec k0 k) as [->|Hk0]; simpl.
    + destruct (String.eqb_spec k k'); reflexivity.
    + rewrite IH. destruct (String.eqb_spec k0 k') as [->|]; [|reflexivity].
      destruct (String.eqb_spec k k'); congruence.
Qed.

Lemma get_add o k v k' :
  get o k = None ->
  get (add o k v) k' = if (k =? k')%string then Some v else get o k'.
Proof.
  induction o as [|[k0 v0] o IH]; simpl; intros Hk.
  - reflexivity.
  - destruct (String.eqb_spec k0 k) as [->|Hk0]; [discriminate|].
    destruct (listed_before k k0); simpl.
    + reflexivity.
    + rewrite (IH Hk). destruct (String.eqb_spec k0 k') as [->|]; [|reflexivity].
      destruct (String.eqb_spec k k'); congruence.
Qed.

Lemma get_set o k v k' :
  get (set o k v) k' = if (k =? k')%string then Some v else get o k'.
Proof.
  unfold set. destruct (get o k) eqn:E.
  - rewrite get_replace, E. reflexivity.
  - apply get_add. exact E.
Qed.

Lemma get_ensure o k v k' :
  get (ensure o k v) k' =
  if (k =? k')%string
  then match get o k with
       | Some v0 => Some v0
       | None => if inherited k then None else Some v
       end
  else get o k'.
Proof.
  unfold ensure. destruct (get o k) eqn:E.
  - destruct (String.eqb_spec k k'); congruence.
  - destruct (inherited k).
    + destruct (String.eqb_spec k k'); congruence.
    + apply get_set.
Qed.

Lemma get_modify o k f k' :
  get (modify o k f) k' =
  if (k =? k')%string then option_map f (get o k) else get o k'.
Proof.
  unfold modify. destruct (get o k) eqn:E.
  - rewrite get_set. reflexivity.
  - destruct (String.eqb_spec k k'); [subst; rewrite E|]; reflexivity.
Qed.

Lemma get_None_keys o k : get o k = None <-> ~ In k (Object_keys o).
Proof.
  induction o as [|[k0 v0] o IH]; simpl.
  - tauto.
  - destruct (String.eqb_spec k0 k); [subst|].
    + split; [discriminate | tauto].
    + rewrite IH. tauto.
Qed.

Lemma keys_replace o k v : Object_keys (replace o k v) = Object_keys o.
Proof.
  induction o as [|[k0 v0] o IH]; simpl; [reflexivity|].
  destruct (k0 =? k)%string; simpl; [reflexivity|].
  rewrite IH. reflexivity.
Qed.

Lemma In_keys_add o k v k' :
  In k' (Object_keys (add o k v)) <-> k' = k \/ In k' (Object_keys o).
Proof.
  induction o as [|[k0 v0] o IH]; simpl.
  - intuition congruence.
  - destruct (listed_before k k0); simpl.
    + intuition congruence.
    + rewrite IH. intuition congruence.
Qed.

Lemma NoDup_keys_add o k v :
  get o k = None ->
  NoDup (Object_keys o) -> NoDup (Object_keys (add o k v)).
Proof.
  intros Hk. apply get_None_keys in Hk.
  induction o as [|[k0 v0] o IH]; simpl in *; intros Hnd.
  - constructor; [tauto | constructor].
  - destruct (listed_before k k0); simpl.
    + constructor; [exact Hk | exact Hnd].
    + inversion Hnd as [|? ? Hnotin Hnd']; subst. constructor.
      * rewrite In_keys_add. intros [->|Hin]; tauto.
      * apply IH; tauto.
Qed.

(** A key that is not an array index is added last. *)
Lemma keys_add_last o k v :
  array_index k = None ->
  Object_keys (add o k v) = (Object_keys o ++ [k])%list.
Proof.
  intros Hk. induction o as [|[k0 v0] o IH]; simpl; [reflexivity|].
  unfold listed_before. rewrite Hk. simpl. rewrite IH. reflexivity.
Qed.

(** Among the keys that are not array indices, a new key comes last. *)
Lemma keys_add_rest o k v :
  filter (fun k' => negb (isArrayIndex k')) (Object_keys (add o k v))
  = (filter (fun k' => negb (isArrayIndex k')) (Object_keys o)
     ++ if isArrayIndex k then [] else [k])%list.
Proof.
  induction o as [|[k0 v0] o IH]; simpl.
  - destruct (isArrayIndex k); reflexivity.
  - destruct (listed_before k k0) eqn:E; simpl.
    + assert (Hk : isArrayIndex k = true).
      { unfold listed_before, isArrayIndex in *.
        destruct (array_index k); [reflexivity | discriminate]. }
      rewrite Hk. simpl. rewrite app_nil_r. reflexivity.
    + rewrite IH. destruct (isArrayIndex k0); reflexivity.
Qed.

Lemma keyOrder_trans k1 k2 k3 :
  keyOrder k1 k2 -> keyOrder k2 k3 -> keyOrder k1 k3.
Proof.
  unfold keyOrder.
  destruct (array_index k1), (array_index k2), (array_index k3);
    try tauto; lia.
Qed.

(** A new key takes its place in the listing. *)
Lemma keys_add_sorted o k v :
  StronglySorted keyOrder (Object_keys o) ->
  StronglySorted keyOrder (Object_keys (add o k v)).
Proof.
  induction o as [|[k0 v0] o IH]; simpl; intros Hs.
  - constructor; constructor.
  - inversion Hs as [|? ? Hs' Hall]; subst.
    destruct (listed_before k k0) eqn:E; simpl.
    + assert (Hk : keyOrder k k0).
      { unfold listed_before, keyOrder in *.
        destruct (array_index k), (array_index k0); try discriminate;
          [apply Z.ltb_lt in E; lia | exact I]. }
      constructor; [exact Hs|]. constructor; [exact Hk|].
      eapply Forall_impl; [|exact Hall]. intros k'. apply keyOrder_trans.
      exact Hk.
    + constructor; [apply IH; exact Hs'|].
      apply Forall_forall. intros k' Hk'. apply In_keys_add in Hk'.
      destruct Hk' as [->|Hk'].
      * unfold listed_before, keyOrder in *.
        destruct (array_index k), (array_index k0); try discriminate;
          [apply Z.ltb_ge in E; lia | exact I | exact I].
      * rewrite Forall_forall in Hall. apply Hall. exact Hk'.
Qed.

Lemma keys_modify o k f : Object_keys (modify o k f) = Object_keys o.
Proof.
  unfold modify. destruct (get o k) eqn:E; [|reflexivity].
  unfold set. rewrite E. apply keys_replace.
Qed.

Lemma keys_ensure o k v :
  Object_keys (ensure o k v) =
  match get o k with
  | Some _ => Object_keys o
  | None => if inherited k then Object_keys o else Object_keys (add o k v)
  end.
Proof.
  unfold ensure, set. destruct (get o k) eqn:E; [reflexivity|].
  destruct (inherited k); reflexivity.
Qed.

Lemma NoDup_keys_ensure o k v :
  NoDup (Object_keys o) -> NoDup (Object_keys (ensure o k v)).
Proof.
  intros Hnd. rewrite keys_ensure. destruct (get o k) eqn:E; [assumption|].
  destruct (inherited k); [assumption|]. apply NoDup_keys_add; assumption.
Qed.

(** A lookup that succeeds finds one of the values. *)
Lemma get_Some_In o k v : get o k = Some v -> In (k, v) o.
Proof.
  induction o as [|[k0 v0] o IH]; simpl; [discriminate|].
  destruct (String.eqb_spec k0 k); [intros [= ->]; subst; auto | auto].
Qed.

(** With distinct keys, every stored pair is what a lookup finds. *)
Lemma In_get_Some o k v :
  NoDup (Object_keys o) -> In (k, v) o -> get o k = Some v.
Proof.
  induction o as [|[k0 v0] o IH]; simpl; [tauto|].
  intros Hnd [[= -> ->]|Hin].
  - rewrite String.eqb_refl. reflexivity.
  - inversion Hnd as [|? ? Hnotin Hnd']; subst.
    destruct (String.eqb_spec k0 k) as [->|].
    + exfalso. apply Hnotin. apply (in_map fst) in Hin. exact Hin.
    + apply IH; assumption.
Qed.

Lemma replace_replace o k v v' :
  replace (replace o k v) k v' = replace o k v'.
Proof.
  induction o as [|[k0 v0] o IH]; simpl; [reflexivity|].
  destruct (String.eqb_spec k0 k) as [->|Hk]; simpl.
  - rewrite String.eqb_refl. reflexivity.
  - destruct (String.eqb_spec k0 k); [contradiction|]. rewrite IH.
    reflexivity.
Qed.

Lemma replace_add o k v v' :
  get o k = None -> replace (add o k v) k v' = add o k v'.
Proof.
  induction o as [|[k0 v0] o IH]; simpl; intros Hk.
  - rewrite String.eqb_refl. reflexivity.
  - destruct (String.eqb_spec k0 k) as [->|Hk0]; [discriminate|].
    destruct (listed_before k k0); simpl.
    + rewrite String.eqb_refl. reflexivity.
    + destruct (String.eqb_spec k0 k); [contradiction|].
      rewrite (IH Hk). reflexivity.
Qed.

Lemma set_set o k v v' : set (set o k v) k v' = set o k v'.
Proof.
  unfold set at 1. rewrite get_set, String.eqb_refl.
  unfold set. destruct (get o k) eqn:E.
  - apply replace_replace.
  - apply replace_add. exact E.
Qed.

Lemma modify_modify o k (f g : V -> V) :
  modify (modify o k f) k g = modify o k (fun v => g (f v)).
Proof.
  unfold modify. destruct (get o k) eqn:E.
  - rewrite get_set, String.eqb_refl, set_set. reflexivity.
  - rewrite E. reflexivity.
Qed.

Section Sums.
Variable g : V -> Z.

Local Abbreviation tot := (total_of g).

Lemma total_of_replace o k v :
  tot (replace o k v) =
  tot o + match get o k with Some v0 => g v - g v0 | None => 0 end.
Proof.
  unfold total_of, Object_values. induction o as [|[k0 v0] o IH]; simpl; [lia|].
  destruct (String.eqb_spec k0 k); simpl; [lia|].
  rewrite IH. lia.
Qed.

Lemma total_of_add o k v : tot (add o k v) = tot o + g v.
Proof.
  unfold total_of, Object_values. induction o as [|[k0 v0] o IH]; simpl; [lia|].
  destruct (listed_before k k0); simpl; [lia|].
  rewrite IH. lia.
Qed.

Lemma total_of_set o k v :
  tot (set o k v) =
  tot o - match get o k with Some v0 => g v0 | None => 0 end + g v.
Proof.
  unfold set. destruct (get o k) eqn:E.
  - rewrite total_of_replace, E. lia.
  - rewrite total_of_add. lia.
Qed.

Lemma total_of_ensure o k v :
  tot (ensure o k v) =
  tot o + match get o k with
          | Some _ => 0
          | None => if inherited k then 0 else g v
          end.
Proof.
  unfold ensure. destruct (get o k) eqn:E; [lia|].
  destruct (inherited k); [lia|].
  rewrite total_of_set, E. lia.
Qed.

Lemma total_of_modify o k f :
  tot (modify o k f) =
  tot o + match get o k with Some v => g (f v) - g v | None => 0 end.
Proof.
  unfold modify. destruct (get o k) eqn:E; [|lia].
  rewrite total_of_set, E. lia.
Qed.

End Sums.

End JsObjectFacts.

(** ** Grouping folds *)

Lemma countZ_snoc {A : Type} (p : A -> bool) (l : list A) (x : A) :
  countZ p (l ++ [x]) = countZ p l + if p x then 1 else 0.
Proof.
  unfold countZ. rewrite filter_app, length_app. simpl.
  destruct (p x); simpl; lia.
Qed.

Lemma sumZ_snoc (l : list Z) (x : Z) : sumZ (l ++ [x]) = sumZ l + x.
Proof. induction l as [|y l IH]; simpl; lia. Qed.

Section GroupingFacts.
Context {A V : Type}.
Variable key : A -> string.
Variable init : string -> V.
Variable upd : A -> V -> V.

Local Abbreviation step := (group_step key init upd).
Local Abbreviation grp := (group key init upd).
Local Abbreviation mem := (members key).
Local Abbreviation bkt := (bucket_of init upd).

Lemma get_group_step acc x k :
  get (step acc x) k =
  if (key x =? k)%string
  then match get acc (key x) with
       | Some v => Some (upd x v)
       | None =>
           if inherited (key x) then None else Some (upd x (init (key x)))
       end
  else get acc k.
Proof.
  unfold group_step. rewrite get_modify, get_ensure, String.eqb_refl.
  destruct (String.eqb_spec (key x) k).
  - destruct (get acc (key x)); [reflexivity|].
    destruct (inherited (key x)); reflexivity.
  - rewrite get_ensure. destruct (String.eqb_spec (key x) k); congruence.
Qed.

Lemma fold_group_snoc l x :
  grp (l ++ [x]) = step (grp l) x.
Proof. unfold group. rewrite fold_left_app. reflexivity. Qed.

Lemma members_snoc k l x :
  mem k (l ++ [x]) =
  (mem k l ++ if (key x =? k)%string then [x] else [])%list.
Proof. unfold members. rewrite filter_app. reflexivity. Qed.

(** What a bucket holds: nothing when the key names an inherited member or
    has no member of its own, and otherwise the updates of its members
    applied in input order. *)
Lemma get_group l k :
  get (grp l) k =
  if inherited k then None
  else match mem k l with
       | [] => None
       | g => Some (bkt k g)
       end.
Proof.
  induction l as [|x l IH] using rev_ind.
  - destruct (inherited k); reflexivity.
  - rewrite fold_group_snoc, get_group_step, members_snoc.
    destruct (String.eqb_spec (key x) k) as [Hk|Hk].
    + rewrite Hk, IH. destruct (inherited k); [reflexivity|].
      unfold bucket_of.
      destruct (mem k l) as [|y g] eqn:E; [reflexivity|].
      simpl. rewrite fold_left_app. reflexivity.
    + rewrite app_nil_r. exact IH.
Qed.

Lemma keys_group_step acc x :
  Object_keys (step acc x) =
  match get acc (key x) with
  | Some _ => Object_keys acc
  | None =>
      if inherited (key x) then Object_keys acc
      else Object_keys (add acc (key x) (init (key x)))
  end.
Proof. unfold group_step. rewrite keys_modify. apply keys_ensure. Qed.

Lemma NoDup_keys_group l : NoDup (Object_keys (grp l)).
Proof.
  induction l as [|x l IH] using rev_ind; [constructor|].
  rewrite fold_group_snoc. unfold group_step. rewrite keys_modify.
  apply NoDup_keys_ensure. exact IH.
Qed.

(** A key is emitted exactly when some input element has it and it does not
    name an inherited member. *)
Lemma In_keys_group l k :
  In k (Object_keys (grp l)) <->
  inherited k = false /\ exists x, In x l /\ key x = k.
Proof.
  split.
  - intros Hin. destruct (get (grp l) k) eqn:E.
    + rewrite get_group in E.
      destruct (inherited k); [discriminate|]. split; [reflexivity|].
      destruct (mem k l) as [|x g] eqn:Em; [discriminate|].
      assert (Hx : In x (mem k l)) by (rewrite Em; left; reflexivity).
      apply filter_In in Hx. destruct Hx as [Hx Hk].
      exists x. split; [assumption |]. apply String.eqb_eq. exact Hk.
    + apply get_None_keys in E. contradiction.
  - intros (Hinh & x & Hx & Hk).
    destruct (in_dec string_dec k (Object_keys (grp l))) as [|Hn];
      [assumption|].
    apply get_None_keys in Hn. rewrite get_group, Hinh in Hn.
    assert (Hm : In x (mem k l)).
    { apply filter_In. split; [assumption|]. apply String.eqb_eq. exact Hk. }
    destruct (mem k l); [contradiction | discriminate].
Qed.

(** When every update adds a weight to a measure that starts at zero, the
    measure summed over all buckets is the sum of the weights of the
    elements that have a bucket. *)
Lemma total_of_group_weighted (g : V -> Z) (w : A -> Z) l :
  (forall k, g (init k) = 0) ->
  (forall x v, g (upd x v) = g v + w x) ->
  total_of g (grp l)
  = sumZ (map (fun x => if inherited (key x) then 0 else w x) l).
Proof.
  intros Hinit Hupd.
  induction l as [|x l IH] using rev_ind; [reflexivity|].
  rewrite fold_group_snoc, map_app. simpl map. rewrite sumZ_snoc.
  unfold group_step.
  rewrite total_of_modify, total_of_ensure, get_ensure.
  rewrite String.eqb_refl, IH.
  destruct (get (grp l) (key x)) eqn:E.
  - rewrite Hupd. rewrite get_group in E.
    destruct (inherited (key x)); [discriminate|]. lia.
  - destruct (inherited (key x)); [lia|]. rewrite Hupd, Hinit. lia.
Qed.

(** When every update adds one to a measure that starts at zero, the measure
    summed over all buckets is the number of input elements that have a
    bucket. *)
Lemma total_of_group (g : V -> Z) l :
  (forall k, g (init k) = 0) ->
  (forall x v, g (upd x v) = g v + 1) ->
  total_of g (grp l) = countZ (fun x => negb (inherited (key x))) l.
Proof.
  intros Hinit Hupd.
  rewrite (total_of_group_weighted g (fun _ => 1) l Hinit Hupd).
  induction l as [|x l IH] using rev_ind; [reflexivity|].
  rewrite map_app. simpl map. rewrite sumZ_snoc, countZ_snoc, IH.
  destruct (inherited (key x)); reflexivity.
Qed.

(** When no key names an inherited member, every element is counted. *)
Lemma total_of_group_weighted_own (g : V -> Z) (w : A -> Z) l :
  (forall k, g (init k) = 0) ->
  (forall x v, g (upd x v) = g v + w x) ->
  (forall x, In x l -> inherited (key x) = false) ->
  total_of g (grp l) = sumZ (map w l).
Proof.
  intros Hinit Hupd Hown.
  rewrite (total_of_group_weighted g w l Hinit Hupd). f_equal.
  apply map_ext_in. intros x Hx. rewrite (Hown x Hx). reflexivity.
Qed.

Lemma total_of_group_own (g : V -> Z) l :
  (forall k, g (init k) = 0) ->
  (forall x v, g (upd x v) = g v + 1) ->
  (forall x, In x l -> inherited (key x) = false) ->
  total_of g (grp l) = Z.of_nat (List.length l).
Proof.
  intros Hinit Hupd Hown.
  rewrite (total_of_group_weighted_own g (fun _ => 1) l Hinit Hupd Hown).
  clear. induction l as [|x l IH]; [reflexivity|].
  cbn [map List.length]. rewrite Nat2Z.inj_succ, <- IH.
  change (sumZ (1 :: map (fun _ : A => 1) l))
    with (1 + sumZ (map (fun _ : A => 1) l)).
  lia.
Qed.

(** The keys are listed with the array indices first, in ascending order. *)
Lemma keys_group_sorted l : StronglySorted keyOrder (Object_keys (grp l)).
Proof.
  induction l as [|x l IH] using rev_ind; [constructor|].
  rewrite fold_group_snoc, keys_group_step.
  destruct (get (grp l) (key x)); [exact IH|].
  destruct (inherited (key x)); [exact IH|].
  apply keys_add_sorted. exact IH.
Qed.

End GroupingFacts.


(** ** Sorting *)

Lemma StronglySorted_impl {A : Type} (R S : A -> A -> Prop) (l : list A) :
  (forall a b, R a b -> S a b) -> StronglySorted R l -> StronglySorted S l.
Proof.
  intros HRS. induction 1 as [|a l Hs IH Hall]; constructor.
  - exact IH.
  - eapply Forall_impl; [|exact Hall]. intros b. apply HRS.
Qed.

Section ArraySortFacts.
Context {A : Type}.
Variable compareFn : A -> A -> Z.
Variable key : A -> Z.
Hypothesis compare_key : forall a b, compareFn a b <= 0 <-> key a <= key b.

Local Abbreviation le_key := (fun a b => key a <= key b).
Local Abbreviation has_key := (fun v x => key x =? v).

Lemma sort_insert_perm x l : Permutation (x :: l) (sort_insert compareFn x l).
Proof.
  induction l as [|y l IH]; simpl; [reflexivity|].
  destruct (compareFn x y <=? 0); [reflexivity|].
  rewrite perm_swap. constructor. exact IH.
Qed.

Lemma Array_sort_perm l : Permutation l (Array_sort compareFn l).
Proof.
  induction l as [|x l IH]; simpl; [constructor|].
  rewrite <- sort_insert_perm. constructor. exact IH.
Qed.

Lemma sort_insert_sorted x l :
  StronglySorted le_key l -> StronglySorted le_key (sort_insert compareFn x l).
Proof.
  induction 1 as [|y l Hs IH Hall]; simpl.
  - repeat constructor.
  - destruct (Z.leb_spec (compareFn x y) 0) as [Hle|Hgt].
    + apply compare_key in Hle. constructor.
      * constructor; assumption.
      * constructor; [assumption|].
        eapply Forall_impl; [|exact Hall]. simpl. intros; lia.
    + assert (Hyx : key y <= key x).
      { destruct (Z.le_gt_cases (key x) (key y)) as [Hc|Hc]; [|lia].
        apply compare_key in Hc. lia. }
      constructor; [exact IH|].
      rewrite <- sort_insert_perm. constructor; assumption.
Qed.

Lemma Array_sort_sorted l : StronglySorted le_key (Array_sort compareFn l).
Proof.
  induction l as [|x l IH]; simpl; [constructor|].
  apply sort_insert_sorted. exact IH.
Qed.

Lemma filter_sort_insert v x l :
  filter (has_key v) (sort_insert compareFn x l) = filter (has_key v) (x :: l).
Proof.
  induction l as [|y l IH]; [reflexivity|].
  simpl sort_insert. destruct (Z.leb_spec (compareFn x y) 0) as [Hle|Hgt];
    [reflexivity|].
  assert (Hyx : key y < key x).
  { destruct (Z.lt_ge_cases (key y) (key x)) as [Hc|Hc]; [assumption|].
    apply compare_key in Hc. lia. }
  simpl in *. rewrite IH.
  destruct (Z.eqb_spec (key x) v), (Z.eqb_spec (key y) v);
    try reflexivity; lia.
Qed.

Lemma Array_sort_stable l : StableBy key l (Array_sort compareFn l).
Proof.
  intros v. induction l as [|x l IH]; [reflexivity|].
  simpl Array_sort. rewrite filter_sort_insert. simpl. rewrite IH.
  reflexivity.
Qed.

(** Two lists in key order that keep the elements of each key in the same
    sequence are the same list. *)
Lemma sorted_stable_unique l1 l2 :
  StronglySorted le_key l1 -> StronglySorted le_key l2 ->
  (forall v, filter (has_key v) l1 = filter (has_key v) l2) ->
  l1 = l2.
Proof.
  intros H1. revert l2.
  induction H1 as [|a l1 Hs1 IH Ha]; intros l2 H2 Hf.
  - destruct l2 as [|b l2]; [reflexivity|].
    specialize (Hf (key b)). simpl in Hf. rewrite Z.eqb_refl in Hf.
    discriminate.
  - destruct H2 as [|b l2 Hs2 Hb].
    + specialize (Hf (key a)). simpl in Hf. rewrite Z.eqb_refl in Hf.
      discriminate.
    + assert (Hab : key a <= key b).
      { pose proof (Hf (key b)) as E. simpl in E.
        rewrite Z.eqb_refl in E.
        destruct (Z.eqb_spec (key a) (key b)) as [->|]; [lia|].
        assert (Hin : In b (filter (has_key (key b)) l1))
          by (rewrite E; left; reflexivity).
        apply filter_In in Hin. rewrite Forall_forall in Ha.
        apply Ha. tauto. }
      assert (Hba : key b <= key a).
      { pose proof (Hf (key a)) as E. simpl in E.
        rewrite Z.eqb_refl in E.
        destruct (Z.eqb_spec (key b) (key a)) as [->|]; [lia|].
        assert (Hin : In a (filter (has_key (key a)) l2))
          by (rewrite <- E; left; reflexivity).
        apply filter_In in Hin. rewrite Forall_forall in Hb.
        apply Hb. tauto. }
      assert (Heq : a = b).
      { pose proof (Hf (key a)) as E. simpl in E.
        rewrite Z.eqb_refl in E.
        replace (key b =? key a) with true in E
          by (symmetry; apply Z.eqb_eq; lia).
        congruence. }
      subst b. f_equal. apply IH; [assumption|].
      intros v. specialize (Hf v). simpl in Hf.
      destruct (key a =? v); congruence.
Qed.

(** [Array_sort] is the only stable sort: whatever algorithm the platform
    runs, a result in key order that keeps equal keys in input order is the
    list computed here. *)
Lemma Array_sort_unique l out :
  StronglySorted le_key out -> StableBy key l out ->
  out = Array_sort compareFn l.
Proof.
  intros Hs Hst. apply sorted_stable_unique;
    [assumption | apply Array_sort_sorted |].
  intros v. rewrite (Hst v). symmetry. apply Array_sort_stable.
Qed.

End ArraySortFacts.


(** ** Strings *)

Lemma startsWith_spec s t :
  startsWith s t = true <-> exists b, s = (t ++ b)%string.
Proof.
  revert s. induction t as [|c t IH]; intros s.
  - split; [exists s; reflexivity | destruct s; reflexivity].
  - destruct s as [|a s]; simpl.
    + split; [discriminate | intros [b Hb]; discriminate].
    + rewrite andb_true_iff, IH. split.
      * intros [Hac [b ->]]. apply Ascii.eqb_eq in Hac. subst.
        exists b. reflexivity.
      * intros [b [= -> ->]]. split; [apply Ascii.eqb_refl | eauto].
Qed.

(** [includes] decides the substring relation. *)
Lemma includes_spec s t : includes s t = true <-> Substring t s.
Proof.
  unfold Substring. induction s as [|c s IH].
  - cbn [includes]. rewrite orb_false_r, startsWith_spec. split.
    + intros [b Hb]. exists ""%string, b. exact Hb.
    + intros (a & b & Hab). destruct a; [|discriminate]. eauto.
  - cbn [includes]. rewrite orb_true_iff, startsWith_spec, IH. split.
    + intros [[b Hb]|(a & b & Hab)].
      * exists ""%string, b. exact Hb.
      * exists (String c a), b. simpl. rewrite Hab. reflexivity.
    + intros (a & b & Hab). destruct a as [|c' a]; simpl in Hab.
      * left. eauto.
      * right. injection Hab as _ Hab. eauto.
Qed.

Lemma includes_empty s : includes s "" = true.
Proof. apply includes_spec. exists ""%string, s. reflexivity. Qed.

Lemma string_app_assoc (a b c : string) :
  ((a ++ b) ++ c = a ++ (b ++ c))%string.
Proof.
  induction a as [|x a IH]; [reflexivity|]. simpl. rewrite IH. reflexivity.
Qed.

Lemma Substring_trans (t t' s : string) :
  Substring t t' -> Substring t' s -> Substring t s.
Proof.
  intros (a & b & ->) (a' & b' & ->).
  exists (a' ++ a)%string, (b ++ b')%string.
  rewrite !string_app_assoc. reflexivity.
Qed.

(** ** Letter case *)

Lemma isAscii_app (a b : string) :
  isAscii (a ++ b) = isAscii a && isAscii b.
Proof.
  induction a as [|c a IH]; [reflexivity|].
  simpl. rewrite IH. apply andb_assoc.
Qed.

Lemma asciiLowerCase_app (a b : string) :
  asciiLowerCase (a ++ b) = (asciiLowerCase a ++ asciiLowerCase b)%string.
Proof.
  induction a as [|c a IH]; [reflexivity|]. simpl. rewrite IH. reflexivity.
Qed.

(** The lower-case form of a string splits where the string does. *)
Lemma asciiLowerCase_split (s x y : string) :
  asciiLowerCase s = (x ++ y)%string ->
  exists a b, s = (a ++ b)%string
              /\ asciiLowerCase a = x /\ asciiLowerCase b = y.
Proof.
  revert s. induction x as [|c x IH]; intros s E.
  - exists ""%string, s. auto.
  - destruct s as [|d s]; [discriminate E|].
    simpl in E. injection E as Ed E.
    destruct (IH s E) as (a & b & -> & Ha & Hb).
    exists (String d a), b. simpl. rewrite Ed, Ha. auto.
Qed.

Lemma In_all_ascii (a : ascii) : In a (map ascii_of_nat (seq 0 256)).
Proof.
  rewrite <- (ascii_nat_embedding a). apply in_map. apply in_seq.
  pose proof (nat_ascii_bounded a). lia.
Qed.

(** Two characters are the same letter exactly when they have the same
    lower-case form. *)
Lemma sameLetter_spec (a b : ascii) :
  sameLetter a b = Ascii.eqb (lower_ascii a) (lower_ascii b).
Proof.
  assert (H : forallb
                (fun a =>
                   forallb
                     (fun b => Bool.eqb (sameLetter a b)
                                        (Ascii.eqb (lower_ascii a)
                                                   (lower_ascii b)))
                     (map ascii_of_nat (seq 0 256)))
                (map ascii_of_nat (seq 0 256)) = true)
    by (vm_compute; reflexivity).
  rewrite forallb_forall in H. specialize (H a (In_all_ascii a)).
  rewrite forallb_forall in H. specialize (H b (In_all_ascii b)).
  apply eqb_prop in H. exact H.
Qed.

Lemma sameLetters_spec (s t : string) :
  sameLetters s t = true <-> asciiLowerCase s = asciiLowerCase t.
Proof.
  revert t. induction s as [|a s IH]; intros [|b t]; simpl;
    try (split; [reflexivity | reflexivity]);
    try (split; discriminate).
  rewrite andb_true_iff, sameLetter_spec, Ascii.eqb_eq, IH. split.
  - intros [-> ->]. reflexivity.
  - intros [= -> ->]. auto.
Qed.

Section LetterCaseFacts.
Context `{Platform}.

Lemma toLowerCase_empty : toLowerCase "" = ""%string.
Proof. rewrite toLowerCase_ascii; reflexivity. Qed.

(** On ASCII text, a string occurs in another with letter case ignored
    exactly when some stretch of the other is the string up to the case of
    its letters. *)
Lemma SubstringNoCase_ascii (t s : string) :
  isAscii t = true -> isAscii s = true ->
  SubstringNoCase t s <->
  exists a t' b, s = (a ++ t' ++ b)%string /\ sameLetters t' t = true.
Proof.
  intros Ht Hs. unfold SubstringNoCase, Substring.
  rewrite (toLowerCase_ascii t Ht), (toLowerCase_ascii s Hs). split.
  - intros (x & y & E).
    destruct (asciiLowerCase_split _ _ _ E) as (a & r & -> & _ & Er).
    destruct (asciiLowerCase_split _ _ _ Er) as (t' & b & -> & Et & _).
    exists a, t', b. split; [reflexivity|]. apply sameLetters_spec. exact Et.
  - intros (a & t' & b & -> & Et). apply sameLetters_spec in Et.
    exists (asciiLowerCase a), (asciiLowerCase b).
    rewrite !asciiLowerCase_app, Et. reflexivity.
Qed.

(** A search text that is ASCII and contains another is found only where
    the other is. *)
Lemma SubstringNoCase_narrows (before t after s : string) :
  isAscii before = true -> isAscii t = true -> isAscii after = true ->
  SubstringNoCase (before ++ t ++ after) s -> SubstringNoCase t s.
Proof.
  intros Hb Ht Ha. unfold SubstringNoCase.
  rewrite (toLowerCase_ascii t Ht), (toLowerCase_ascii (before ++ t ++ after))
    by (rewrite !isAscii_app, Hb, Ht, Ha; reflexivity).
  apply Substring_trans.
  exists (asciiLowerCase before), (asciiLowerCase after).
  rewrite !asciiLowerCase_app. reflexivity.
Qed.

End LetterCaseFacts.

(** ** The reports feed *)

Section ViewReportsFacts.
Context `{Platform}.
Import ViewReports.

Lemma matchesSearch_spec searchTerm r :
  matchesSearch searchTerm r = true <->
  SubstringNoCase searchTerm (title r)
  \/ SubstringNoCase searchTerm (description r)
  \/ exists n, location_name r = Some n /\ SubstringNoCase searchTerm n.
Proof.
  unfold matchesSearch, SubstringNoCase.
  rewrite !orb_true_iff, !includes_spec, or_assoc.
  destruct (location_name r) as [n|].
  - rewrite includes_spec. split.
    + intros [?|[?|?]]; eauto.
    + intros [?|[?|(n' & [= <-] & ?)]]; auto.
  - split.
    + intros [?|[?|?]]; auto. discriminate.
    + intros [?|[?|(n' & ? & ?)]]; auto. discriminate.
Qed.

Lemma matchesStatus_spec statusFilter r :
  matchesStatus statusFilter r = true <->
  statusFilter = "all"%string \/ status r = statusFilter.
Proof.
  unfold matchesStatus. rewrite orb_true_iff, !String.eqb_eq. reflexivity.
Qed.

Lemma matchesCategory_spec categoryFilter r :
  matchesCategory categoryFilter r = true <->
  categoryFilter = "all"%string \/ category r = categoryFilter.
Proof.
  unfold matchesCategory. rewrite orb_true_iff, !String.eqb_eq. reflexivity.
Qed.

Lemma In_sorted sortBy l r : In r (sorted sortBy l) <-> In r l.
Proof.
  unfold sorted. split; apply Permutation_in;
    [symmetry|]; apply Array_sort_perm.
Qed.

Lemma filtered_all reports : filtered reports "" "all" "all" = reports.
Proof.
  unfold filtered. induction reports as [|r l IH]; [reflexivity|].
  simpl filter. rewrite IH.
  unfold matchesSearch, matchesStatus, matchesCategory.
  rewrite toLowerCase_empty, includes_empty. reflexivity.
Qed.

End ViewReportsFacts.

(** C3. The derived projection holds exactly the issues of the base
    collection that pass the three predicates: the search text occurs,
    letter case ignored, in the title, the description or a present
    location name (an absent one never matches); the status equals the
    status filter or the filter is "all"; the category equals the category
    filter or the filter is "all". Letter case is ignored by comparing the
    lower-case forms of the platform, so that on ASCII text the search text
    occurs in a field exactly when some stretch of the field is the search
    text up to the case of its letters. With an empty search text and both
    filters "all" the projection is a rearrangement of the whole base
    collection. *)
Theorem projection_membership `{Platform} (reports : list Issue)
        (searchTerm statusFilter categoryFilter sortBy : string) :
  (forall r,
      In r (ViewReports.filteredReports
              reports searchTerm statusFilter categoryFilter sortBy)
      <->
      In r reports
      /\ (SubstringNoCase searchTerm (title r)
          \/ SubstringNoCase searchTerm (description r)
          \/ exists n, location_name r = Some n
                       /\ SubstringNoCase searchTerm n)
      /\ (statusFilter = "all"%string \/ status r = statusFilter)
      /\ (categoryFilter = "all"%string \/ category r = categoryFilter))
  /\ (forall t s,
        SubstringNoCase t s <->
        exists a b, toLowerCase s = (a ++ toLowerCase t ++ b)%string)
  /\ (forall t s,
        isAscii t = true -> isAscii s = true ->
        SubstringNoCase t s <->
        exists a t' b,
          s = (a ++ t' ++ b)%string /\ sameLetters t' t = true)
  /\ Permutation reports
       (ViewReports.filteredReports reports "" "all" "all" sortBy).
Proof.
  split; [|split; [|split]].
  - intros r. unfold ViewReports.filteredReports.
    rewrite In_sorted. unfold ViewReports.filtered.
    rewrite filter_In, !andb_true_iff, matchesSearch_spec,
      matchesStatus_spec, matchesCategory_spec.
    tauto.
  - intros t s. reflexivity.
  - intros t s. apply SubstringNoCase_ascii.
  - unfold ViewReports.filteredReports. rewrite filtered_all.
    apply Array_sort_perm.
Qed.

(** The search on the scenario: "POTHOLE" and "pune" find the first issue,
    the one by its title and the other by its location name, and "xyz"
    finds nothing. *)
Example search_runs :
  @ViewReports.filteredReports utcPlatform
    [Scenario.issue1; Scenario.issue2] "POTHOLE" "all" "all" "oldest"
  = [Scenario.issue1; Scenario.issue2]
  /\ @ViewReports.filteredReports utcPlatform
       [Scenario.issue1; Scenario.issue2] "pune" "all" "all" "oldest"
     = [Scenario.issue1]
  /\ @ViewReports.filteredReports utcPlatform
       [Scenario.issue1; Scenario.issue2] "xyz" "all" "all" "oldest"
     = [].
Proof. repeat split; vm_compute; reflexivity. Qed.

Lemma descending_of_opp {A : Type} (f : A -> Z) (l out : list A) :
  StronglySorted (fun a b => - f a <= - f b) out ->
  StableBy (fun x => - f x) l out ->
  StronglySorted (fun a b => f a >= f b) out /\ StableBy f l out.
Proof.
  intros Hs Hst. split.
  - eapply StronglySorted_impl; [|exact Hs]. simpl. intros; lia.
  - intros v. specialize (Hst (- v)).
    erewrite (filter_ext _ (fun x => - f x =? - v)), Hst.
    + apply filter_ext. intros x.
      destruct (Z.eqb_spec (- f x) (- v)), (Z.eqb_spec (f x) v);
        try reflexivity; lia.
    + intros x.
      destruct (Z.eqb_spec (- f x) (- v)), (Z.eqb_spec (f x) v);
        try reflexivity; lia.
Qed.

Section SortStepFacts.
Context `{Platform}.
Import ViewReports.

Lemma sorted_by_key sortBy (key : Issue -> Z) l :
  (forall a b, compareReports sortBy a b <= 0 <-> key a <= key b) ->
  StronglySorted (fun a b => key a <= key b) (sorted sortBy l)
  /\ StableBy key l (sorted sortBy l).
Proof.
  intros Hcmp. unfold sorted. split.
  - apply Array_sort_sorted. exact Hcmp.
  - apply Array_sort_stable. exact Hcmp.
Qed.

(** The comparator of a key other than the three it names apart from
    "newest" is the one of "newest". *)
Lemma compareReports_default sortBy a b :
  sortBy <> "popular"%string -> sortBy <> "priority"%string ->
  sortBy <> "oldest"%string ->
  compareReports sortBy a b =
  Date_getTime (created_at b) - Date_getTime (created_at a).
Proof.
  intros H1 H2 H3. unfold compareReports.
  destruct (String.eqb_spec sortBy "popular"); [contradiction|].
  destruct (String.eqb_spec sortBy "priority"); [contradiction|].
  destruct (String.eqb_spec sortBy "newest"); [reflexivity|].
  destruct (String.eqb_spec sortBy "oldest"); [contradiction|].
  reflexivity.
Qed.

End SortStepFacts.

(** C4. The sort step rearranges its input and orders it by the active
    key: "popular" by [upvotes_count] and "priority" by [priority_score],
    largest first, an absent number counting as 0; "oldest" by [created_at],
    earliest first; "newest" and every other key by [created_at], latest
    first. In each case elements with equal keys keep the order they had in
    the input. *)
Theorem sort_step_order `{Platform} (sortBy : string) (l : list Issue) :
  let out := ViewReports.sorted sortBy l in
  let upvotes := fun r =>
    match upvotes_count r with Some n => n | None => 0 end in
  let priority := fun r =>
    match priority_score r with Some n => n | None => 0 end in
  let created := fun r => Date_getTime (created_at r) in
  Permutation l out
  /\ (sortBy = "popular"%string ->
      StronglySorted (fun a b => upvotes a >= upvotes b) out
      /\ StableBy upvotes l out)
  /\ (sortBy = "priority"%string ->
      StronglySorted (fun a b => priority a >= priority b) out
      /\ StableBy priority l out)
  /\ (sortBy = "oldest"%string ->
      StronglySorted (fun a b => created a <= created b) out
      /\ StableBy created l out)
  /\ (sortBy <> "popular"%string -> sortBy <> "priority"%string ->
      sortBy <> "oldest"%string ->
      StronglySorted (fun a b => created a >= created b) out
      /\ StableBy created l out).
Proof.
  intros out upvotes priority created. subst out.
  split; [apply Array_sort_perm|].
  split; [|split; [|split]].
  - intros ->. apply descending_of_opp;
      apply (sorted_by_key "popular" (fun r => - upvotes r));
      intros a b; unfold ViewReports.compareReports, upvotes, or0; simpl;
      lia.
  - intros ->. apply descending_of_opp;
      apply (sorted_by_key "priority" (fun r => - priority r));
      intros a b; unfold ViewReports.compareReports, priority, or0; simpl;
      lia.
  - intros ->. apply (sorted_by_key "oldest" created).
    intros a b; unfold ViewReports.compareReports, created; simpl; lia.
  - intros H1 H2 H3. apply descending_of_opp;
      apply (sorted_by_key sortBy (fun r => - created r));
      intros a b; rewrite compareReports_default by assumption;
      unfold created; lia.
Qed.

(** The sort step on the two issues of the scenario: by upvotes the first
    issue (3) precedes the second (none, counted as 0); by priority the second
    (5) precedes the first (none); by age the order follows the dates. *)
Example sort_step_runs :
  @ViewReports.sorted utcPlatform "popular" [Scenario.issue2; Scenario.issue1]
  = [Scenario.issue1; Scenario.issue2]
  /\ @ViewReports.sorted utcPlatform "priority"
       [Scenario.issue1; Scenario.issue2]
     = [Scenario.issue2; Scenario.issue1]
  /\ @ViewReports.sorted utcPlatform "newest"
       [Scenario.issue1; Scenario.issue2]
     = [Scenario.issue2; Scenario.issue1]
  /\ @ViewReports.sorted utcPlatform "oldest"
       [Scenario.issue2; Scenario.issue1]
     = [Scenario.issue1; Scenario.issue2]
  /\ @ViewReports.sorted utcPlatform "anything else"
       [Scenario.issue1; Scenario.issue2]
     = [Scenario.issue2; Scenario.issue1].
Proof. repeat split; vm_compute; reflexivity. Qed.

(** ** The push feed *)

(** C2. A push INSERT event for a row flagged as spam leaves the reports
    unchanged and raises no notification. *)
Theorem spam_insert_ignored (payload : Gateway.Payload) (prev : list Issue) :
  Gateway.eventType payload = Gateway.INSERT ->
  is_spam (Gateway.new payload) = true ->
  ViewReports.on_postgres_changes payload prev = (prev, []).
Proof.
  intros Hev Hspam. unfold ViewReports.on_postgres_changes.
  rewrite Hev, Hspam. reflexivity.
Qed.

Lemma spam_insert_ignored_witness :
  ViewReports.on_postgres_changes
    {| Gateway.eventType := Gateway.INSERT;
       Gateway.new := with_is_spam Scenario.issue2 true |}
    [Scenario.issue1]
  = ([Scenario.issue1], []).
Proof. apply spam_insert_ignored; reflexivity. Defined.

(** An INSERT event for a row that is not spam puts the row first. *)
Lemma clean_insert_prepends (payload : Gateway.Payload) (prev : list Issue) :
  Gateway.eventType payload = Gateway.INSERT ->
  is_spam (Gateway.new payload) = false ->
  fst (ViewReports.on_postgres_changes payload prev)
  = Gateway.new payload :: prev.
Proof.
  intros Hev Hspam. unfold ViewReports.on_postgres_changes.
  rewrite Hev, Hspam. reflexivity.
Qed.

(** The initial fetch asks for rows that are not spam, and gets only
    such rows. *)
Lemma fetchReports_query_no_spam `{Platform} (table : list Issue) :
  Forall (fun r => is_spam r = false)
         (Gateway.select ViewReports.fetchReports_query table).
Proof.
  unfold Gateway.select, ViewReports.fetchReports_query. simpl.
  apply Forall_forall. intros r Hin.
  eapply Permutation_in in Hin; [|symmetry; apply Array_sort_perm].
  apply filter_In in Hin. destruct Hin as [_ Hs].
  destruct (is_spam r); [discriminate | reflexivity].
Qed.

(** X1. The reports stay free of spam as long as no UPDATE event carries a row
    flagged as spam. *)
Lemma deliver_no_spam (events : list Gateway.Payload) (prev : list Issue) :
  Forall (fun r => is_spam r = false) prev ->
  Forall (fun p => Gateway.eventType p = Gateway.UPDATE ->
                   is_spam (Gateway.new p) = false) events ->
  Forall (fun r => is_spam r = false) (ViewReports.deliver events prev).
Proof.
  intros Hprev Hev. revert prev Hprev.
  induction Hev as [|p events Hp _ IH]; intros prev Hprev; [exact Hprev|].
  unfold ViewReports.deliver in *. simpl. apply IH.
  unfold ViewReports.on_postgres_changes.
  destruct (Gateway.eventType p) eqn:Ev; simpl.
  - destruct (is_spam (Gateway.new p)) eqn:Es; simpl; [exact Hprev|].
    constructor; assumption.
  - apply Forall_forall. intros r Hin. apply in_map_iff in Hin.
    destruct Hin as (r0 & Hr & Hin0).
    destruct (id r0 =? id (Gateway.new p))%string; subst r.
    + apply Hp. reflexivity.
    + rewrite Forall_forall in Hprev. apply Hprev. exact Hin0.
  - exact Hprev.
Qed.

Lemma deliver_no_spam_witness :
  Forall (fun r => is_spam r = false)
         (ViewReports.deliver
            [{| Gateway.eventType := Gateway.INSERT;
                Gateway.new := with_is_spam Scenario.issue2 true |};
             {| Gateway.eventType := Gateway.UPDATE;
                Gateway.new := Scenario.issue1 |};
             {| Gateway.eventType := Gateway.INSERT;
                Gateway.new := Scenario.issue2 |}]
            [Scenario.issue1]).
Proof.
  apply deliver_no_spam.
  - repeat constructor.
  - repeat first [ constructor
                 | intros _; reflexivity
                 | intros E; discriminate E ].
Defined.

(** An UPDATE event puts its row in the place of every row of the same
    identity, whatever the spam flag of the row is. *)
Lemma update_replaces_by_id (payload : Gateway.Payload) (prev : list Issue)
      (r : Issue) :
  Gateway.eventType payload = Gateway.UPDATE ->
  In r prev -> id r = id (Gateway.new payload) ->
  In (Gateway.new payload) (fst (ViewReports.on_postgres_changes payload prev)).
Proof.
  intros Hev Hin Hid. unfold ViewReports.on_postgres_changes.
  rewrite Hev. simpl. apply in_map_iff. exists r. split; [|assumption].
  rewrite Hid, String.eqb_refl. reflexivity.
Qed.

(** C1. The UPDATE branch replaces the row of the same identity without
    looking at the spam flag: from a fetch that holds one issue, not spam,
    an UPDATE event that carries the same issue flagged as spam leaves the
    flagged issue in the reports and in the projection shown. *)
Theorem update_event_admits_spam :
  let flagged := with_is_spam Scenario.issue1 true in
  let st :=
    ViewReports.fetchReports
      (Gateway.data
         (@Gateway.select utcPlatform ViewReports.fetchReports_query
                          [Scenario.issue1]))
      ViewReports.initial in
  let after :=
    ViewReports.deliver
      [{| Gateway.eventType := Gateway.UPDATE; Gateway.new := flagged |}]
      (ViewReports.reports st) in
  Forall (fun r => is_spam r = false) (ViewReports.reports st)
  /\ after = [flagged]
  /\ is_spam flagged = true
  /\ @ViewReports.filteredReports utcPlatform after "" "all" "all" "newest"
     = [flagged].
Proof.
  cbv zeta. split; [repeat constructor | repeat split].
Qed.

(** ** Counting *)

Lemma countZ_cons {A : Type} (p : A -> bool) (x : A) (l : list A) :
  countZ p (x :: l) = (if p x then 1 else 0) + countZ p l.
Proof.
  unfold countZ. simpl. destruct (p x); [|reflexivity].
  simpl List.length. lia.
Qed.

Lemma countZ_nonneg {A : Type} (p : A -> bool) (l : list A) : 0 <= countZ p l.
Proof. unfold countZ. lia. Qed.

Lemma countZ_none {A : Type} (p : A -> bool) (l : list A) :
  (forall x, In x l -> p x = false) -> countZ p l = 0.
Proof.
  intros Hp. induction l as [|x l IH]; [reflexivity|].
  rewrite countZ_cons, Hp by (left; reflexivity).
  rewrite IH; [reflexivity|]. intros y Hy. apply Hp. right. exact Hy.
Qed.

Lemma countZ_pos {A : Type} (p : A -> bool) (l : list A) (x : A) :
  In x l -> p x = true -> 1 <= countZ p l.
Proof.
  intros Hin Hp. induction l as [|y l IH]; [contradiction|].
  rewrite countZ_cons. pose proof (countZ_nonneg p l).
  destruct Hin as [->|Hin].
  - rewrite Hp. lia.
  - specialize (IH Hin). destruct (p y); lia.
Qed.

(** Among distinct keys, exactly one equals a key of the list. *)
Lemma sum_indicator (ks : list string) (k : string) :
  NoDup ks -> In k ks ->
  sumZ (map (fun d => if (k =? d)%string then 1 else 0) ks) = 1.
Proof.
  induction 1 as [|d ks Hnotin Hnd IH]; [contradiction|].
  simpl. intros [->|Hin].
  - rewrite String.eqb_refl.
    assert (E : sumZ (map (fun d => if (k =? d)%string then 1 else 0) ks) = 0).
    { clear IH Hnd. induction ks as [|e ks IHk]; [reflexivity|].
      simpl. destruct (String.eqb_spec k e) as [->|].
      - exfalso. apply Hnotin. left. reflexivity.
      - rewrite IHk; [reflexivity|]. intros Hk. apply Hnotin. right.
        exact Hk. }
    rewrite E. reflexivity.
  - destruct (String.eqb_spec k d) as [->|]; [contradiction|].
    rewrite IH by assumption. reflexivity.
Qed.

(** Each element falls under exactly one of the keys: the counts per key add
    up to the number of elements. *)
Lemma sum_countZ_keys {A : Type} (key : A -> string) (ks : list string)
      (l : list A) :
  NoDup ks -> (forall x, In x l -> In (key x) ks) ->
  sumZ (map (fun d => countZ (fun x => (key x =? d)%string) l) ks)
  = Z.of_nat (List.length l).
Proof.
  intros Hnd Hks. induction l as [|x l IH].
  - clear. induction ks as [|d ks IHk]; [reflexivity|].
    simpl in *. rewrite IHk. reflexivity.
  - assert (E : sumZ (map (fun d => countZ (fun x => (key x =? d)%string)
                                          (x :: l)) ks)
                = sumZ (map (fun d => if (key x =? d)%string then 1 else 0) ks)
                  + sumZ (map (fun d => countZ (fun x => (key x =? d)%string)
                                              l) ks)).
    { clear. induction ks as [|d ks IHk]; [reflexivity|].
      simpl. rewrite IHk, countZ_cons. lia. }
    rewrite E, IH, sum_indicator; try assumption.
    + simpl List.length. lia.
    + apply Hks. left. reflexivity.
    + intros y Hy. apply Hks. right. exact Hy.
Qed.

(** ** Day-of-week aggregation *)

Section ByDayFacts.
Context `{Platform}.
Import Analytics.

Lemma getDay_range s : 0 <= getDay s < 7.
Proof. unfold getDay, Calendar.WeekDay. apply Z.mod_pos_bound. lia. Qed.

Lemma dayName_In i : In (dayName i) daysOfWeek.
Proof.
  unfold dayName. pose proof (getDay_range (created_at i)) as Hr.
  apply nth_In. unfold daysOfWeek. simpl List.length. lia.
Qed.

Lemma NoDup_daysOfWeek : NoDup daysOfWeek.
Proof.
  unfold daysOfWeek.
  repeat (constructor; [simpl; intuition discriminate|]). constructor.
Qed.

(** No day name names an inherited member. *)
Lemma daysOfWeek_own d : In d daysOfWeek -> inherited d = false.
Proof.
  unfold daysOfWeek. simpl.
  intros [<-|[<-|[<-|[<-|[<-|[<-|[<-|[]]]]]]]]; reflexivity.
Qed.

Lemma byDay_bucket g v :
  fold_left (fun v x => byDay_upd x v) g v
  = {| ReportsByDayData.day := ReportsByDayData.day v;
       ReportsByDayData.count :=
         ReportsByDayData.count v + Z.of_nat (List.length g) |}.
Proof.
  revert v. induction g as [|x g IH]; intros v.
  - destruct v. simpl. f_equal. lia.
  - simpl fold_left. rewrite IH. simpl. f_equal. lia.
Qed.

(** The buckets in closed form: one per day name, in the fixed order, with
    the number of issues created on that weekday. *)
Lemma processReportsByDay_closed issues :
  processReportsByDay issues
  = map (fun d =>
           {| ReportsByDayData.day := d;
              ReportsByDayData.count :=
                countZ (fun i => (dayName i =? d)%string) issues |})
        daysOfWeek.
Proof.
  unfold processReportsByDay. apply map_ext_in. intros d Hd.
  change (fold_left byDay_step issues [])
    with (group dayName byDay_init byDay_upd issues).
  rewrite get_group, (daysOfWeek_own d Hd). unfold countZ, members.
  destruct (filter _ issues) as [|x g] eqn:E; [reflexivity|].
  unfold bucket_of. rewrite byDay_bucket. reflexivity.
Qed.

(** Every issue is counted under one of the seven days. *)
Lemma sum_processReportsByDay issues :
  sumZ (map ReportsByDayData.count (processReportsByDay issues))
  = Z.of_nat (List.length issues).
Proof.
  rewrite processReportsByDay_closed, map_map. simpl ReportsByDayData.count.
  apply sum_countZ_keys; [apply NoDup_daysOfWeek|].
  intros i _. apply dayName_In.
Qed.

End ByDayFacts.

(** C5. The day-of-week aggregation returns seven buckets, named Sun, Mon,
    Tue, Wed, Thu, Fri, Sat in this order; each holds the number of input
    issues created on that weekday, which is 0 for a day without issues;
    and the seven counts add up to the number of input issues. *)
Theorem day_of_week_buckets `{Platform} (issues : list Issue) :
  let out := Analytics.processReportsByDay issues in
  map ReportsByDayData.day out
  = ["Sun"; "Mon"; "Tue"; "Wed"; "Thu"; "Fri"; "Sat"]%string
  /\ List.length out = 7%nat
  /\ (forall b, In b out ->
        ReportsByDayData.count b
        = countZ (fun i => (Analytics.dayName i =? ReportsByDayData.day b)%string)
                 issues)
  /\ (forall b, In b out ->
        (forall i, In i issues -> Analytics.dayName i <> ReportsByDayData.day b) ->
        ReportsByDayData.count b = 0)
  /\ sumZ (map ReportsByDayData.count out) = Z.of_nat (List.length issues).
Proof.
  intros out. subst out. rewrite processReportsByDay_closed.
  assert (Hcount : forall b,
             In b (map (fun d =>
                          {| ReportsByDayData.day := d;
                             ReportsByDayData.count :=
                               countZ (fun i => (Analytics.dayName i =? d)%string)
                                      issues |}) Analytics.daysOfWeek) ->
             ReportsByDayData.count b
             = countZ (fun i => (Analytics.dayName i
                                 =? ReportsByDayData.day b)%string) issues).
  { intros b Hb. apply in_map_iff in Hb. destruct Hb as (d & <- & _).
    reflexivity. }
  split; [reflexivity|]. split; [reflexivity|]. split; [exact Hcount|].
  split.
  - intros b Hb Hnone. rewrite (Hcount b Hb). apply countZ_none.
    intros i Hi. apply String.eqb_neq. apply Hnone. exact Hi.
  - rewrite <- processReportsByDay_closed. apply sum_processReportsByDay.
Qed.

(** ** The values of a grouping fold *)

Section GroupValues.
Context {A V : Type}.
Variable key : A -> string.
Variable init : string -> V.
Variable upd : A -> V -> V.

Local Abbreviation grp := (group key init upd).
Local Abbreviation mem := (members key).
Local Abbreviation bkt := (bucket_of init upd).

Lemma In_group l k v :
  In (k, v) (grp l) <->
  inherited k = false /\ mem k l <> [] /\ v = bkt k (mem k l).
Proof.
  split.
  - intros Hin. apply In_get_Some in Hin; [|apply NoDup_keys_group].
    rewrite get_group in Hin.
    destruct (inherited k); [discriminate|].
    destruct (mem k l) eqn:E; [discriminate|].
    injection Hin as <-. repeat split. discriminate.
  - intros (Hinh & Hne & ->). apply get_Some_In. rewrite get_group, Hinh.
    destruct (mem k l); [contradiction | reflexivity].
Qed.

(** The values are the buckets of the keys that have members and do not
    name an inherited member. *)
Lemma In_values_group l b :
  In b (Object_values (grp l)) <->
  exists x, In x l /\ inherited (key x) = false
            /\ b = bkt (key x) (mem (key x) l).
Proof.
  unfold Object_values. rewrite in_map_iff. split.
  - intros ([k v] & <- & Hin). apply In_group in Hin.
    destruct Hin as (Hinh & Hne & ->). simpl.
    destruct (mem k l) as [|x g] eqn:E; [contradiction|].
    assert (Hx : In x (mem k l)) by (rewrite E; left; reflexivity).
    apply filter_In in Hx. destruct Hx as [Hx Hk].
    apply String.eqb_eq in Hk. subst k.
    exists x. rewrite E. auto.
  - intros (x & Hx & Hinh & ->). exists (key x, bkt (key x) (mem (key x) l)).
    split; [reflexivity|]. apply In_group. split; [exact Hinh|].
    split; [|reflexivity].
    intros E. assert (Hm : In x (mem (key x) l)).
    { apply filter_In. split; [assumption | apply String.eqb_refl]. }
    rewrite E in Hm. contradiction.
Qed.

(** When buckets carry their key, the keys can be read off the values. *)
Lemma map_values_group (name : V -> string) l :
  (forall k g, name (bkt k g) = k) ->
  map name (Object_values (grp l)) = Object_keys (grp l).
Proof.
  intros Hname. unfold Object_values, Object_keys. rewrite map_map.
  apply map_ext_in. intros [k v] Hin. apply In_group in Hin.
  destruct Hin as (_ & _ & ->). apply Hname.
Qed.

End GroupValues.

Lemma StronglySorted_firstn {A : Type} (R : A -> A -> Prop) (n : nat)
      (l : list A) :
  StronglySorted R l -> StronglySorted R (firstn n l).
Proof.
  intros Hs. revert n. induction Hs as [|a l Hs IH Hall]; intros [|n];
    simpl; try constructor.
  - apply IH.
  - apply Forall_forall. intros b Hb. rewrite Forall_forall in Hall.
    apply Hall. rewrite <- (firstn_skipn n l). apply in_or_app. left.
    exact Hb.
Qed.

Lemma sumZ_perm (l1 l2 : list Z) : Permutation l1 l2 -> sumZ l1 = sumZ l2.
Proof. induction 1; simpl; lia. Qed.

(** ** Location hotspots *)

Section HotspotFacts.
Import Aggregators.

Lemma hotspot_buckets_group issues :
  hotspot_buckets issues = group place hotspot_init hotspot_upd issues.
Proof. reflexivity. Qed.

Lemma hotspot_bucket k g :
  bucket_of hotspot_init hotspot_upd k g
  = {| LocationHotspotData.location := k;
       LocationHotspotData.count := Z.of_nat (List.length g) |}.
Proof.
  unfold bucket_of.
  assert (E : forall v,
             fold_left (fun v x => hotspot_upd x v) g v
             = {| LocationHotspotData.location := LocationHotspotData.location v;
                  LocationHotspotData.count :=
                    LocationHotspotData.count v + Z.of_nat (List.length g) |}).
  { induction g as [|x g IH]; intros v.
    - destruct v. simpl. f_equal. lia.
    - simpl fold_left. rewrite IH. simpl. f_equal. lia. }
  rewrite E. reflexivity.
Qed.

Lemma hotspots_ranked_perm issues :
  Permutation (Object_values (hotspot_buckets issues))
              (hotspots_ranked issues).
Proof. apply Array_sort_perm. Qed.

End HotspotFacts.

(** The counts of all buckets add up to the number of issues that have a
    bucket. *)
Lemma hotspots_ranked_sum (issues : list Issue) :
  sumZ (map LocationHotspotData.count (Aggregators.hotspots_ranked issues))
  = countZ (fun i => negb (inherited (place i))) issues.
Proof.
  rewrite <- (sumZ_perm _ _ (Permutation_map _ (hotspots_ranked_perm issues))).
  rewrite hotspot_buckets_group.
  apply (total_of_group place hotspot_init hotspot_upd
                        LocationHotspotData.count);
    [reflexivity | intros; reflexivity].
Qed.

Lemma hotspots_ranked_sorted (issues : list Issue) :
  StronglySorted
    (fun a b => LocationHotspotData.count a >= LocationHotspotData.count b)
    (Aggregators.hotspots_ranked issues).
Proof.
  eapply StronglySorted_impl;
    [|apply (Array_sort_sorted Aggregators.compareHotspots
               (fun b => - LocationHotspotData.count b))].
  - simpl. intros; lia.
  - intros a b. unfold Aggregators.compareHotspots. lia.
Qed.

(** The buckets before the cut: one for every place of an issue that does
    not name an inherited member, with the number of issues of that
    place. *)
Lemma In_hotspots_ranked (issues : list Issue) (b : LocationHotspotData.t) :
  In b (Aggregators.hotspots_ranked issues) <->
  exists i, In i issues /\ inherited (place i) = false
            /\ b = {| LocationHotspotData.location := place i;
                      LocationHotspotData.count :=
                        countZ (fun j => (place j =? place i)%string)
                               issues |}.
Proof.
  split.
  - intros Hb.
    eapply Permutation_in in Hb; [|symmetry; apply hotspots_ranked_perm].
    rewrite hotspot_buckets_group in Hb. apply In_values_group in Hb.
    destruct Hb as (i & Hi & Hinh & ->). rewrite hotspot_bucket.
    exists i. auto.
  - intros (i & Hi & Hinh & ->).
    eapply Permutation_in; [apply hotspots_ranked_perm|].
    rewrite hotspot_buckets_group. apply In_values_group.
    exists i. split; [assumption|]. split; [assumption|].
    rewrite hotspot_bucket. reflexivity.
Qed.

(** C6. The location hotspot aggregation does not count the issues whose
    location name is the name of a member of [Object.prototype]: for such a
    name the accumulator, an object literal, already reads as having a
    bucket, so none is made. From three issues located at "constructor",
    "Pune" and "constructor", on both dashboards, the only bucket is "Pune"
    with count 1; the counts of all buckets before the cut add up to 1, and
    not to the number of input issues, which is 3. *)
Theorem hotspots_lose_inherited_names :
  let located_at := fun p =>
    mkIssue "0" "t" "d" "Other" "new" (Some p) None None "2024-01-05" None
            false in
  let issues :=
    [located_at "constructor"; located_at "Pune"; located_at "constructor"]
  in
  Aggregators.hotspots_ranked issues
  = [{| LocationHotspotData.location := "Pune";
        LocationHotspotData.count := 1 |}]
  /\ sumZ (map LocationHotspotData.count (Aggregators.hotspots_ranked issues))
     = 1
  /\ Z.of_nat (List.length issues) = 3
  /\ Analytics.processLocationHotspots issues
     = [{| LocationHotspotData.location := "Pune";
           LocationHotspotData.count := 1 |}]
  /\ AnalyticsAlt.processLocationHotspots issues
     = [{| LocationHotspotData.location := "Pune";
           LocationHotspotData.count := 1 |}].
Proof. cbv zeta. repeat split. Qed.

(** Twelve places, the fourth reported three times and the last twice:
    the ranking starts with them, the ten others follow in input order, and
    the last two of the ranking are cut off. *)
Example hotspots_cut_to_ten :
  let places :=
    ["A"; "B"; "C"; "D"; "E"; "F"; "G"; "H"; "I"; "J"; "K"; "L";
     "D"; "D"; "L"]%string in
  let issues :=
    map (fun p => mkIssue "0" "t" "d" "Other" "new" (Some p) None None
                          "2024-01-05" None false) places in
  map (fun b => (LocationHotspotData.location b, LocationHotspotData.count b))
      (Aggregators.processLocationHotspots issues)
  = [("D", 3); ("L", 2); ("A", 1); ("B", 1); ("C", 1); ("E", 1); ("F", 1);
     ("G", 1); ("H", 1); ("I", 1)]%string
  /\ List.length (Aggregators.hotspots_ranked issues) = 12%nat.
Proof. split; vm_compute; reflexivity. Qed.

(** ** Updates of one bucket in a row *)

Lemma fold_left_ext_eq {A B : Type} (f g : B -> A -> B) (l : list A) (b : B) :
  (forall acc x, f acc x = g acc x) -> fold_left f l b = fold_left g l b.
Proof.
  intros Hfg. revert b. induction l as [|x l IH]; intros b; [reflexivity|].
  simpl. rewrite Hfg. apply IH.
Qed.


(** ** Monthly totals *)

Section MonthlyFacts.
Context `{Platform}.
Import Aggregators.

Lemma monthly_step_group acc i :
  monthly_step acc i = group_step monthOf monthly_init monthly_upd acc i.
Proof.
  unfold monthly_step, group_step, monthly_upd, isResolvedStatus, monthOf.
  destruct (status i =? "resolved")%string.
  - rewrite modify_modify. reflexivity.
  - reflexivity.
Qed.

Lemma monthly_buckets_group issues :
  monthly_buckets issues = group monthOf monthly_init monthly_upd issues.
Proof. apply fold_left_ext_eq. exact monthly_step_group. Qed.

(** A month label is not the name of an inherited member, and not an array
    index. *)
Lemma monthShort_label m rest :
  inherited (Calendar.monthShort m ++ " " ++ rest) = false
  /\ isArrayIndex (Calendar.monthShort m ++ " " ++ rest) = false.
Proof.
  unfold Calendar.monthShort. generalize (Z.to_nat (m - 1)). intros n.
  do 12 (destruct n as [|n]; [split; reflexivity|]).
  destruct n; split; reflexivity.
Qed.

Lemma monthOf_own i : inherited (monthOf i) = false.
Proof.
  unfold monthOf, formatMonth.
  destruct (Calendar.civil_from_days _) as [[y m] d].
  apply monthShort_label.
Qed.

Lemma monthOf_not_index i : isArrayIndex (monthOf i) = false.
Proof.
  unfold monthOf, formatMonth.
  destruct (Calendar.civil_from_days _) as [[y m] d].
  apply monthShort_label.
Qed.

Lemma monthly_bucket k g :
  bucket_of monthly_init monthly_upd k g
  = {| MonthlyReportData.month := k;
       MonthlyReportData.total := Z.of_nat (List.length g);
       MonthlyReportData.resolved := countZ isResolvedStatus g |}.
Proof.
  unfold bucket_of.
  assert (E : forall v,
             fold_left (fun v x => monthly_upd x v) g v
             = {| MonthlyReportData.month := MonthlyReportData.month v;
                  MonthlyReportData.total :=
                    MonthlyReportData.total v + Z.of_nat (List.length g);
                  MonthlyReportData.resolved :=
                    MonthlyReportData.resolved v
                    + countZ isResolvedStatus g |}).
  { induction g as [|x g IH]; intros v.
    - destruct v. unfold countZ. simpl. f_equal; lia.
    - simpl fold_left. rewrite IH, countZ_cons. unfold monthly_upd.
      destruct (isResolvedStatus x);
        cbn [MonthlyReportData.month MonthlyReportData.total
             MonthlyReportData.resolved List.length];
        f_equal; lia. }
  rewrite E. reflexivity.
Qed.

End MonthlyFacts.




(** ** Resolution times *)

Lemma fold_left_add_map {A : Type} (f : A -> float) (g : list A) (t : float) :
  fold_left (fun t x => (t + f x)%float) g t
  = fold_left PrimFloat.add (map f g) t.
Proof.
  revert t. induction g as [|x g IH]; intros t; [reflexivity|].
  simpl. apply IH.
Qed.

Section ResolutionFacts.
Context `{Platform}.
Import AnalyticsAlt.

Lemma resolution_step_group acc i :
  resolution_step acc i = group_step category time_init time_upd acc i.
Proof.
  unfold resolution_step, group_step. rewrite modify_modify. reflexivity.
Qed.

Lemma dataByCategory_group issues :
  dataByCategory issues
  = group category time_init time_upd (resolvedIssues issues).
Proof. apply fold_left_ext_eq. exact resolution_step_group. Qed.

Lemma time_bucket k g :
  bucket_of time_init time_upd k g
  = {| TimeAcc.total_time :=
         fold_left PrimFloat.add (map hours g) (Number 0);
       TimeAcc.count := Z.of_nat (List.length g) |}.
Proof.
  unfold bucket_of.
  assert (E : forall v,
             fold_left (fun v x => time_upd x v) g v
             = {| TimeAcc.total_time :=
                    fold_left (fun t x => (t + hours x)%float) g
                              (TimeAcc.total_time v);
                  TimeAcc.count :=
                    TimeAcc.count v + Z.of_nat (List.length g) |}).
  { induction g as [|x g IH]; intros v.
    - destruct v. simpl. f_equal. lia.
    - simpl fold_left. rewrite IH.
      cbn [time_upd TimeAcc.total_time TimeAcc.count List.length].
      f_equal. lia. }
  rewrite E, fold_left_add_map. reflexivity.
Qed.


(** The entry of a category that has one. *)
Lemma entry_processResolutionTimes issues i :
  In i (resolvedIssues issues) -> inherited (category i) = false ->
  match get (dataByCategory issues) (category i) with
  | Some e =>
      {| ResolutionTimeData.category := category i;
         ResolutionTimeData.avg_time_hours :=
           (TimeAcc.total_time e / Number (TimeAcc.count e))%float |}
  | None =>
      {| ResolutionTimeData.category := category i;
         ResolutionTimeData.avg_time_hours := Number 0 |}
  end
  = {| ResolutionTimeData.category := category i;
       ResolutionTimeData.avg_time_hours :=
         mean64 (map hours (members category (category i)
                                    (resolvedIssues issues))) |}.
Proof.
  intros Hi Hinh. rewrite dataByCategory_group, get_group, Hinh.
  destruct (members category (category i) (resolvedIssues issues))
    as [|x g] eqn:E.
  - exfalso. assert (Hm : In i (members category (category i)
                                        (resolvedIssues issues))).
    { apply filter_In. split; [assumption | apply String.eqb_refl]. }
    rewrite E in Hm. contradiction.
  - rewrite time_bucket. unfold mean64. rewrite length_map. reflexivity.
Qed.

(** The entries of the chart: one per category of a considered issue that
    does not name an inherited member, with the accumulated hours over the
    number of such issues. *)
Lemma In_processResolutionTimes issues b :
  In b (processResolutionTimes issues) <->
  exists i,
    In i (resolvedIssues issues) /\ inherited (category i) = false
    /\ b = {| ResolutionTimeData.category := category i;
              ResolutionTimeData.avg_time_hours :=
                mean64 (map hours (members category (category i)
                                           (resolvedIssues issues))) |}.
Proof.
  unfold processResolutionTimes. rewrite in_map_iff. split.
  - intros (c & <- & Hc). rewrite dataByCategory_group in Hc.
    apply In_keys_group in Hc.
    destruct Hc as (Hinh & i & Hi & <-). exists i.
    split; [assumption|]. split; [assumption|].
    apply entry_processResolutionTimes; assumption.
  - intros (i & Hi & Hinh & ->). exists (category i). split.
    + apply entry_processResolutionTimes; assumption.
    + rewrite dataByCategory_group. apply In_keys_group. eauto.
Qed.

Lemma categories_processResolutionTimes issues :
  map ResolutionTimeData.category (processResolutionTimes issues)
  = Object_keys (dataByCategory issues).
Proof.
  unfold processResolutionTimes. rewrite map_map.
  rewrite <- (map_id (Object_keys (dataByCategory issues))) at 2.
  apply map_ext. intros c.
  destruct (get (dataByCategory issues) c); reflexivity.
Qed.

End ResolutionFacts.



(** A considered issue of the category "toString" has no entry: the
    accumulator reads as having one. *)
Example resolution_times_lose_inherited_names :
  @AnalyticsAlt.processResolutionTimes utcPlatform
    [mkIssue "0" "t" "d" "toString" "resolved" None None None "2024-01-10"
             (Some "2024-01-12") false;
     Scenario.issue2]
  = [{| AnalyticsAlt.ResolutionTimeData.category := "Pothole";
        AnalyticsAlt.ResolutionTimeData.avg_time_hours := Number 48 |}].
Proof. vm_compute. reflexivity. Qed.


(** ** The spam flag and the analytics *)

Lemma fold_left_reflag {B : Type} (step : B -> Issue -> B) :
  (forall acc i b, step acc (with_is_spam i b) = step acc i) ->
  forall flags l acc,
    fold_left step (reflag flags l) acc = fold_left step l acc.
Proof.
  intros Hstep flags. induction flags as [|b flags IH]; intros l acc.
  - destruct l; reflexivity.
  - destruct l as [|i l]; [reflexivity|].
    simpl. rewrite Hstep. apply IH.
Qed.

Lemma fold_left_filter {A B : Type} (step : B -> A -> B) (p : A -> bool)
      (l : list A) (acc : B) :
  fold_left step (filter p l) acc
  = fold_left (fun acc x => if p x then step acc x else acc) l acc.
Proof.
  revert acc. induction l as [|x l IH]; intros acc; [reflexivity|].
  simpl. destruct (p x); simpl; apply IH.
Qed.

Lemma length_reflag flags l : List.length (reflag flags l) = List.length l.
Proof.
  revert l. induction flags as [|b flags IH]; intros [|i l];
    simpl; try reflexivity.
  rewrite IH. reflexivity.
Qed.

Section SpamFlagFacts.
Context `{Platform}.

Lemma monthly_reflag flags l :
  Aggregators.processMonthlyReports (reflag flags l)
  = Aggregators.processMonthlyReports l.
Proof.
  unfold Aggregators.processMonthlyReports, Aggregators.monthly_buckets.
  rewrite fold_left_reflag; reflexivity.
Qed.

Lemma hotspots_reflag flags l :
  Aggregators.processLocationHotspots (reflag flags l)
  = Aggregators.processLocationHotspots l.
Proof.
  unfold Aggregators.processLocationHotspots, Aggregators.hotspots_ranked,
    Aggregators.hotspot_buckets.
  rewrite fold_left_reflag; reflexivity.
Qed.

Lemma category_reflag flags l :
  Analytics.processCategoryDistribution (reflag flags l)
  = Analytics.processCategoryDistribution l.
Proof.
  unfold Analytics.processCategoryDistribution.
  rewrite fold_left_reflag; reflexivity.
Qed.

Lemma byDay_reflag flags l :
  Analytics.processReportsByDay (reflag flags l)
  = Analytics.processReportsByDay l.
Proof.
  unfold Analytics.processReportsByDay.
  rewrite fold_left_reflag; reflexivity.
Qed.

Lemma categoryAlt_reflag flags l :
  AnalyticsAlt.processCategoryDistribution (reflag flags l)
  = AnalyticsAlt.processCategoryDistribution l.
Proof.
  unfold AnalyticsAlt.processCategoryDistribution.
  rewrite fold_left_reflag; reflexivity.
Qed.

Lemma resolution_reflag flags l :
  AnalyticsAlt.processResolutionTimes (reflag flags l)
  = AnalyticsAlt.processResolutionTimes l.
Proof.
  unfold AnalyticsAlt.processResolutionTimes, AnalyticsAlt.dataByCategory,
    AnalyticsAlt.resolvedIssues.
  rewrite !fold_left_filter, fold_left_reflag; reflexivity.
Qed.

End SpamFlagFacts.

(** C10. The analytics do not look at the spam flag. Both dashboards query
    the whole table, and each of their aggregations, hence each loaded
    dashboard state, is the same whatever the spam flags of the rows are;
    in particular a row flagged as spam is counted like any other, so the
    day-of-week counts of a table add up to its number of rows even when
    every row is flagged. *)
Theorem analytics_ignore_spam_flag `{Platform} (flags : list bool)
        (table : list Issue) :
  Gateway.select Analytics.fetchData_query table = table
  /\ Gateway.select AnalyticsAlt.fetchData_query table = table
  /\ Analytics.processMonthlyReports (reflag flags table)
     = Analytics.processMonthlyReports table
  /\ Analytics.processCategoryDistribution (reflag flags table)
     = Analytics.processCategoryDistribution table
  /\ Analytics.processReportsByDay (reflag flags table)
     = Analytics.processReportsByDay table
  /\ Analytics.processLocationHotspots (reflag flags table)
     = Analytics.processLocationHotspots table
  /\ AnalyticsAlt.processMonthlyReports (reflag flags table)
     = AnalyticsAlt.processMonthlyReports table
  /\ AnalyticsAlt.processCategoryDistribution (reflag flags table)
     = AnalyticsAlt.processCategoryDistribution table
  /\ AnalyticsAlt.processResolutionTimes (reflag flags table)
     = AnalyticsAlt.processResolutionTimes table
  /\ AnalyticsAlt.processLocationHotspots (reflag flags table)
     = AnalyticsAlt.processLocationHotspots table
  /\ Analytics.loaded (reflag flags table) = Analytics.loaded table
  /\ AnalyticsAlt.loaded (reflag flags table) = AnalyticsAlt.loaded table
  /\ sumZ (map ReportsByDayData.count
               (Analytics.reportsByDayData
                  (Analytics.loaded
                     (map (fun r => with_is_spam r true) table))))
     = Z.of_nat (List.length table).
Proof.
  pose proof (monthly_reflag flags table) as Hm.
  pose proof (hotspots_reflag flags table) as Hh.
  pose proof (category_reflag flags table) as Hc.
  pose proof (byDay_reflag flags table) as Hd.
  pose proof (categoryAlt_reflag flags table) as Hc'.
  pose proof (resolution_reflag flags table) as Hr.
  repeat (split; [first [reflexivity | assumption]|]).
  split; [|split].
  - unfold Analytics.loaded, Analytics.fetchData, Gateway.select,
      Analytics.fetchData_query, Analytics.processMonthlyReports,
      Analytics.processLocationHotspots.
    simpl fold_left. rewrite Hm, Hc, Hd, Hh. reflexivity.
  - unfold AnalyticsAlt.loaded, AnalyticsAlt.fetchData, Gateway.select,
      AnalyticsAlt.fetchData_query, AnalyticsAlt.processMonthlyReports,
      AnalyticsAlt.processLocationHotspots.
    simpl fold_left. rewrite Hm, Hc', Hr, Hh. reflexivity.
  - unfold Analytics.loaded, Analytics.fetchData, Gateway.select,
      Analytics.fetchData_query.
    simpl fold_left. cbn [Analytics.reportsByDayData].
    rewrite sum_processReportsByDay, length_map. reflexivity.
Qed.

(** The scenario with its second issue flagged as spam: the flagged issue is
    in the monthly total, in the category count and in the averaged
    resolution times. *)
Example spam_row_is_counted :
  let table := [Scenario.issue1; with_is_spam Scenario.issue2 true] in
  AnalyticsAlt.monthlyData (@AnalyticsAlt.loaded utcPlatform table)
  = [{| MonthlyReportData.month := "Jan 24"; MonthlyReportData.total := 2;
        MonthlyReportData.resolved := 1 |}]
  /\ AnalyticsAlt.categoryData (@AnalyticsAlt.loaded utcPlatform table)
     = [{| AnalyticsAlt.CategoryDistributionData.category := "Pothole";
           AnalyticsAlt.CategoryDistributionData.count := 2 |}]
  /\ map AnalyticsAlt.ResolutionTimeData.category
         (AnalyticsAlt.resolutionTimeData
            (@AnalyticsAlt.loaded utcPlatform table))
     = ["Pothole"%string]
  /\ Analytics.reportsByDayData (@Analytics.loaded utcPlatform table)
     = map (fun dc => {| ReportsByDayData.day := fst dc;
                         ReportsByDayData.count := snd dc |})
           [("Sun", 0); ("Mon", 0); ("Tue", 0); ("Wed", 1); ("Thu", 0);
            ("Fri", 1); ("Sat", 0)]%string.
Proof. cbv zeta. repeat split; vm_compute; reflexivity. Qed.

(** ** The submission form *)

Section ReportModalFacts.
Import ReportModal.

Lemma complete_spec f :
  isEmpty (title f) || isEmpty (category f) || isEmpty (description f)
  || isEmpty (streetAddress f) || isEmpty (landmark f) = false
  <-> complete f.
Proof.
  unfold complete, isEmpty. rewrite !orb_false_iff, !String.eqb_neq. tauto.
Qed.

Lemma submit_uploads w f loc ph :
  exists rest,
    snd (submit w f loc ph)
    = storage_upload (Date_now w ++ "." ++ lastSegment (file_name ph)) ph
      :: rest.
Proof.
  unfold submit. destruct (uploadError w); [eexists; reflexivity|].
  destruct (insertError w); eexists; reflexivity.
Qed.

End ReportModalFacts.

(** C9. A submission is validated in the order location, photo, required
    text fields. Without a resolved location it is rejected with the
    "Location Required" notification, whatever the photo and the fields are;
    with a resolved location and no photo it is rejected with "Photo
    Required", whatever the fields are; with both and a required field empty
    it is rejected with "Missing Information". A rejection leaves the form as
    it is and makes no call to the gateway: in particular none is made for a
    submission with a resolved location and no photo. A submission that
    passes the three checks starts with the upload of the photo. *)
Theorem submission_validation_order (w : ReportModal.World)
        (f : ReportModal.Form) :
  (~ located f ->
   ReportModal.handleSubmit w f = (f, locationRequired))
  /\ (located f -> ReportModal.photo f = None ->
      ReportModal.handleSubmit w f = (f, photoRequired))
  /\ (located f -> ReportModal.photo f <> None -> ~ complete f ->
      ReportModal.handleSubmit w f = (f, missingInformation))
  /\ (located f -> ReportModal.photo f = None ->
      Forall (fun e => ReportModal.is_network_call e = false)
             (snd (ReportModal.handleSubmit w f)))
  /\ (~ (located f /\ ReportModal.photo f <> None /\ complete f) ->
      fst (ReportModal.handleSubmit w f) = f
      /\ Forall (fun e => ReportModal.is_network_call e = false)
                (snd (ReportModal.handleSubmit w f)))
  /\ (forall ph,
        located f -> ReportModal.photo f = Some ph -> complete f ->
        exists rest,
          snd (ReportModal.handleSubmit w f)
          = ReportModal.preventDefault
            :: ReportModal.storage_upload
                 (ReportModal.Date_now w ++ "."
                  ++ ReportModal.lastSegment (ReportModal.file_name ph)) ph
            :: rest).
Proof.
  assert (Hloc : ~ located f ->
                 ReportModal.handleSubmit w f = (f, locationRequired)).
  { intros Hn. unfold ReportModal.handleSubmit.
    destruct (ReportModal.location f) as [loc|] eqn:El; [|reflexivity].
    destruct (String.eqb_spec (ReportModal.name loc) "Location unavailable");
      [reflexivity|].
    exfalso. apply Hn. exists loc. auto. }
  assert (Hphoto : located f -> ReportModal.photo f = None ->
                   ReportModal.handleSubmit w f = (f, photoRequired)).
  { intros (loc & El & Hname) Hp. unfold ReportModal.handleSubmit.
    rewrite El, Hp.
    destruct (String.eqb_spec (ReportModal.name loc) "Location unavailable");
      [contradiction | reflexivity]. }
  assert (Hfields : located f -> ReportModal.photo f <> None ->
                    ~ complete f ->
                    ReportModal.handleSubmit w f = (f, missingInformation)).
  { intros (loc & El & Hname) Hp Hc. unfold ReportModal.handleSubmit.
    rewrite El.
    destruct (String.eqb_spec (ReportModal.name loc) "Location unavailable");
      [contradiction|].
    destruct (ReportModal.photo f) as [ph|]; [|contradiction].
    destruct (_ || _ || _ || _ || _) eqn:E; [reflexivity|].
    apply complete_spec in E. contradiction. }
  assert (Hclean : forall l,
             In l [locationRequired; photoRequired; missingInformation] ->
             Forall (fun e => ReportModal.is_network_call e = false) l).
  { intros l [<-|[<-|[<-|[]]]]; repeat constructor. }
  split; [exact Hloc|]. split; [exact Hphoto|]. split; [exact Hfields|].
  split.
  { intros Hl Hp. rewrite (Hphoto Hl Hp). apply Hclean. simpl. auto. }
  split.
  { intros Hn.
    destruct (ReportModal.location f) as [loc|] eqn:El.
    - destruct (String.eqb_spec (ReportModal.name loc)
                                "Location unavailable") as [Hu|Hu].
      + rewrite Hloc.
        * split; [reflexivity | apply Hclean; simpl; auto].
        * intros (loc' & El' & Hname). congruence.
      + assert (Hl : located f) by (exists loc; auto).
        destruct (ReportModal.photo f) as [ph|] eqn:Ep.
        * rewrite Hfields; try assumption.
          -- split; [reflexivity | apply Hclean; simpl; auto].
          -- discriminate.
          -- intros Hc. apply Hn.
             split; [assumption | split; [discriminate | assumption]].
        * rewrite Hphoto by first [assumption | reflexivity].
          split; [reflexivity | apply Hclean; simpl; auto].
    - rewrite Hloc.
      + split; [reflexivity | apply Hclean; simpl; auto].
      + intros (loc' & El' & _). congruence. }
  intros ph (loc & El & Hname) Hp Hc. unfold ReportModal.handleSubmit.
  rewrite El, Hp.
  destruct (String.eqb_spec (ReportModal.name loc) "Location unavailable");
    [contradiction|].
  apply complete_spec in Hc. rewrite Hc.
  destruct (submit_uploads w (ReportModal.with_isSubmitting f true) loc ph)
    as [rest Hrest].
  destruct (ReportModal.submit w (ReportModal.with_isSubmitting f true) loc ph)
    as [f' effects].
  simpl in *. subst effects. exists rest. reflexivity.
Qed.

(** A form with a resolved location, every field filled in and no photo:
    the only effects are [preventDefault] and the "Photo Required"
    notification. *)
Lemma submission_validation_order_witness :
  let f :=
    {| ReportModal.category := "Pothole";
       ReportModal.description := "Deep hole";
       ReportModal.photo := None;
       ReportModal.isSubmitting := false;
       ReportModal.title := "Pothole on Main St";
       ReportModal.streetAddress := "1 Main St";
       ReportModal.landmark := "Town hall";
       ReportModal.location :=
         Some {| ReportModal.lat := 18.52%Q; ReportModal.lng := 73.86%Q;
                 ReportModal.name := "Pune" |} |} in
  let w :=
    {| ReportModal.Date_now := "1704412800000";
       ReportModal.uploadError := false;
       ReportModal.publicUrl := fun n => n;
       ReportModal.insertError := false |} in
  ReportModal.handleSubmit w f = (f, photoRequired).
Proof.
  intros f w.
  apply (proj1 (proj2 (submission_validation_order w f))).
  - eexists. split; [reflexivity | discriminate].
  - reflexivity.
Defined.

(** A complete form: the photo is uploaded under the time-stamped name with
    the extension of the file, its public address goes into the inserted
    row, and the form is cleared; when the insert fails the form is kept. *)
Example submission_runs :
  let f :=
    {| ReportModal.category := "Pothole";
       ReportModal.description := "Deep hole";
       ReportModal.photo := Some {| ReportModal.file_name := "hole.v2.jpg" |};
       ReportModal.isSubmitting := false;
       ReportModal.title := "Pothole on Main St";
       ReportModal.streetAddress := "1 Main St";
       ReportModal.landmark := "Town hall";
       ReportModal.location :=
         Some {| ReportModal.lat := 18.52%Q; ReportModal.lng := 73.86%Q;
                 ReportModal.name := "Pune" |} |} in
  let w := fun failing =>
    {| ReportModal.Date_now := "1704412800000";
       ReportModal.uploadError := false;
       ReportModal.publicUrl := fun n => ("https://cdn/" ++ n)%string;
       ReportModal.insertError := failing |} in
  let row :=
    {| ReportModal.row_title := "Pothole on Main St";
       ReportModal.row_category := "Pothole";
       ReportModal.row_description := "Deep hole";
       ReportModal.row_latitude := 18.52%Q;
       ReportModal.row_longitude := 73.86%Q;
       ReportModal.row_location_name := "Pune";
       ReportModal.row_image_url := Some "https://cdn/1704412800000.jpg"%string;
       ReportModal.row_status := "new";
       ReportModal.row_street_address := "1 Main St";
       ReportModal.row_landmark := "Town hall" |} in
  ReportModal.handleSubmit (w false) f
  = (ReportModal.cleared,
     [ReportModal.preventDefault;
      ReportModal.storage_upload "1704412800000.jpg"
        {| ReportModal.file_name := "hole.v2.jpg" |};
      ReportModal.storage_getPublicUrl "1704412800000.jpg";
      ReportModal.issues_insert row;
      ReportModal.toast
        {| toast_title := "Report Submitted!";
           toast_description := "Thank you for helping improve our community.";
           toast_destructive := false |};
      ReportModal.onClose])
  /\ fst (ReportModal.handleSubmit (w true) f) = f.
Proof. split; reflexivity. Qed.

(** * Further properties *)

(** ** The push feed, event by event *)

Lemma length_on_postgres_changes (payload : Gateway.Payload)
      (prev : list Issue) :
  List.length (fst (ViewReports.on_postgres_changes payload prev))
  = (List.length prev
     + if Gateway.EventType_eqb (Gateway.eventType payload) Gateway.INSERT
          && negb (is_spam (Gateway.new payload))
       then 1 else 0)%nat.
Proof.
  unfold ViewReports.on_postgres_changes.
  destruct (Gateway.EventType_eqb (Gateway.eventType payload) Gateway.INSERT
            && negb (is_spam (Gateway.new payload))) eqn:E.
  - simpl. lia.
  - destruct (Gateway.EventType_eqb (Gateway.eventType payload)
                                    Gateway.UPDATE); simpl.
    + rewrite length_map. lia.
    + lia.
Qed.

(** X2. The feed never drops a report: whatever events arrive, DELETE events
    included, the reports are at least as many as before, and at most as
    many more as there were INSERT events. *)
Theorem feed_never_shrinks (events : list Gateway.Payload)
        (prev : list Issue) :
  (List.length prev <= List.length (ViewReports.deliver events prev))%nat
  /\ (List.length (ViewReports.deliver events prev)
      <= List.length prev
         + List.length
             (filter (fun p => Gateway.EventType_eqb (Gateway.eventType p)
                                                     Gateway.INSERT)
                     events))%nat.
Proof.
  revert prev. induction events as [|p events IH]; intros prev.
  - simpl. lia.
  - unfold ViewReports.deliver in *. simpl fold_left.
    specialize (IH (fst (ViewReports.on_postgres_changes p prev))).
    rewrite length_on_postgres_changes in IH. simpl filter.
    destruct (Gateway.EventType_eqb (Gateway.eventType p) Gateway.INSERT);
      simpl in *.
    + destruct (negb (is_spam (Gateway.new p))); simpl in *; lia.
    + lia.
Qed.

(** X3. An UPDATE event changes the reports in place: the identities stay the
    same, in the same positions; a report of another identity is kept as it
    is; no notification is raised; and when no report has the identity of
    the updated row, which is so for a row the view never held, nothing
    changes at all, so such a row does not enter the feed. *)
Theorem update_in_place (payload : Gateway.Payload) (prev : list Issue) :
  Gateway.eventType payload = Gateway.UPDATE ->
  let next := fst (ViewReports.on_postgres_changes payload prev) in
  map id next = map id prev
  /\ (forall r, In r prev -> id r <> id (Gateway.new payload) -> In r next)
  /\ ((forall r, In r prev -> id r <> id (Gateway.new payload)) ->
      next = prev)
  /\ snd (ViewReports.on_postgres_changes payload prev) = [].
Proof.
  intros Hev next. subst next. unfold ViewReports.on_postgres_changes.
  rewrite Hev. simpl. split; [|split; [|split]].
  - rewrite map_map. apply map_ext. intros r.
    destruct (String.eqb_spec (id r) (id (Gateway.new payload)));
      congruence.
  - intros r Hin Hid. apply in_map_iff. exists r. split; [|assumption].
    apply String.eqb_neq in Hid. rewrite Hid. reflexivity.
  - intros Hnone. rewrite <- (map_id prev) at 2. apply map_ext_in.
    intros r Hin. specialize (Hnone r Hin). apply String.eqb_neq in Hnone.
    rewrite Hnone. reflexivity.
  - reflexivity.
Qed.

Lemma update_in_place_witness :
  let payload :=
    {| Gateway.eventType := Gateway.UPDATE;
       Gateway.new :=
         mkIssue "2" "Pothole near school" "Reopened" "Pothole" "in_progress"
                 None None (Some 7) "2024-01-10" None false |} in
  map id (fst (ViewReports.on_postgres_changes
                 payload [Scenario.issue1; Scenario.issue2]))
  = ["1"; "2"]%string.
Proof.
  intros payload.
  apply (proj1 (update_in_place payload [Scenario.issue1; Scenario.issue2]
                                eq_refl)).
Defined.

(** ** The category filter *)

Lemma Set_values_fold (l seen : list string) :
  let out :=
    fold_left
      (fun seen x => if existsb (String.eqb x) seen then seen
                     else (seen ++ [x])%list) l seen in
  (NoDup seen -> NoDup out)
  /\ (forall c, In c out <-> In c seen \/ In c l).
Proof.
  revert seen. induction l as [|x l IH]; intros seen; simpl.
  - split; [auto | intros c; tauto].
  - destruct (existsb (String.eqb x) seen) eqn:E.
    + destruct (IH seen) as [Hnd Hin]. split; [exact Hnd|].
      intros c. rewrite Hin. apply existsb_exists in E.
      destruct E as (y & Hy & Hxy). apply String.eqb_eq in Hxy. subst y.
      split; [tauto|]. intros [?|[<-|?]]; auto.
    + destruct (IH (seen ++ [x])%list) as [Hnd Hin]. split.
      * intros Hs. apply Hnd.
        apply NoDup_rev in Hs. rewrite <- (rev_involutive (_ ++ _)).
        apply NoDup_rev. rewrite rev_app_distr. simpl.
        constructor; [|assumption]. rewrite <- in_rev. intros Hx.
        assert (Et : existsb (String.eqb x) seen = true).
        { apply existsb_exists. exists x. split; [assumption|].
          apply String.eqb_refl. }
        congruence.
      * intros c. rewrite Hin, in_app_iff. simpl. tauto.
Qed.

(** X4. The category dropdown: the categories of the reports, each once; and
    every category it offers, chosen with an empty search and any status,
    selects at least one report. *)
Theorem unique_categories_select `{Platform} (reports : list Issue) :
  NoDup (ViewReportsPage.uniqueCategories reports)
  /\ (forall c,
        In c (ViewReportsPage.uniqueCategories reports) <->
        exists r, In r reports /\ category r = c)
  /\ (forall c sortBy,
        In c (ViewReportsPage.uniqueCategories reports) ->
        ViewReports.filteredReports reports "" "all" c sortBy <> []).
Proof.
  unfold ViewReportsPage.uniqueCategories, ViewReportsPage.Set_values.
  destruct (Set_values_fold (map category reports) []) as [Hnd Hin].
  assert (Hmem : forall c,
             In c (fold_left
                     (fun seen x => if existsb (String.eqb x) seen then seen
                                    else (seen ++ [x])%list)
                     (map category reports) []) <->
             exists r, In r reports /\ category r = c).
  { intros c. rewrite Hin, in_map_iff. simpl. split.
    - intros [[]|(r & Hr & Hinr)]. eauto.
    - intros (r & Hinr & Hr). right. eauto. }
  split; [apply Hnd; constructor|]. split; [exact Hmem|].
  intros c sortBy Hc. apply Hmem in Hc. destruct Hc as (r & Hr & Hcat).
  assert (Hp : In r (ViewReports.filteredReports reports "" "all" c sortBy)).
  { unfold ViewReports.filteredReports. rewrite In_sorted.
    unfold ViewReports.filtered. apply filter_In. split; [assumption|].
    unfold ViewReports.matchesSearch, ViewReports.matchesStatus,
      ViewReports.matchesCategory.
    rewrite toLowerCase_empty, includes_empty, Hcat, !String.eqb_refl.
    simpl. apply orb_true_r. }
  intros E. rewrite E in Hp. contradiction.
Qed.

(** ** The projection as a function of its inputs *)

Lemma compareReports_sortKey `{Platform} (sortBy : string) (a b : Issue) :
  ViewReports.compareReports sortBy a b <= 0
  <-> sortKey sortBy a <= sortKey sortBy b.
Proof.
  unfold ViewReports.compareReports, sortKey.
  destruct (sortBy =? "popular")%string; [lia|].
  destruct (sortBy =? "priority")%string; [lia|].
  destruct (sortBy =? "newest")%string eqn:En.
  - apply String.eqb_eq in En. subst sortBy. simpl. lia.
  - destruct (sortBy =? "oldest")%string; lia.
Qed.

Lemma filter_all_true {A : Type} (p : A -> bool) (l : list A) :
  (forall x, In x l -> p x = true) -> filter p l = l.
Proof.
  intros Hp. induction l as [|x l IH]; [reflexivity|].
  simpl. rewrite Hp by (left; reflexivity). f_equal. apply IH.
  intros y Hy. apply Hp. right. exact Hy.
Qed.

Lemma sorted_sorted `{Platform} (sortBy : string) (l : list Issue) :
  ViewReports.sorted sortBy (ViewReports.sorted sortBy l)
  = ViewReports.sorted sortBy l.
Proof.
  symmetry. unfold ViewReports.sorted at 1.
  apply (Array_sort_unique _ (sortKey sortBy)).
  - apply compareReports_sortKey.
  - apply Array_sort_sorted. apply compareReports_sortKey.
  - intros v. reflexivity.
Qed.

(** X5. Deriving the projection again from the projection, with the same
    inputs, changes nothing: what is shown is already filtered and already
    in order. *)
Theorem projection_idempotent `{Platform} (reports : list Issue)
        (searchTerm statusFilter categoryFilter sortBy : string) :
  let shown :=
    ViewReports.filteredReports reports searchTerm statusFilter
                                categoryFilter sortBy in
  ViewReports.filteredReports shown searchTerm statusFilter categoryFilter
                              sortBy
  = shown.
Proof.
  intros shown. subst shown. unfold ViewReports.filteredReports.
  unfold ViewReports.filtered at 1. rewrite filter_all_true.
  - apply sorted_sorted.
  - intros r Hr. rewrite In_sorted in Hr. unfold ViewReports.filtered in Hr.
    apply filter_In in Hr. tauto.
Qed.

(** X6. Whenever the page offers the "Clear Filters" button, pressing it brings
    back every report of the collection, so the grid is no longer empty;
    the "Clear" button of the filter bar does the same, from any inputs. *)
Theorem clear_filters_shows_all `{Platform} (st : ViewReports.State)
        (f : ViewReportsPage.Filters) (message : string) :
  ViewReportsPage.emptyState
    st (ViewReportsPage.projection (ViewReports.reports st) f)
  = Some (message, true) ->
  let shown :=
    ViewReportsPage.projection (ViewReports.reports st)
                               (ViewReportsPage.clearFilters f) in
  Permutation (ViewReports.reports st) shown
  /\ shown <> []
  /\ ViewReportsPage.emptyState st shown = None
  /\ Permutation (ViewReports.reports st)
       (ViewReportsPage.projection (ViewReports.reports st)
                                   (ViewReportsPage.clear f)).
Proof.
  intros Hempty shown. subst shown.
  unfold ViewReportsPage.projection, ViewReportsPage.clearFilters,
    ViewReportsPage.clear. simpl.
  assert (Hperm : forall sortBy,
             Permutation (ViewReports.reports st)
                         (ViewReports.filteredReports
                            (ViewReports.reports st) "" "all" "all" sortBy)).
  { intros sortBy. unfold ViewReports.filteredReports.
    rewrite filtered_all. apply Array_sort_perm. }
  unfold ViewReportsPage.emptyState in Hempty.
  destruct (negb (ViewReports.loading st) && _ && _) eqn:Econd;
    [|discriminate].
  injection Hempty as _ Hbutton. apply Nat.ltb_lt in Hbutton.
  assert (Hne : ViewReports.filteredReports
                  (ViewReports.reports st) "" "all" "all"
                  (ViewReportsPage.sortBy f) <> []).
  { intros E. pose proof (Permutation_length
                            (Hperm (ViewReportsPage.sortBy f))) as Hl.
    rewrite E in Hl. simpl in Hl. lia. }
  split; [apply Hperm|]. split; [exact Hne|]. split; [|apply Hperm].
  unfold ViewReportsPage.emptyState.
  destruct (ViewReports.filteredReports _ _ _ _ _); [contradiction|].
  simpl. rewrite !andb_false_r. reflexivity.
Qed.

Lemma clear_filters_shows_all_witness :
  let st :=
    {| ViewReports.reports := [Scenario.issue1; Scenario.issue2];
       ViewReports.loading := false; ViewReports.error := None |} in
  let f :=
    {| ViewReportsPage.searchTerm := "streetlight";
       ViewReportsPage.statusFilter := "all";
       ViewReportsPage.categoryFilter := "all";
       ViewReportsPage.sortBy := "oldest" |} in
  @ViewReportsPage.projection utcPlatform (ViewReports.reports st)
                              (ViewReportsPage.clearFilters f)
  <> [].
Proof.
  intros st f.
  apply (proj1 (proj2 (@clear_filters_shows_all utcPlatform st f
                         "No issues match your current filters."
                         eq_refl))).
Defined.

(** ** The export *)

(** X7. The export writes no file for an empty projection and raises the "No
    Data to Export" notice; for any other projection it writes one file,
    with one line per report of the projection, in its order, an absent
    upvote count or priority score being written as 0, and then reports the
    number of lines written. *)
Theorem export_lines `{Platform} (toLocaleString : Z -> string) (now : Z)
        (filteredReports : list ViewReportsPage.Row) :
  let effects :=
    ViewReportsPage.handleExport toLocaleString now filteredReports in
  (filteredReports = [] ->
   Forall (fun e => writes_file e = false) effects
   /\ exists d,
       effects = [ViewReportsPage.toast
                    {| toast_title := "No Data to Export";
                       toast_description := d;
                       toast_destructive := true |}])
  /\ (filteredReports <> [] ->
      exists rows fileName,
        effects
        = [ViewReportsPage.XLSX_writeFile "Reports" rows fileName;
           ViewReportsPage.toast
             {| toast_title := "Export Successful";
                toast_description :=
                  (ViewReportsPage.lengthString (List.length rows)
                   ++ " reports have been exported.")%string;
                toast_destructive := false |}]
        /\ map ViewReportsPage.ID rows
           = map (fun r => id (ViewReportsPage.issue r)) filteredReports
        /\ map ViewReportsPage.Upvotes rows
           = map (fun r => or0 (upvotes_count (ViewReportsPage.issue r)))
                 filteredReports
        /\ map ViewReportsPage.Priority_Score rows
           = map (fun r => or0 (priority_score (ViewReportsPage.issue r)))
                 filteredReports).
Proof.
  intros effects. subst effects. unfold ViewReportsPage.handleExport. split.
  - intros ->. simpl. split; [repeat constructor | eexists; reflexivity].
  - intros Hne. destruct filteredReports as [|r0 l]; [contradiction|].
    cbn [List.length Nat.eqb].
    exists (map (ViewReportsPage.toExportRow toLocaleString) (r0 :: l)),
      ("community_reports_" ++ ViewReportsPage.isoDate now ++ ".xlsx")%string.
    split; [rewrite length_map; reflexivity|].
    rewrite !map_map. repeat split.
Qed.

Lemma export_lines_witness :
  exists d,
    @ViewReportsPage.handleExport utcPlatform (fun _ => ""%string) 0 []
    = [ViewReportsPage.toast
         {| toast_title := "No Data to Export";
            toast_description := d;
            toast_destructive := true |}].
Proof.
  apply (proj2 (proj1 (@export_lines utcPlatform (fun _ => ""%string) 0 [])
                      eq_refl)).
Defined.

(** ** The order of the buckets *)

Lemma existsb_eqb_In (x : string) (l : list string) :
  existsb (String.eqb x) l = true <-> In x l.
Proof.
  rewrite existsb_exists. split.
  - intros (y & Hy & E). apply String.eqb_eq in E. subst. exact Hy.
  - intros Hx. exists x. split; [assumption | apply String.eqb_refl].
Qed.

Lemma Set_values_snoc (l : list string) (x : string) :
  ViewReportsPage.Set_values (l ++ [x])
  = if existsb (String.eqb x) (ViewReportsPage.Set_values l)
    then ViewReportsPage.Set_values l
    else (ViewReportsPage.Set_values l ++ [x])%list.
Proof.
  unfold ViewReportsPage.Set_values. rewrite fold_left_app. reflexivity.
Qed.

(** The keys of a grouping fold that are not array indices come in the order
    in which they first occur in the input. *)
Lemma keys_group_rest {A V : Type} (key : A -> string) (init : string -> V)
      (upd : A -> V -> V) (l : list A) :
  filter (fun k => negb (isArrayIndex k)) (Object_keys (group key init upd l))
  = ViewReportsPage.Set_values
      (filter (fun k => negb (inherited k) && negb (isArrayIndex k))
              (map key l)).
Proof.
  induction l as [|x l IH] using rev_ind; [reflexivity|].
  rewrite fold_group_snoc, keys_group_step, map_app, filter_app.
  cbn [map filter].
  assert (Hin : In (key x) (Object_keys (group key init upd l)) ->
                isArrayIndex (key x) = false ->
                existsb (String.eqb (key x))
                        (ViewReportsPage.Set_values
                           (filter (fun k => negb (inherited k)
                                             && negb (isArrayIndex k))
                                   (map key l))) = true).
  { intros Hk Hi. apply existsb_eqb_In. rewrite <- IH. apply filter_In.
    split; [exact Hk|]. rewrite Hi. reflexivity. }
  destruct (get (group key init upd l) (key x)) eqn:E.
  - assert (Hk : In (key x) (Object_keys (group key init upd l))).
    { destruct (in_dec string_dec (key x)
                       (Object_keys (group key init upd l))) as [|Hn];
        [assumption|].
      apply get_None_keys in Hn. congruence. }
    destruct (inherited (key x)); simpl; [rewrite app_nil_r; exact IH|].
    destruct (isArrayIndex (key x)) eqn:Ei; simpl;
      [rewrite app_nil_r; exact IH|].
    rewrite Set_values_snoc, (Hin Hk eq_refl). exact IH.
  - destruct (inherited (key x)); simpl; [rewrite app_nil_r; exact IH|].
    rewrite keys_add_rest, IH.
    destruct (isArrayIndex (key x)) eqn:Ei; simpl;
      [rewrite !app_nil_r; reflexivity|].
    rewrite Set_values_snoc.
    destruct (existsb _ _) eqn:Ex; [|reflexivity].
    exfalso. apply existsb_eqb_In in Ex. rewrite <- IH in Ex.
    apply filter_In in Ex. destruct Ex as [Ex _].
    apply get_None_keys in E. contradiction.
Qed.

(** When no key is an array index or names an inherited member, the keys of
    a grouping fold come in the order in which they first occur in the
    input. *)
Lemma keys_group_order {A V : Type} (key : A -> string) (init : string -> V)
      (upd : A -> V -> V) (l : list A) :
  (forall x, In x l -> inherited (key x) = false) ->
  (forall x, In x l -> isArrayIndex (key x) = false) ->
  Object_keys (group key init upd l) = ViewReportsPage.Set_values (map key l).
Proof.
  intros Hinh Hidx.
  rewrite <- (filter_all_true (fun k => negb (isArrayIndex k))
                (Object_keys (group key init upd l))).
  - rewrite keys_group_rest. f_equal. apply filter_all_true.
    intros k Hk. apply in_map_iff in Hk. destruct Hk as (x & <- & Hx).
    rewrite (Hinh x Hx), (Hidx x Hx). reflexivity.
  - intros k Hk. apply In_keys_group in Hk. destruct Hk as (_ & x & Hx & <-).
    rewrite (Hidx x Hx). reflexivity.
Qed.

Lemma length_values_keys {V : Type} (o : obj V) :
  List.length (Object_values o) = List.length (Object_keys o).
Proof. unfold Object_values, Object_keys. rewrite !length_map. reflexivity. Qed.

Lemma Set_values_nil_iff (l : list string) :
  ViewReportsPage.Set_values l = [] <-> l = [].
Proof.
  split; [|intros ->; reflexivity].
  intros E. destruct l as [|x l]; [reflexivity|]. exfalso.
  destruct (Set_values_fold (x :: l) []) as [_ Hin].
  unfold ViewReportsPage.Set_values in E. specialize (Hin x).
  cbv zeta in Hin. rewrite E in Hin. simpl in Hin. tauto.
Qed.

Lemma sumZ_indicator_countZ {A : Type} (p : A -> bool) (l : list A) :
  sumZ (map (fun x => if p x then 1 else 0) l) = countZ p l.
Proof.
  induction l as [|x l IH]; [reflexivity|].
  rewrite countZ_cons. simpl. rewrite IH. reflexivity.
Qed.

(** ** Monthly totals, summed *)

(** X11. The monthly chart lists the months in the order in which they first
    occur in the fetched rows, not in calendar order; it is empty only for
    an empty table; in every bucket the resolved count is at most the
    total; the totals add up to the number of issues and the resolved counts
    to the number of issues whose status is "resolved". *)
Theorem monthly_chart_sums `{Platform} (issues : list Issue) :
  let out := Aggregators.processMonthlyReports issues in
  map MonthlyReportData.month out
  = ViewReportsPage.Set_values
      (map (fun i => formatMonth (created_at i)) issues)
  /\ (out = [] <-> issues = [])
  /\ Forall (fun b => 0 <= MonthlyReportData.resolved b
                           <= MonthlyReportData.total b) out
  /\ sumZ (map MonthlyReportData.total out) = Z.of_nat (List.length issues)
  /\ sumZ (map MonthlyReportData.resolved out)
     = countZ (fun i => (status i =? "resolved")%string) issues.
Proof.
  intros out. subst out. unfold Aggregators.processMonthlyReports.
  rewrite monthly_buckets_group.
  assert (Hkeys : map MonthlyReportData.month
                      (Object_values
                         (group monthOf monthly_init monthly_upd issues))
                  = ViewReportsPage.Set_values (map monthOf issues)).
  { rewrite map_values_group.
    - apply keys_group_order; intros i _;
        [apply monthOf_own | apply monthOf_not_index].
    - intros k g. rewrite monthly_bucket. reflexivity. }
  split; [exact Hkeys|]. split.
  { split.
    - intros E. rewrite E in Hkeys. simpl in Hkeys. symmetry in Hkeys.
      apply (proj1 (Set_values_nil_iff _)) in Hkeys.
      destruct issues; [reflexivity | discriminate Hkeys].
    - intros ->. reflexivity. }
  split.
  { apply Forall_forall. intros b Hb. apply In_values_group in Hb.
    destruct Hb as (i & _ & _ & ->). rewrite monthly_bucket. simpl.
    split; [apply countZ_nonneg|]. unfold countZ.
    apply inj_le. apply filter_length_le. }
  split.
  { apply (total_of_group_own monthOf monthly_init monthly_upd
                              MonthlyReportData.total);
      [reflexivity | intros; reflexivity | intros i _; apply monthOf_own]. }
  rewrite <- (sumZ_indicator_countZ isResolvedStatus).
  apply (total_of_group_weighted_own monthOf monthly_init monthly_upd
           MonthlyReportData.resolved
           (fun i => if isResolvedStatus i then 1 else 0));
    [reflexivity| |intros i _; apply monthOf_own].
  intros x v. unfold monthly_upd. simpl.
  destruct (isResolvedStatus x); lia.
Qed.

(** ** The ranking of the hotspots *)

Lemma StronglySorted_app_inv {A : Type} (R : A -> A -> Prop)
      (l1 l2 : list A) :
  StronglySorted R (l1 ++ l2) ->
  forall a b, In a l1 -> In b l2 -> R a b.
Proof.
  induction l1 as [|x l1 IH]; intros Hs a b Ha Hb; [contradiction|].
  simpl in Hs. inversion Hs as [|? ? Hs' Hall]; subst.
  destruct Ha as [->|Ha].
  - rewrite Forall_forall in Hall. apply Hall. apply in_or_app. right.
    exact Hb.
  - apply IH; assumption.
Qed.

Lemma sumZ_app (l1 l2 : list Z) : sumZ (l1 ++ l2) = sumZ l1 + sumZ l2.
Proof. induction l1 as [|x l1 IH]; simpl; lia. Qed.

Lemma sumZ_nonneg (l : list Z) : Forall (fun x => 0 <= x) l -> 0 <= sumZ l.
Proof. induction 1; simpl; lia. Qed.

Lemma hotspots_ranked_counts (issues : list Issue) :
  Forall (fun b => 1 <= LocationHotspotData.count b)
         (Aggregators.hotspots_ranked issues).
Proof.
  apply Forall_forall. intros b Hb. apply In_hotspots_ranked in Hb.
  destruct Hb as (i & Hi & _ & ->). simpl.
  apply (countZ_pos _ _ i Hi). apply String.eqb_refl.
Qed.

(** The number of keys of a grouping fold is the number of distinct keys of
    the input that do not name an inherited member. *)
Lemma length_keys_group {A V : Type} (key : A -> string) (init : string -> V)
      (upd : A -> V -> V) (l : list A) :
  List.length (Object_keys (group key init upd l))
  = List.length
      (ViewReportsPage.Set_values
         (filter (fun k => negb (inherited k)) (map key l))).
Proof.
  apply Permutation_length. apply NoDup_Permutation.
  - apply NoDup_keys_group.
  - apply (Set_values_fold _ []). constructor.
  - intros k. rewrite In_keys_group.
    pose proof (proj2 (Set_values_fold
                         (filter (fun k => negb (inherited k)) (map key l))
                         []) k) as Hin.
    cbv zeta in Hin. unfold ViewReportsPage.Set_values. rewrite Hin.
    rewrite filter_In, in_map_iff. simpl. split.
    + intros (Hinh & x & Hx & <-). right. split; [eauto|].
      rewrite Hinh. reflexivity.
    + intros [[]|[(x & <- & Hx) Hinh]]. split; [|eauto].
      destruct (inherited (key x)); [discriminate | reflexivity].
Qed.

(** X12. What the cut to ten leaves out. The ranking has one bucket per
    distinct place that does not name a member of [Object.prototype]; no
    bucket that is cut has a larger count than a bucket that is kept; with
    at most ten buckets nothing is cut and the counts shown add up to the
    number of issues that have a bucket, and otherwise they add up to less;
    and the chart is empty exactly when no issue has a bucket, as for an
    empty table. *)
Theorem hotspots_cut (issues : list Issue) :
  let all := Aggregators.hotspots_ranked issues in
  let out := Aggregators.processLocationHotspots issues in
  let cut := skipn 10 all in
  let counted := countZ (fun i => negb (inherited (place i))) issues in
  all = (out ++ cut)%list
  /\ List.length all
     = List.length
         (ViewReportsPage.Set_values
            (filter (fun k => negb (inherited k)) (map place issues)))
  /\ (forall a b, In a out -> In b cut ->
        LocationHotspotData.count a >= LocationHotspotData.count b)
  /\ ((List.length all <= 10)%nat ->
      out = all /\ sumZ (map LocationHotspotData.count out) = counted)
  /\ ((10 < List.length all)%nat ->
      sumZ (map LocationHotspotData.count out) < counted)
  /\ counted <= Z.of_nat (List.length issues)
  /\ (out = [] <-> counted = 0)
  /\ (issues = [] -> out = []).
Proof.
  intros all out cut counted. subst all out cut counted.
  unfold Aggregators.processLocationHotspots, slice0.
  pose proof (firstn_skipn 10 (Aggregators.hotspots_ranked issues)) as Happ.
  pose proof (hotspots_ranked_sorted issues) as Hsorted.
  pose proof (hotspots_ranked_sum issues) as Hsum.
  pose proof (hotspots_ranked_counts issues) as Hcounts.
  assert (Hlen : List.length (Aggregators.hotspots_ranked issues)
                 = List.length
                     (ViewReportsPage.Set_values
                        (filter (fun k => negb (inherited k))
                                (map place issues)))).
  { rewrite <- (Permutation_length (hotspots_ranked_perm issues)).
    rewrite length_values_keys, hotspot_buckets_group.
    apply length_keys_group. }
  split; [symmetry; exact Happ|]. split; [exact Hlen|]. split.
  { rewrite <- Happ in Hsorted. apply StronglySorted_app_inv. exact Hsorted. }
  split.
  { intros Hle. rewrite firstn_all2 by exact Hle. split; [reflexivity|].
    exact Hsum. }
  split.
  { intros Hgt. rewrite <- Happ, map_app, sumZ_app in Hsum.
    rewrite <- Happ in Hcounts. apply Forall_app in Hcounts.
    destruct Hcounts as [_ Hcut].
    destruct (skipn 10 (Aggregators.hotspots_ranked issues)) as [|b cut]
      eqn:Ecut.
    - exfalso.
      assert (Hl : List.length (skipn 10 (Aggregators.hotspots_ranked issues))
                   = 0%nat) by (rewrite Ecut; reflexivity).
      rewrite length_skipn in Hl. lia.
    - inversion Hcut as [|? ? Hb Hrest]; subst.
      change (sumZ (map LocationHotspotData.count (b :: cut)))
        with (LocationHotspotData.count b
              + sumZ (map LocationHotspotData.count cut)) in Hsum.
      assert (0 <= sumZ (map LocationHotspotData.count cut)).
      { apply sumZ_nonneg. apply Forall_map.
        eapply Forall_impl; [|exact Hrest]. simpl. intros; lia. }
      lia. }
  split.
  { unfold countZ. apply inj_le. apply filter_length_le. }
  split.
  - split.
    + intros E.
      assert (Hall : Aggregators.hotspots_ranked issues = []).
      { destruct (Aggregators.hotspots_ranked issues); [reflexivity|].
        discriminate E. }
      rewrite Hall in Hsum. simpl in Hsum. symmetry. exact Hsum.
    + intros E. rewrite E in Hsum.
      destruct (Aggregators.hotspots_ranked issues) as [|b rest];
        [reflexivity|].
      exfalso. inversion Hcounts as [|? ? Hb Hrest]; subst.
      change (sumZ (map LocationHotspotData.count (b :: rest)))
        with (LocationHotspotData.count b
              + sumZ (map LocationHotspotData.count rest)) in Hsum.
      assert (0 <= sumZ (map LocationHotspotData.count rest)).
      { apply sumZ_nonneg. apply Forall_map.
        eapply Forall_impl; [|exact Hrest]. simpl. intros; lia. }
      lia.
  - intros ->. reflexivity.
Qed.

Lemma hotspots_cut_witness :
  Aggregators.processLocationHotspots [Scenario.issue1; Scenario.issue2]
  = Aggregators.hotspots_ranked [Scenario.issue1; Scenario.issue2].
Proof.
  apply (hotspots_cut [Scenario.issue1; Scenario.issue2]).
  vm_compute. lia.
Defined.

(** X28. The location hotspot aggregation groups the issues by
    [location_name], an absent or empty name counting as "Unknown". Before
    the cut there is one bucket per place that occurs and does not name a
    member of [Object.prototype], each with the number of issues of that
    place, and the counts of all buckets add up to the number of issues of
    such places: to the number of input issues when no place names such a
    member. What is returned is the first ten buckets of the ranking, so at
    most ten, in descending order of count, buckets of equal count in the
    order in which the object lists them. Both dashboards run this
    aggregation. *)
Theorem hotspot_buckets_counted (issues : list Issue) :
  let all := Aggregators.hotspots_ranked issues in
  let out := Aggregators.processLocationHotspots issues in
  (forall i, location_name i = None \/ location_name i = Some ""%string ->
             place i = "Unknown"%string)
  /\ (forall i s, location_name i = Some s -> s <> ""%string -> place i = s)
  /\ out = firstn 10 all
  /\ (List.length out <= 10)%nat
  /\ StronglySorted
       (fun a b => LocationHotspotData.count a >= LocationHotspotData.count b)
       out
  /\ StableBy LocationHotspotData.count
       (Object_values (Aggregators.hotspot_buckets issues)) all
  /\ NoDup (map LocationHotspotData.location all)
  /\ (forall b,
        In b all <->
        exists i, In i issues
                  /\ inherited (place i) = false
                  /\ LocationHotspotData.location b = place i
                  /\ LocationHotspotData.count b
                     = countZ (fun j => (place j =? place i)%string) issues)
  /\ sumZ (map LocationHotspotData.count all)
     = countZ (fun i => negb (inherited (place i))) issues
  /\ ((forall i, In i issues -> inherited (place i) = false) ->
      sumZ (map LocationHotspotData.count all)
      = Z.of_nat (List.length issues))
  /\ Analytics.processLocationHotspots = Aggregators.processLocationHotspots
  /\ AnalyticsAlt.processLocationHotspots
     = Aggregators.processLocationHotspots.
Proof.
  intros all out. subst all out.
  pose proof (hotspots_ranked_perm issues) as Hperm.
  split.
  { intros i [Hi|Hi]; unfold place; rewrite Hi; reflexivity. }
  split.
  { intros i s Hi Hs. unfold place. rewrite Hi. simpl.
    destruct (String.eqb_spec s ""); [contradiction | reflexivity]. }
  split; [reflexivity|].
  split; [apply firstn_le_length|].
  split; [apply StronglySorted_firstn; apply hotspots_ranked_sorted|].
  split.
  { apply (descending_of_opp LocationHotspotData.count).
    - apply (Array_sort_sorted Aggregators.compareHotspots
               (fun b => - LocationHotspotData.count b)).
      intros a b. unfold Aggregators.compareHotspots. lia.
    - apply (Array_sort_stable Aggregators.compareHotspots
               (fun b => - LocationHotspotData.count b)).
      intros a b. unfold Aggregators.compareHotspots. lia. }
  split.
  { eapply Permutation_NoDup; [apply Permutation_map; exact Hperm|].
    rewrite hotspot_buckets_group, map_values_group.
    - apply NoDup_keys_group.
    - intros k g. rewrite hotspot_bucket. reflexivity. }
  split.
  { intros b. rewrite In_hotspots_ranked. split.
    - intros (i & Hi & Hinh & ->). exists i. auto.
    - intros (i & Hi & Hinh & Hloc & Hcnt). exists i.
      split; [assumption|]. split; [assumption|].
      destruct b as [l c]. simpl in *. subst. reflexivity. }
  split; [apply hotspots_ranked_sum|].
  split.
  { intros Hown. rewrite hotspots_ranked_sum. unfold countZ.
    rewrite filter_all_true; [reflexivity|].
    intros i Hi. rewrite (Hown i Hi). reflexivity. }
  split; reflexivity.
Qed.

Lemma hotspot_buckets_counted_witness :
  sumZ (map LocationHotspotData.count
            (Aggregators.hotspots_ranked [Scenario.issue1; Scenario.issue2]))
  = 2.
Proof.
  apply (hotspot_buckets_counted [Scenario.issue1; Scenario.issue2]).
  intros i [<-|[<-|[]]]; reflexivity.
Defined.

(** ** The category charts *)

Lemma map_mapi_from {A B C : Type} (f : B -> C) (g : A -> nat -> B)
      (h : A -> C) (i : nat) (l : list A) :
  (forall x k, f (g x k) = h x) -> map f (mapi_from i g l) = map h l.
Proof.
  intros Hfg. revert i. induction l as [|x l IH]; intros i; [reflexivity|].
  simpl. rewrite Hfg, IH. reflexivity.
Qed.

Lemma nth_error_mapi_from {A B : Type} (g : A -> nat -> B) (i k : nat)
      (l : list A) :
  nth_error (mapi_from i g l) k
  = option_map (fun x => g x (i + k)%nat) (nth_error l k).
Proof.
  revert i k. induction l as [|x l IH]; intros i [|k]; simpl;
    try reflexivity.
  - rewrite Nat.add_0_r. reflexivity.
  - rewrite IH. replace (S i + k)%nat with (i + S k)%nat by lia.
    reflexivity.
Qed.

Lemma In_mapi_from {A B : Type} (g : A -> nat -> B) (i : nat) (l : list A)
      (b : B) :
  In b (mapi_from i g l) -> exists x k, In x l /\ b = g x k.
Proof.
  revert i. induction l as [|x l IH]; intros i; simpl; [contradiction|].
  intros [<-|Hb].
  - exists x, i. auto.
  - destruct (IH _ Hb) as (y & k & Hy & ->). exists y, k. auto.
Qed.

Lemma StronglySorted_mapi_from {A B : Type} (R : A -> A -> Prop)
      (S' : B -> B -> Prop) (g : A -> nat -> B) (l : list A) :
  (forall x y i j, R x y -> S' (g x i) (g y j)) ->
  StronglySorted R l -> forall i, StronglySorted S' (mapi_from i g l).
Proof.
  intros HRS. induction 1 as [|a l Hs IH Hall]; intros i; simpl;
    constructor.
  - apply IH.
  - apply Forall_forall. intros b Hb. apply In_mapi_from in Hb.
    destruct Hb as (y & k & Hy & ->). apply HRS.
    rewrite Forall_forall in Hall. apply Hall. exact Hy.
Qed.

Lemma category_bucket k g :
  bucket_of category_init category_upd k g
  = {| Analytics.CategoryDistributionData.name := k;
       Analytics.CategoryDistributionData.count := Z.of_nat (List.length g);
       Analytics.CategoryDistributionData.fill := "" |}.
Proof.
  unfold bucket_of.
  assert (E : forall v,
             fold_left (fun v x => category_upd x v) g v
             = {| Analytics.CategoryDistributionData.name :=
                    Analytics.CategoryDistributionData.name v;
                  Analytics.CategoryDistributionData.count :=
                    Analytics.CategoryDistributionData.count v
                    + Z.of_nat (List.length g);
                  Analytics.CategoryDistributionData.fill :=
                    Analytics.CategoryDistributionData.fill v |}).
  { induction g as [|x g IH]; intros v.
    - destruct v. simpl. f_equal. lia.
    - simpl fold_left. rewrite IH.
      cbn [category_upd Analytics.CategoryDistributionData.name
           Analytics.CategoryDistributionData.count
           Analytics.CategoryDistributionData.fill List.length].
      f_equal. lia. }
  rewrite E. reflexivity.
Qed.

Lemma categoryAlt_bucket k g :
  bucket_of categoryAlt_init categoryAlt_upd k g
  = {| AnalyticsAlt.CategoryDistributionData.category := k;
       AnalyticsAlt.CategoryDistributionData.count :=
         Z.of_nat (List.length g) |}.
Proof.
  unfold bucket_of.
  assert (E : forall v,
             fold_left (fun v x => categoryAlt_upd x v) g v
             = {| AnalyticsAlt.CategoryDistributionData.category :=
                    AnalyticsAlt.CategoryDistributionData.category v;
                  AnalyticsAlt.CategoryDistributionData.count :=
                    AnalyticsAlt.CategoryDistributionData.count v
                    + Z.of_nat (List.length g) |}).
  { induction g as [|x g IH]; intros v.
    - destruct v. simpl. f_equal. lia.
    - simpl fold_left. rewrite IH.
      cbn [categoryAlt_upd AnalyticsAlt.CategoryDistributionData.category
           AnalyticsAlt.CategoryDistributionData.count List.length].
      f_equal. lia. }
  rewrite E. reflexivity.
Qed.

(** X13. The category chart of the primary dashboard: one slice per category
    that occurs and does not name a member of [Object.prototype], with the
    number of issues of that category, largest first; the counts add up to
    the number of issues of such categories, which is the number of issues
    when no category names such a member; and the slice at rank [k] (from
    0) is coloured with entry [k mod 6] of the palette, so the seventh slice
    has the colour of the first. *)
Theorem category_chart_ranked (issues : list Issue) :
  let out := Analytics.processCategoryDistribution issues in
  NoDup (map Analytics.CategoryDistributionData.name out)
  /\ (forall c,
        In c (map Analytics.CategoryDistributionData.name out) <->
        inherited c = false /\ exists i, In i issues /\ category i = c)
  /\ (forall b,
        In b out ->
        Analytics.CategoryDistributionData.count b
        = countZ (fun i => (category i
                            =? Analytics.CategoryDistributionData.name b)%string)
                 issues)
  /\ StronglySorted
       (fun a b => Analytics.CategoryDistributionData.count a
                   >= Analytics.CategoryDistributionData.count b) out
  /\ sumZ (map Analytics.CategoryDistributionData.count out)
     = countZ (fun i => negb (inherited (category i))) issues
  /\ ((forall i, In i issues -> inherited (category i) = false) ->
      sumZ (map Analytics.CategoryDistributionData.count out)
      = Z.of_nat (List.length issues))
  /\ (forall k b,
        nth_error out k = Some b ->
        Analytics.CategoryDistributionData.fill b
        = nth (k mod 6) Analytics.COLORS ""%string).
Proof.
  intros out. subst out. unfold Analytics.processCategoryDistribution, mapi.
  change (fold_left Analytics.category_step issues [])
    with (group category category_init category_upd issues).
  set (cmp := fun a b => Analytics.CategoryDistributionData.count b
                         - Analytics.CategoryDistributionData.count a).
  set (vals := Object_values (group category category_init category_upd
                                    issues)).
  set (g := fun item index =>
              {| Analytics.CategoryDistributionData.name :=
                   Analytics.CategoryDistributionData.name item;
                 Analytics.CategoryDistributionData.count :=
                   Analytics.CategoryDistributionData.count item;
                 Analytics.CategoryDistributionData.fill :=
                   nth (index mod List.length Analytics.COLORS)
                       Analytics.COLORS ""%string |}).
  pose proof (Array_sort_perm cmp vals) as Hperm.
  assert (Hnames : map Analytics.CategoryDistributionData.name
                       (mapi_from 0 g (Array_sort cmp vals))
                   = map Analytics.CategoryDistributionData.name
                         (Array_sort cmp vals))
    by (apply map_mapi_from; reflexivity).
  assert (Hcounts : map Analytics.CategoryDistributionData.count
                        (mapi_from 0 g (Array_sort cmp vals))
                    = map Analytics.CategoryDistributionData.count
                          (Array_sort cmp vals))
    by (apply map_mapi_from; reflexivity).
  assert (Hvals : map Analytics.CategoryDistributionData.name vals
                  = Object_keys (group category category_init category_upd
                                       issues)).
  { apply map_values_group. intros k l. rewrite category_bucket.
    reflexivity. }
  assert (Hsum : sumZ (map Analytics.CategoryDistributionData.count
                           (mapi_from 0 g (Array_sort cmp vals)))
                 = countZ (fun i => negb (inherited (category i))) issues).
  { rewrite Hcounts.
    rewrite <- (sumZ_perm _ _ (Permutation_map _ Hperm)).
    apply (total_of_group category category_init category_upd
                          Analytics.CategoryDistributionData.count);
      [reflexivity | intros; reflexivity]. }
  split.
  { rewrite Hnames. eapply Permutation_NoDup;
      [apply Permutation_map; exact Hperm|].
    rewrite Hvals. apply NoDup_keys_group. }
  split.
  { intros c.
    rewrite Hnames,
      <- (In_keys_group category category_init category_upd), <- Hvals.
    split.
    - apply Permutation_in. symmetry. apply Permutation_map. exact Hperm.
    - apply Permutation_in. apply Permutation_map. exact Hperm. }
  split.
  { intros b Hb. apply In_mapi_from in Hb. destruct Hb as (x & k & Hx & ->).
    simpl. eapply Permutation_in in Hx; [|symmetry; exact Hperm].
    apply In_values_group in Hx. destruct Hx as (i & Hi & _ & ->).
    rewrite category_bucket. reflexivity. }
  split.
  { apply (StronglySorted_mapi_from
             (fun a b => Analytics.CategoryDistributionData.count a
                         >= Analytics.CategoryDistributionData.count b)).
    - intros x y i j Hxy. exact Hxy.
    - eapply StronglySorted_impl;
        [|apply (Array_sort_sorted cmp
                   (fun b => - Analytics.CategoryDistributionData.count b))].
      + simpl. intros; lia.
      + intros a b. unfold cmp. lia. }
  split; [exact Hsum|]. split.
  { intros Hown. rewrite Hsum. unfold countZ.
    rewrite filter_all_true; [reflexivity|].
    intros i Hi. rewrite (Hown i Hi). reflexivity. }
  intros k b Hk. rewrite nth_error_mapi_from in Hk.
  destruct (nth_error (Array_sort cmp vals) k); [|discriminate].
  injection Hk as <-. reflexivity.
Qed.

Lemma category_chart_ranked_witness :
  sumZ (map Analytics.CategoryDistributionData.count
            (Analytics.processCategoryDistribution
               [Scenario.issue1; Scenario.issue2]))
  = 2.
Proof.
  apply (category_chart_ranked [Scenario.issue1; Scenario.issue2]).
  intros i [<-|[<-|[]]]; reflexivity.
Defined.

(** X14. The category chart of the alternate dashboard: one entry per category
    that occurs and does not name a member of [Object.prototype], with the
    number of issues of that category; the counts add up to the number of
    issues of such categories. The entries come in the order in which the
    object lists its keys: the categories that are array indices first, by
    ascending index, and then the other categories in the order in which
    they first occur in the fetched rows; so, when no category is an array
    index or names such a member, in the order of first occurrence. *)
Theorem category_chart_in_input_order (issues : list Issue) :
  let out := AnalyticsAlt.processCategoryDistribution issues in
  let cats := map AnalyticsAlt.CategoryDistributionData.category out in
  NoDup cats
  /\ (forall c,
        In c cats <->
        inherited c = false /\ exists i, In i issues /\ category i = c)
  /\ StronglySorted keyOrder cats
  /\ filter (fun c => negb (isArrayIndex c)) cats
     = ViewReportsPage.Set_values
         (filter (fun c => negb (inherited c) && negb (isArrayIndex c))
                 (map category issues))
  /\ ((forall i, In i issues ->
                 inherited (category i) = false
                 /\ isArrayIndex (category i) = false) ->
      cats = ViewReportsPage.uniqueCategories issues)
  /\ (forall b,
        In b out ->
        AnalyticsAlt.CategoryDistributionData.count b
        = countZ (fun i =>
                    (category i
                     =? AnalyticsAlt.CategoryDistributionData.category b)%string)
                 issues
        /\ 1 <= AnalyticsAlt.CategoryDistributionData.count b)
  /\ sumZ (map AnalyticsAlt.CategoryDistributionData.count out)
     = countZ (fun i => negb (inherited (category i))) issues.
Proof.
  intros out cats. subst out cats.
  unfold AnalyticsAlt.processCategoryDistribution.
  change (fold_left AnalyticsAlt.category_step issues [])
    with (group category categoryAlt_init categoryAlt_upd issues).
  rewrite map_values_group
    by (intros k g; rewrite categoryAlt_bucket; reflexivity).
  split; [apply NoDup_keys_group|].
  split; [intros c; apply In_keys_group|].
  split; [apply keys_group_sorted|].
  split; [apply keys_group_rest|].
  split.
  { intros Hplain. apply keys_group_order; intros i Hi; apply Hplain; exact Hi. }
  split.
  { intros b Hb. apply In_values_group in Hb.
    destruct Hb as (i & Hi & _ & ->).
    rewrite categoryAlt_bucket. simpl. split; [reflexivity|].
    apply (countZ_pos _ _ i Hi). apply String.eqb_refl. }
  apply (total_of_group category categoryAlt_init categoryAlt_upd
                        AnalyticsAlt.CategoryDistributionData.count);
    [reflexivity | intros; reflexivity].
Qed.

Lemma category_chart_in_input_order_witness :
  map AnalyticsAlt.CategoryDistributionData.category
      (AnalyticsAlt.processCategoryDistribution
         [Scenario.issue1; Scenario.issue2])
  = ViewReportsPage.uniqueCategories [Scenario.issue1; Scenario.issue2].
Proof.
  apply (category_chart_in_input_order [Scenario.issue1; Scenario.issue2]).
  intros i [<-|[<-|[]]]; split; reflexivity.
Defined.

(** Issues of the categories Pothole, 10, Other, 2, Pothole and toString, in
    this order: the chart lists 2, 10, Pothole, Other, and has no entry for
    toString. *)
Example category_chart_runs :
  let of_category := fun c =>
    mkIssue "0" "t" "d" c "new" None None None "2024-01-05" None false in
  map (fun b => (AnalyticsAlt.CategoryDistributionData.category b,
                 AnalyticsAlt.CategoryDistributionData.count b))
      (AnalyticsAlt.processCategoryDistribution
         (map of_category
              ["Pothole"; "10"; "Other"; "2"; "Pothole"; "toString"]%string))
  = [("2", 1); ("10", 1); ("Pothole", 2); ("Other", 1)]%string.
Proof. vm_compute. reflexivity. Qed.

(** ** Resolution times, in order *)

(** X15. The resolution-time chart has one entry per category of a considered
    issue that does not name a member of [Object.prototype], in the order
    in which the object lists its keys: the categories that are array
    indices first, by ascending index, then the other categories in the
    order in which they first occur among the considered issues. It is empty
    exactly when no considered issue has such a category, as when no issue
    is resolved with a resolution time; and an issue that is not considered
    changes nothing. *)
Theorem resolution_chart_order `{Platform} (issues : list Issue) :
  let considered := AnalyticsAlt.resolvedIssues issues in
  let out := AnalyticsAlt.processResolutionTimes issues in
  let cats := map AnalyticsAlt.ResolutionTimeData.category out in
  (forall c,
      In c cats <->
      inherited c = false /\ exists i, In i considered /\ category i = c)
  /\ StronglySorted keyOrder cats
  /\ filter (fun c => negb (isArrayIndex c)) cats
     = ViewReportsPage.Set_values
         (filter (fun c => negb (inherited c) && negb (isArrayIndex c))
                 (map category considered))
  /\ ((forall i, In i considered ->
                 inherited (category i) = false
                 /\ isArrayIndex (category i) = false) ->
      cats = ViewReportsPage.uniqueCategories considered)
  /\ (out = [] <->
      forall i, In i considered -> inherited (category i) = true)
  /\ (considered = [] -> out = [])
  /\ AnalyticsAlt.processResolutionTimes considered = out.
Proof.
  intros considered out cats. subst considered out cats.
  rewrite categories_processResolutionTimes, dataByCategory_group.
  split; [intros c; apply In_keys_group|].
  split; [apply keys_group_sorted|].
  split; [apply keys_group_rest|].
  split.
  { intros Hplain. apply keys_group_order; intros i Hi; apply Hplain; exact Hi. }
  split.
  { split.
    - intros E i Hi. destruct (inherited (category i)) eqn:Hinh;
        [reflexivity|]. exfalso.
      assert (Hin : In (category i)
                       (map AnalyticsAlt.ResolutionTimeData.category
                            (AnalyticsAlt.processResolutionTimes issues))).
      { rewrite categories_processResolutionTimes, dataByCategory_group.
        apply In_keys_group. eauto. }
      rewrite E in Hin. exact Hin.
    - intros Hall.
      destruct (AnalyticsAlt.processResolutionTimes issues) as [|b rest]
        eqn:E; [reflexivity|]. exfalso.
      assert (Hb : In b (AnalyticsAlt.processResolutionTimes issues))
        by (rewrite E; left; reflexivity).
      apply In_processResolutionTimes in Hb.
      destruct Hb as (i & Hi & Hinh & _).
      rewrite (Hall i Hi) in Hinh. discriminate Hinh. }
  split.
  { intros E. unfold AnalyticsAlt.processResolutionTimes,
      AnalyticsAlt.dataByCategory. rewrite E. reflexivity. }
  unfold AnalyticsAlt.processResolutionTimes, AnalyticsAlt.dataByCategory.
  assert (E : AnalyticsAlt.resolvedIssues
                (AnalyticsAlt.resolvedIssues issues)
              = AnalyticsAlt.resolvedIssues issues).
  { unfold AnalyticsAlt.resolvedIssues. apply filter_all_true.
    intros i Hi. apply filter_In in Hi. tauto. }
  rewrite E. reflexivity.
Qed.

Lemma resolution_chart_order_witness :
  map AnalyticsAlt.ResolutionTimeData.category
      (@AnalyticsAlt.processResolutionTimes utcPlatform
         [Scenario.issue1; Scenario.issue2])
  = ViewReportsPage.uniqueCategories
      (AnalyticsAlt.resolvedIssues [Scenario.issue1; Scenario.issue2]).
Proof.
  apply (@resolution_chart_order utcPlatform
           [Scenario.issue1; Scenario.issue2]).
  intros i [<-|[]]; split; reflexivity.
Defined.

(** ** The location of the report *)

Lemma or_else_nonempty (x : option string) (d : string) :
  d <> ""%string -> or_else x d <> ""%string.
Proof.
  intros Hd. unfold or_else. destruct x as [s|]; [|exact Hd].
  destruct (String.eqb_spec s ""); assumption.
Qed.

(** X16. The location effect asks for the position only while the dialog is open
    and no location is set. When it does, it always sets a location with a
    name that is not empty. With a position, the location has the
    coordinates reported, and its name is the locality of the geocoder; the
    city when the locality is absent or empty; the country when both are;
    "Unknown location" when all three are; and "Current location" when
    geocoding fails. When the position is refused the location is "Location
    unavailable" at coordinates 0, 0, with a notification. The other fields
    of the form are left as they are. *)
Theorem location_resolution (isOpen : bool) (geo : ReportForm.Geolocation)
        (rev : ReportForm.Geocode) (f : ReportModal.Form) :
  let out := ReportForm.locate isOpen geo rev f in
  (isOpen = false \/ ReportModal.location f <> None -> out = (f, []))
  /\ (isOpen = true -> ReportModal.location f = None ->
      exists loc,
        fst out = ReportForm.with_location f (Some loc)
        /\ ReportModal.name loc <> ""%string
        /\ In ReportForm.getCurrentPosition (snd out)
        /\ (geo = ReportForm.positionError ->
            loc = {| ReportModal.lat := 0%Q; ReportModal.lng := 0%Q;
                     ReportModal.name := "Location unavailable" |}
            /\ snd out
               = [ReportForm.getCurrentPosition; ReportForm.console_error;
                  ReportForm.toast
                    {| toast_title := "Location Access Required";
                       toast_description :=
                         "Please enable location services to report an issue.";
                       toast_destructive := true |}])
        /\ (forall la lo,
              geo = ReportForm.position la lo ->
              ReportModal.lat loc = la /\ ReportModal.lng loc = lo
              /\ snd out = [ReportForm.getCurrentPosition;
                            ReportForm.fetch_reverse_geocode la lo]
              /\ (rev = ReportForm.geocodeFailed ->
                  ReportModal.name loc = "Current location"%string)
              /\ (forall locality city countryName,
                    rev = ReportForm.geocoded locality city countryName ->
                    (forall s, locality = Some s -> s <> ""%string ->
                               ReportModal.name loc = s)
                    /\ (locality = None \/ locality = Some ""%string ->
                        (forall s, city = Some s -> s <> ""%string ->
                                   ReportModal.name loc = s)
                        /\ (city = None \/ city = Some ""%string ->
                            (forall s, countryName = Some s ->
                                       s <> ""%string ->
                                       ReportModal.name loc = s)
                            /\ (countryName = None
                                \/ countryName = Some ""%string ->
                                ReportModal.name loc
                                = "Unknown location"%string)))))).
Proof.
  intros out. subst out. unfold ReportForm.locate. split.
  - intros [-> | Hloc]; [reflexivity|].
    destruct (ReportModal.location f); [|contradiction].
    rewrite andb_false_r. reflexivity.
  - intros -> ->. simpl. destruct geo as [la lo|].
    + destruct rev as [locality city countryName|]; eexists;
        (split; [reflexivity|]); simpl.
      * split; [repeat apply or_else_nonempty; discriminate|].
        split; [auto|]. split; [discriminate|].
        intros la' lo' [= <- <-].
        split; [reflexivity|]. split; [reflexivity|].
        split; [reflexivity|]. split; [discriminate|].
        intros l c n [= <- <- <-]. split.
        { intros s -> Hs. simpl. apply String.eqb_neq in Hs. rewrite Hs.
          reflexivity. }
        intros Hl.
        assert (El : forall d, or_else locality d = d)
          by (intros d; destruct Hl as [-> | ->]; reflexivity).
        rewrite El. split.
        { intros s -> Hs. simpl. apply String.eqb_neq in Hs. rewrite Hs.
          reflexivity. }
        intros Hc.
        assert (Ec : forall d, or_else city d = d)
          by (intros d; destruct Hc as [-> | ->]; reflexivity).
        rewrite Ec. split.
        { intros s -> Hs. simpl. apply String.eqb_neq in Hs. rewrite Hs.
          reflexivity. }
        intros [-> | ->]; reflexivity.
      * split; [discriminate|]. split; [auto|]. split; [discriminate|].
        intros la' lo' [= <- <-]. repeat split; discriminate.
    + eexists. split; [reflexivity|]. simpl.
      split; [discriminate|]. split; [auto|]. split; [auto|].
      intros la lo Hc. discriminate Hc.
Qed.

Lemma location_resolution_witness :
  exists loc,
    fst (ReportForm.locate true (ReportForm.position 1 2)
           (ReportForm.geocoded (Some "") (Some "Pune") (Some "India"))
           ReportModal.cleared)
    = ReportForm.with_location ReportModal.cleared (Some loc)
    /\ ReportModal.name loc = "Pune"%string.
Proof.
  destruct (proj2 (location_resolution true (ReportForm.position 1 2)
                     (ReportForm.geocoded (Some "") (Some "Pune")
                                          (Some "India"))
                     ReportModal.cleared)
                  eq_refl eq_refl) as (loc & H1 & _ & _ & _ & H2).
  exists loc. split; [exact H1|].
  destruct (H2 1%Q 2%Q eq_refl) as (_ & _ & _ & _ & H3).
  destruct (H3 _ _ _ eq_refl) as [_ H4].
  destruct (H4 (or_intror eq_refl)) as [H5 _].
  apply (H5 "Pune"%string); [reflexivity | discriminate].
Defined.

Lemma step_unavailable (f : ReportModal.Form) (a : ReportForm.Action)
      (loc : ReportModal.Location) :
  ReportModal.location f = Some loc ->
  ReportModal.name loc = "Location unavailable"%string ->
  ReportModal.location (fst (ReportForm.step f a)) = Some loc
  /\ Forall (fun e => ReportForm.calls_gateway e = false)
            (snd (ReportForm.step f a)).
Proof.
  intros Hloc Hname. destruct a; simpl;
    try (split; [exact Hloc | constructor]).
  - destruct file; simpl; (split; [exact Hloc | constructor]).
  - unfold ReportForm.locate. rewrite Hloc, andb_false_r. simpl.
    split; [exact Hloc | constructor].
  - unfold ReportModal.handleSubmit. rewrite Hloc, Hname. simpl.
    split; [exact Hloc | repeat constructor].
Qed.

(** X17. A refused position is final. Once the location is "Location
    unavailable", no run of actions on the form (edits, photo changes,
    further runs of the location effect, submissions) changes the location
    or reaches the gateway: the effect does not ask again, and every
    submission is rejected. *)
Theorem unavailable_location_is_final (f : ReportModal.Form)
        (actions : list ReportForm.Action) (loc : ReportModal.Location) :
  ReportModal.location f = Some loc ->
  ReportModal.name loc = "Location unavailable"%string ->
  ReportModal.location (fst (ReportForm.run f actions)) = Some loc
  /\ Forall (fun e => ReportForm.calls_gateway e = false)
            (snd (ReportForm.run f actions)).
Proof.
  intros Hloc Hname. revert f Hloc.
  induction actions as [|a rest IH]; intros f Hloc.
  - simpl. split; [exact Hloc | constructor].
  - simpl. destruct (step_unavailable f a loc Hloc Hname) as [H1 H2].
    destruct (ReportForm.step f a) as [f1 e1]. simpl in H1, H2.
    destruct (IH f1 H1) as [H3 H4].
    destruct (ReportForm.run f1 rest) as [f2 e2]. simpl in *.
    split; [exact H3 | apply Forall_app; split; assumption].
Qed.

Lemma unavailable_location_is_final_witness :
  let f :=
    fst (ReportForm.locate true ReportForm.positionError
                           ReportForm.geocodeFailed ReportModal.cleared) in
  let w :=
    {| ReportModal.Date_now := "1704412800000";
       ReportModal.uploadError := false;
       ReportModal.publicUrl := fun n => n;
       ReportModal.insertError := false |} in
  Forall (fun e => ReportForm.calls_gateway e = false)
         (snd (ReportForm.run f
                 [ReportForm.setTitle "Pothole";
                  ReportForm.photoChange
                    (Some {| ReportModal.file_name := "a.jpg" |});
                  ReportForm.runLocate true (ReportForm.position 1 2)
                                       ReportForm.geocodeFailed;
                  ReportForm.submit w])).
Proof.
  intros f w.
  apply (unavailable_location_is_final f _
           {| ReportModal.lat := 0%Q; ReportModal.lng := 0%Q;
              ReportModal.name := "Location unavailable" |});
    reflexivity.
Defined.

(** ** What a submission sends *)

Lemma isEmpty_false (s : string) :
  ReportModal.isEmpty s = false <-> s <> ""%string.
Proof. unfold ReportModal.isEmpty. apply String.eqb_neq. Qed.

(** X18. A row is inserted only after the photo was uploaded without error, and
    only once. The row inserted has the status "new", carries the public
    address of the file just uploaded, has a title, category, description,
    street address and landmark that are not empty, and a location name
    other than "Location unavailable". *)
Theorem inserted_row_is_complete (w : ReportModal.World)
        (f : ReportModal.Form) (row : ReportModal.Row) :
  In (ReportModal.issues_insert row) (snd (ReportModal.handleSubmit w f)) ->
  ReportModal.uploadError w = false
  /\ ReportModal.row_status row = "new"%string
  /\ ReportModal.row_title row <> ""%string
  /\ ReportModal.row_category row <> ""%string
  /\ ReportModal.row_description row <> ""%string
  /\ ReportModal.row_street_address row <> ""%string
  /\ ReportModal.row_landmark row <> ""%string
  /\ ReportModal.row_location_name row <> "Location unavailable"%string
  /\ exists ph fileName pre post,
       ReportModal.photo f = Some ph
       /\ ReportModal.row_image_url row
          = Some (ReportModal.publicUrl w fileName)
       /\ snd (ReportModal.handleSubmit w f)
          = (pre ++ ReportModal.issues_insert row :: post)%list
       /\ In (ReportModal.storage_upload fileName ph) pre
       /\ Forall (fun e => is_insert e = false) pre
       /\ Forall (fun e => is_insert e = false) post.
Proof.
  unfold ReportModal.handleSubmit.
  destruct (ReportModal.location f) as [loc|];
    [|simpl; intros [H|[H|[]]]; discriminate H].
  destruct (String.eqb_spec (ReportModal.name loc) "Location unavailable")
    as [|Hname]; [simpl; intros [H|[H|[]]]; discriminate H|].
  destruct (ReportModal.photo f) as [ph|];
    [|simpl; intros [H|[H|[]]]; discriminate H].
  destruct (ReportModal.isEmpty (ReportModal.title f)) eqn:E1;
    [simpl; intros [H|[H|[]]]; discriminate H|].
  destruct (ReportModal.isEmpty (ReportModal.category f)) eqn:E2;
    [simpl; intros [H|[H|[]]]; discriminate H|].
  destruct (ReportModal.isEmpty (ReportModal.description f)) eqn:E3;
    [simpl; intros [H|[H|[]]]; discriminate H|].
  destruct (ReportModal.isEmpty (ReportModal.streetAddress f)) eqn:E4;
    [simpl; intros [H|[H|[]]]; discriminate H|].
  destruct (ReportModal.isEmpty (ReportModal.landmark f)) eqn:E5;
    [simpl; intros [H|[H|[]]]; discriminate H|].
  apply isEmpty_false in E1, E2, E3, E4, E5.
  cbn [orb]. unfold ReportModal.submit.
  destruct (ReportModal.uploadError w).
  { simpl. intros [H|[H|[H|[H|[]]]]]; discriminate H. }
  set (fileName := (ReportModal.Date_now w ++ "."
                    ++ ReportModal.lastSegment (ReportModal.file_name ph))%string).
  destruct (ReportModal.insertError w); simpl;
    (intros [H|[H|[H|[H|H]]]]; try discriminate H;
     [ injection H as <-; simpl;
       (split; [reflexivity|]); (split; [reflexivity|]);
       repeat (split; [assumption|]);
       exists ph, fileName,
         [ReportModal.preventDefault;
          ReportModal.storage_upload fileName ph;
          ReportModal.storage_getPublicUrl fileName];
       eexists; (split; [reflexivity|]); (split; [reflexivity|]);
       (split; [reflexivity|]); (split; [simpl; auto|]);
       split; repeat constructor
     | exfalso; destruct H as [H|[H|[]]]; discriminate H ]).
Qed.

Lemma inserted_row_is_complete_witness :
  let f :=
    {| ReportModal.category := "Pothole";
       ReportModal.description := "Deep hole";
       ReportModal.photo := Some {| ReportModal.file_name := "hole.jpg" |};
       ReportModal.isSubmitting := false;
       ReportModal.title := "Pothole on Main St";
       ReportModal.streetAddress := "1 Main St";
       ReportModal.landmark := "Town hall";
       ReportModal.location :=
         Some {| ReportModal.lat := 18.52%Q; ReportModal.lng := 73.86%Q;
                 ReportModal.name := "Pune" |} |} in
  let w :=
    {| ReportModal.Date_now := "1704412800000";
       ReportModal.uploadError := false;
       ReportModal.publicUrl := fun n => ("https://cdn/" ++ n)%string;
       ReportModal.insertError := true |} in
  let row :=
    {| ReportModal.row_title := "Pothole on Main St";
       ReportModal.row_category := "Pothole";
       ReportModal.row_description := "Deep hole";
       ReportModal.row_latitude := 18.52%Q;
       ReportModal.row_longitude := 73.86%Q;
       ReportModal.row_location_name := "Pune";
       ReportModal.row_image_url :=
         Some "https://cdn/1704412800000.jpg"%string;
       ReportModal.row_status := "new";
       ReportModal.row_street_address := "1 Main St";
       ReportModal.row_landmark := "Town hall" |} in
  In (ReportModal.issues_insert row) (snd (ReportModal.handleSubmit w f))
  /\ ReportModal.uploadError w = false.
Proof.
  intros f w row.
  assert (Hin : In (ReportModal.issues_insert row)
                   (snd (ReportModal.handleSubmit w f))).
  { simpl. right. right. right. left. reflexivity. }
  split; [exact Hin|].
  exact (proj1 (inserted_row_is_complete w f row Hin)).
Defined.

(** ** How a submission ends *)

Lemma handleSubmit_cases (w : ReportModal.World) (f : ReportModal.Form) :
  (~ located f /\ ReportModal.handleSubmit w f = (f, locationRequired))
  \/ (located f /\ ReportModal.photo f = None
      /\ ReportModal.handleSubmit w f = (f, photoRequired))
  \/ (located f /\ ReportModal.photo f <> None /\ ~ complete f
      /\ ReportModal.handleSubmit w f = (f, missingInformation))
  \/ (located f /\ complete f
      /\ exists loc ph,
           ReportModal.location f = Some loc
           /\ ReportModal.photo f = Some ph
           /\ ReportModal.handleSubmit w f
              = (fst (ReportModal.submit
                        w (ReportModal.with_isSubmitting f true) loc ph),
                 ReportModal.preventDefault
                 :: snd (ReportModal.submit
                           w (ReportModal.with_isSubmitting f true) loc ph))).
Proof.
  unfold ReportModal.handleSubmit.
  destruct (ReportModal.location f) as [loc|] eqn:El.
  - destruct (String.eqb_spec (ReportModal.name loc) "Location unavailable")
      as [Hu|Hu].
    + left. split; [|reflexivity]. intros (loc' & E & Hn). congruence.
    + assert (Hl : located f) by (exists loc; auto).
      destruct (ReportModal.photo f) as [ph|] eqn:Ep.
      * destruct (_ || _ || _ || _ || _) eqn:E.
        -- right. right. left. split; [assumption|].
           split; [discriminate|]. split; [|reflexivity].
           intros Hc. apply complete_spec in Hc. congruence.
        -- right. right. right. apply complete_spec in E.
           split; [assumption|]. split; [assumption|].
           exists loc, ph. split; [reflexivity|]. split; [reflexivity|].
           destruct (ReportModal.submit _ _ _ _). reflexivity.
      * right. left. auto.
  - left. split; [|reflexivity]. intros (loc' & E & _). congruence.
Qed.

(** X19. A submission ends in one of two ways. When it passes validation and the
    upload and the insert succeed, the form is cleared, the dialog is
    closed, and no error is notified. In every other case the dialog stays
    open, exactly one error is notified, and everything the user entered is
    kept, so the submission can be tried again. Either way the form is not
    left in the submitting state. *)
Theorem submission_outcomes (w : ReportModal.World) (f : ReportModal.Form) :
  let out := ReportModal.handleSubmit w f in
  (succeeds w f ->
   fst out = ReportModal.cleared
   /\ In ReportModal.onClose (snd out)
   /\ Forall (fun e => is_error_toast e = false) (snd out))
  /\ (~ succeeds w f ->
      (fst out = f \/ fst out = ReportModal.with_isSubmitting f false)
      /\ ~ In ReportModal.onClose (snd out)
      /\ List.length (filter is_error_toast (snd out)) = 1%nat)
  /\ (ReportModal.isSubmitting f = false ->
      ReportModal.isSubmitting (fst out) = false).
Proof.
  intros out. subst out. unfold succeeds.
  destruct (handleSubmit_cases w f)
    as [[Hn ->]|[(Hl & Hp & ->)|[(Hl & Hp & Hc & ->)|(Hl & Hc & loc & ph & El & Ep & ->)]]].
  - split; [tauto|]. split; [|simpl; auto]. intros _. simpl.
    split; [auto|]. split; [|reflexivity]. intros [H|[H|[]]]; discriminate H.
  - split; [tauto|]. split; [|simpl; auto]. intros _. simpl.
    split; [auto|]. split; [|reflexivity]. intros [H|[H|[]]]; discriminate H.
  - split; [tauto|]. split; [|simpl; auto]. intros _. simpl.
    split; [auto|]. split; [|reflexivity]. intros [H|[H|[]]]; discriminate H.
  - unfold ReportModal.submit.
    destruct (ReportModal.uploadError w) eqn:Eu.
    + simpl. split; [intros (_ & _ & _ & H & _); discriminate H|].
      split; [|reflexivity]. intros _. split; [right; reflexivity|].
      split; [|reflexivity].
      intros [H|[H|[H|[H|[]]]]]; discriminate H.
    + destruct (ReportModal.insertError w) eqn:Ei; simpl.
      * split; [intros (_ & _ & _ & _ & H); discriminate H|].
        split; [|reflexivity]. intros _. split; [right; reflexivity|].
        split; [|reflexivity].
        intros [H|[H|[H|[H|[H|[H|[]]]]]]]; discriminate H.
      * split.
        -- intros _. split; [reflexivity|]. split; [|repeat constructor].
           do 5 right. left. reflexivity.
        -- split; [|reflexivity]. intros Hn. exfalso. apply Hn.
           split; [assumption|]. split; [rewrite Ep; discriminate|].
           auto.
Qed.

Lemma submission_outcomes_witness :
  let f :=
    {| ReportModal.category := "Pothole";
       ReportModal.description := "Deep hole";
       ReportModal.photo := Some {| ReportModal.file_name := "hole.jpg" |};
       ReportModal.isSubmitting := false;
       ReportModal.title := "Pothole on Main St";
       ReportModal.streetAddress := "1 Main St";
       ReportModal.landmark := "Town hall";
       ReportModal.location :=
         Some {| ReportModal.lat := 18.52%Q; ReportModal.lng := 73.86%Q;
                 ReportModal.name := "Pune" |} |} in
  let w :=
    {| ReportModal.Date_now := "1704412800000";
       ReportModal.uploadError := true;
       ReportModal.publicUrl := fun n => n;
       ReportModal.insertError := false |} in
  fst (ReportModal.handleSubmit w f) = f
  \/ fst (ReportModal.handleSubmit w f) = ReportModal.with_isSubmitting f false.
Proof.
  intros f w.
  apply (proj1 (proj2 (submission_outcomes w f))).
  intros (_ & _ & _ & H & _). discriminate H.
Defined.

(** ** The name of the uploaded file *)

Lemma hasDot_app (a b : string) :
  hasDot (a ++ b) = hasDot a || hasDot b.
Proof.
  induction a as [|c a IH]; [reflexivity|].
  simpl. rewrite IH. apply orb_assoc.
Qed.

Lemma lastSegment_from_no_dot (seg s : string) :
  hasDot s = false ->
  ReportModal.lastSegment_from seg s = (seg ++ s)%string.
Proof.
  revert seg. induction s as [|c s IH]; intros seg Hs; simpl in *.
  - induction seg as [|d seg IHs]; simpl; congruence.
  - apply orb_false_iff in Hs. destruct Hs as [Hc Hs]. rewrite Hc.
    rewrite IH by exact Hs.
    clear. induction seg as [|d seg IHs]; simpl; congruence.
Qed.

Lemma lastSegment_from_after_dot (seg a e : string) :
  ReportModal.lastSegment_from seg (a ++ "." ++ e)
  = ReportModal.lastSegment_from "" e.
Proof.
  revert seg. induction a as [|c a IH]; intros seg; simpl.
  - reflexivity.
  - destruct (Ascii.eqb c "."); apply IH.
Qed.

Lemma hasDot_lastSegment_from (seg s : string) :
  hasDot seg = false -> hasDot (ReportModal.lastSegment_from seg s) = false.
Proof.
  revert seg. induction s as [|c s IH]; intros seg Hseg; simpl.
  - exact Hseg.
  - destruct (Ascii.eqb c ".") eqn:Ec.
    + apply IH. reflexivity.
    + apply IH. rewrite hasDot_app, Hseg. simpl. rewrite Ec. reflexivity.
Qed.

(** X20. The uploaded file is named by the time stamp, one dot, and what
    follows the last dot of the name of the photo, which has no dot in it;
    for a photo whose name has no dot, by the time stamp, one dot and the
    whole name. The upload is the first call of a submission. *)
Theorem upload_name_extension (w : ReportModal.World) (f : ReportModal.Form)
        (loc : ReportModal.Location) (ph : ReportModal.File) :
  (forall a e, hasDot e = false ->
               ReportModal.lastSegment (a ++ "." ++ e) = e)
  /\ (forall s, hasDot s = false -> ReportModal.lastSegment s = s)
  /\ (forall s, hasDot (ReportModal.lastSegment s) = false)
  /\ (exists rest,
        snd (ReportModal.submit w f loc ph)
        = ReportModal.storage_upload
            (ReportModal.Date_now w ++ "."
             ++ ReportModal.lastSegment (ReportModal.file_name ph)) ph
          :: rest)
  /\ (forall a e,
        ReportModal.file_name ph = (a ++ "." ++ e)%string ->
        hasDot e = false ->
        exists rest,
          snd (ReportModal.submit w f loc ph)
          = ReportModal.storage_upload
              (ReportModal.Date_now w ++ "." ++ e) ph :: rest)
  /\ (hasDot (ReportModal.file_name ph) = false ->
      exists rest,
        snd (ReportModal.submit w f loc ph)
        = ReportModal.storage_upload
            (ReportModal.Date_now w ++ "." ++ ReportModal.file_name ph) ph
          :: rest).
Proof.
  assert (H1 : forall a e, hasDot e = false ->
                           ReportModal.lastSegment (a ++ "." ++ e) = e).
  { intros a e He. unfold ReportModal.lastSegment.
    rewrite lastSegment_from_after_dot.
    apply lastSegment_from_no_dot. exact He. }
  assert (H2 : forall s, hasDot s = false -> ReportModal.lastSegment s = s).
  { intros s Hs. apply lastSegment_from_no_dot. exact Hs. }
  destruct (submit_uploads w f loc ph) as [rest Hrest].
  split; [exact H1|]. split; [exact H2|]. split.
  { intros s. apply hasDot_lastSegment_from. reflexivity. }
  split; [exists rest; exact Hrest|]. split.
  - intros a e Hn He. exists rest. rewrite Hrest, Hn, (H1 a e He).
    reflexivity.
  - intros Hn. exists rest. rewrite Hrest, (H2 _ Hn). reflexivity.
Qed.

(** A photo named "my.photo.jpeg", submitted at 1704412800000, is uploaded
    as "1704412800000.jpeg". *)
Example upload_name_runs :
  let w :=
    {| ReportModal.Date_now := "1704412800000";
       ReportModal.uploadError := true;
       ReportModal.publicUrl := fun n => n;
       ReportModal.insertError := false |} in
  hd_error
    (snd (ReportModal.submit w ReportModal.cleared
            {| ReportModal.lat := 1; ReportModal.lng := 2;
               ReportModal.name := "Pune" |}
            {| ReportModal.file_name := "my.photo.jpeg" |}))
  = Some (ReportModal.storage_upload "1704412800000.jpeg"
            {| ReportModal.file_name := "my.photo.jpeg" |}).
Proof. reflexivity. Qed.

(** ** The session mirror *)

Lemma get_remove (o : obj string) (k k' : string) :
  get (LocalStorage.remove o k) k'
  = if (k =? k')%string then None else get o k'.
Proof.
  induction o as [|[k0 v0] o IH]; simpl.
  - destruct (k =? k')%string; reflexivity.
  - destruct (String.eqb_spec k0 k) as [->|Hk0].
    + rewrite IH. destruct (String.eqb_spec k k'); reflexivity.
    + simpl. rewrite IH.
      destruct (String.eqb_spec k0 k') as [->|]; [|reflexivity].
      destruct (String.eqb_spec k k'); congruence.
Qed.

(** X21. The session flag is a round trip through the browser storage. After a
    login, a page load finds the session again and the protected route shows
    its content; after a logout, a page load finds none and the protected
    route goes to the login page. A login or logout that throws, because the
    storage refuses access, has changed nothing. *)
Theorem session_survives_reload (s : LocalStorage.t)
        (st : AuthProvider.State) :
  (forall s' st',
      AuthProvider.login s st = LocalStorage.ok (s', st') ->
      AuthProvider.isAuthenticated st' = true
      /\ AuthProvider.mount s' AuthProvider.initial
         = ({| AuthProvider.isAuthenticated := true;
               AuthProvider.loading := false |}, [])
      /\ ProtectedRoute.render
           (fst (AuthProvider.mount s' AuthProvider.initial))
         = ProtectedRoute.children)
  /\ (forall s' st',
        AuthProvider.logout s st = LocalStorage.ok (s', st') ->
        AuthProvider.isAuthenticated st' = false
        /\ AuthProvider.mount s' AuthProvider.initial
           = ({| AuthProvider.isAuthenticated := false;
                 AuthProvider.loading := false |}, [])
        /\ ProtectedRoute.render
             (fst (AuthProvider.mount s' AuthProvider.initial))
           = ProtectedRoute.Navigate "/admin-login" true)
  /\ (LocalStorage.refused s = None ->
      exists r1 r2,
        AuthProvider.login s st = LocalStorage.ok r1
        /\ AuthProvider.logout s st = LocalStorage.ok r2)
  /\ (forall m,
        LocalStorage.refused s = Some m ->
        AuthProvider.login s st = LocalStorage.thrown m
        /\ AuthProvider.logout s st = LocalStorage.thrown m).
Proof.
  unfold AuthProvider.login, AuthProvider.logout, LocalStorage.setItem,
    LocalStorage.removeItem.
  destruct (LocalStorage.refused s) as [m|] eqn:Er.
  - split; [intros s' st' E; discriminate E|].
    split; [intros s' st' E; discriminate E|].
    split; [intros E; discriminate E|].
    intros m' [= <-]. split; reflexivity.
  - split.
    { intros s' st' [= <- <-]. simpl.
      unfold AuthProvider.mount, LocalStorage.getItem. simpl.
      rewrite get_set, String.eqb_refl. simpl. auto. }
    split.
    { intros s' st' [= <- <-]. simpl.
      unfold AuthProvider.mount, LocalStorage.getItem. simpl.
      rewrite get_remove, String.eqb_refl. simpl. auto. }
    split; [intros _; eexists; eexists; split; reflexivity|].
    intros m E. discriminate E.
Qed.

Lemma session_survives_reload_witness :
  let s := {| LocalStorage.refused := None; LocalStorage.items := [] |} in
  let s' :=
    {| LocalStorage.refused := None;
       LocalStorage.items := [("isAuthenticated", "true")]%string |} in
  ProtectedRoute.render (fst (AuthProvider.mount s' AuthProvider.initial))
  = ProtectedRoute.children.
Proof.
  intros s s'.
  apply (proj1 (session_survives_reload s AuthProvider.initial) s'
               {| AuthProvider.isAuthenticated := true;
                  AuthProvider.loading := true |} eq_refl).
Defined.

(** X22. Loading the session always ends the loading state, also when reading
    the storage throws; it finds a session exactly when the storage can be
    read and holds the string "true" under [isAuthenticated]; so after the
    load the protected route shows its content in that case and goes to the
    login page in every other. *)
Theorem session_load (s : LocalStorage.t) :
  let st := fst (AuthProvider.mount s AuthProvider.initial) in
  AuthProvider.loading st = false
  /\ (AuthProvider.isAuthenticated st = true <->
      LocalStorage.refused s = None
      /\ get (LocalStorage.items s) "isAuthenticated" = Some "true"%string)
  /\ (ProtectedRoute.render st = ProtectedRoute.children <->
      LocalStorage.refused s = None
      /\ get (LocalStorage.items s) "isAuthenticated" = Some "true"%string)
  /\ (ProtectedRoute.render st = ProtectedRoute.children
      \/ ProtectedRoute.render st = ProtectedRoute.Navigate "/admin-login" true).
Proof.
  intros st. subst st. unfold AuthProvider.mount, LocalStorage.getItem.
  destruct (LocalStorage.refused s) as [m|]; simpl.
  - split; [reflexivity|].
    split; [split; [discriminate | intros [E _]; discriminate E]|].
    split; [split; [discriminate | intros [E _]; discriminate E]|].
    right. reflexivity.
  - split;
      [destruct (get (LocalStorage.items s) "isAuthenticated") as [v|];
       reflexivity|].
    destruct (get (LocalStorage.items s) "isAuthenticated") as [v|].
    + destruct (String.eqb_spec v "true") as [->|Hv];
        unfold ProtectedRoute.render; simpl.
      * repeat split; auto.
      * split; [split; [discriminate | intros [_ [= E]]; contradiction]|].
        split; [split; [discriminate | intros [_ [= E]]; contradiction]|].
        right. reflexivity.
    + unfold ProtectedRoute.render; simpl.
      split; [split; [discriminate | intros [_ E]; discriminate E]|].
      split; [split; [discriminate | intros [_ E]; discriminate E]|].
      right. reflexivity.
Qed.

(** X23. The login page and the protected route agree: the login page goes to
    the dashboard exactly when the protected route shows its content, and
    shows its form exactly when the protected route goes to the login page,
    so the two never send the user back and forth. *)
Theorem no_redirect_loop (auth : AuthProvider.State) :
  (AdminAuth.redirect auth = [navigate "/admin" true] <->
   ProtectedRoute.render auth = ProtectedRoute.children)
  /\ (AdminAuth.redirect auth = [] <->
      ProtectedRoute.render auth <> ProtectedRoute.children)
  /\ (AdminAuth.render auth = AdminAuth.form <->
      ProtectedRoute.render auth
      = ProtectedRoute.Navigate "/admin-login" true)
  /\ (AdminAuth.render auth = AdminAuth.form -> AdminAuth.redirect auth = []).
Proof.
  unfold AdminAuth.redirect, AdminAuth.render, ProtectedRoute.render.
  destruct (AuthProvider.loading auth), (AuthProvider.isAuthenticated auth);
    simpl; repeat split; intros; try discriminate; try reflexivity;
    try congruence.
Qed.

(** ** The role mirror *)

(** X24. The role does not outlive the session. Run without a session, the
    effect that follows the session sets the role flag to false and removes
    it from the storage; run with a session it changes nothing. So after a
    logout from the user menu, once the effect has run, neither flag is set
    and neither is stored, and the protected route goes to the login
    page. *)
Theorem role_cannot_outlive_session (s : LocalStorage.t)
        (auth : AuthProvider.State) (admin : AdminProvider.State) :
  LocalStorage.refused s = None ->
  (exists s',
      AdminProvider.sync false s admin
      = ({| AdminProvider.isAdmin := false;
            AdminProvider.loading := AdminProvider.loading admin |},
         LocalStorage.ok s')
      /\ get (LocalStorage.items s') "isAdmin" = None)
  /\ AdminProvider.sync true s admin = (admin, LocalStorage.ok s)
  /\ (exists s1 auth1 s2 admin2,
        UserMenu.handleLogout s auth
        = (s1, auth1, [signOut; navigate "/admin-login" false])
        /\ AdminProvider.sync (AuthProvider.isAuthenticated auth1) s1 admin
           = (admin2, LocalStorage.ok s2)
        /\ AuthProvider.isAuthenticated auth1 = false
        /\ AdminProvider.isAdmin admin2 = false
        /\ get (LocalStorage.items s2) "isAuthenticated" = None
        /\ get (LocalStorage.items s2) "isAdmin" = None
        /\ (AuthProvider.loading auth = false ->
            ProtectedRoute.render auth1
            = ProtectedRoute.Navigate "/admin-login" true)).
Proof.
  intros Hs.
  unfold AdminProvider.sync, AdminProvider.unsetAsAdmin,
    UserMenu.handleLogout, AuthProvider.logout, LocalStorage.removeItem.
  rewrite Hs. simpl. split; [|split].
  - eexists. split; [reflexivity|]. simpl. rewrite get_remove.
    reflexivity.
  - reflexivity.
  - do 4 eexists. split; [reflexivity|]. simpl.
    split; [reflexivity|]. split; [reflexivity|]. split; [reflexivity|].
    split; [simpl; rewrite !get_remove; reflexivity|].
    split; [simpl; rewrite get_remove; reflexivity|].
    intros Hl. unfold ProtectedRoute.render. simpl. rewrite Hl. reflexivity.
Qed.

Lemma role_cannot_outlive_session_witness :
  let s :=
    {| LocalStorage.refused := None;
       LocalStorage.items :=
         [("isAuthenticated", "true"); ("isAdmin", "true")]%string |} in
  AdminProvider.sync true s AdminProvider.initial
  = (AdminProvider.initial, LocalStorage.ok s).
Proof.
  intros s.
  apply (role_cannot_outlive_session
           s AuthProvider.initial AdminProvider.initial eq_refl).
Defined.

Lemma adminEffects_ok (JSON_parse : string -> LocalStorage.result bool)
      (s : LocalStorage.t) :
  LocalStorage.refused s = None ->
  exists e,
    Boot.adminEffects JSON_parse s
    = LocalStorage.ok
        ({| LocalStorage.refused := None;
            LocalStorage.items :=
              LocalStorage.remove (LocalStorage.items s) "isAdmin" |},
         {| AdminProvider.isAdmin := false;
            AdminProvider.loading := false |}, e).
Proof.
  intros Hs. unfold Boot.adminEffects, AdminProvider.mount,
    LocalStorage.getItem.
  rewrite Hs.
  destruct (truthy (get (LocalStorage.items s) "isAdmin")).
  - destruct (JSON_parse _); simpl;
      unfold LocalStorage.removeItem; rewrite Hs; eexists; reflexivity.
  - simpl. unfold LocalStorage.removeItem. rewrite Hs.
    eexists; reflexivity.
Qed.

(** X25. A page load does not restore the role. When the two providers come up
    together, whatever the storage holds and whatever order their effects
    run in, the load ends with the role flag false and removed from the
    storage, while the session flag is restored when it was stored as
    "true"; nothing else in the storage is touched. When the storage
    refuses access, the removal throws outside any handler. *)
Theorem role_lost_on_reload (JSON_parse : string -> LocalStorage.result bool)
        (adminFirst : bool) (s : LocalStorage.t) :
  (LocalStorage.refused s = None ->
   exists r,
     Boot.boot JSON_parse adminFirst s = LocalStorage.ok r
     /\ AdminProvider.isAdmin (Boot.admin r) = false
     /\ AdminProvider.loading (Boot.admin r) = false
     /\ AuthProvider.loading (Boot.auth r) = false
     /\ get (LocalStorage.items (Boot.storage r)) "isAdmin" = None
     /\ (forall k, k <> "isAdmin"%string ->
                   get (LocalStorage.items (Boot.storage r)) k
                   = get (LocalStorage.items s) k)
     /\ (AuthProvider.isAuthenticated (Boot.auth r) = true <->
         get (LocalStorage.items s) "isAuthenticated" = Some "true"%string)
     /\ (forall r',
           Boot.boot JSON_parse (negb adminFirst) s = LocalStorage.ok r' ->
           Boot.storage r' = Boot.storage r /\ Boot.auth r' = Boot.auth r
           /\ Boot.admin r' = Boot.admin r))
  /\ (forall m,
        LocalStorage.refused s = Some m ->
        Boot.boot JSON_parse adminFirst s = LocalStorage.thrown m).
Proof.
  split.
  - intros Hs. destruct (adminEffects_ok JSON_parse s Hs) as [e He].
    set (s1 := {| LocalStorage.refused := None;
                  LocalStorage.items :=
                    LocalStorage.remove (LocalStorage.items s) "isAdmin" |})
      in *.
    assert (Hmount1 : AuthProvider.mount s1 AuthProvider.initial
                      = AuthProvider.mount s AuthProvider.initial).
    { unfold AuthProvider.mount, LocalStorage.getItem. rewrite Hs.
      simpl. rewrite get_remove. reflexivity. }
    assert (Hres : forall auth1,
               Boot.resync auth1 s1
                 {| AdminProvider.isAdmin := false;
                    AdminProvider.loading := false |}
               = ({| AdminProvider.isAdmin := false;
                     AdminProvider.loading := false |}, LocalStorage.ok s1)).
    { intros auth1. unfold Boot.resync, AdminProvider.sync.
      destruct (AuthProvider.isAuthenticated auth1); reflexivity. }
    assert (Hboot : forall b,
               Boot.boot JSON_parse b s
               = LocalStorage.ok
                   {| Boot.storage := s1;
                      Boot.auth :=
                        fst (AuthProvider.mount s AuthProvider.initial);
                      Boot.admin :=
                        {| AdminProvider.isAdmin := false;
                           AdminProvider.loading := false |};
                      Boot.events :=
                        if b
                        then (e ++ snd (AuthProvider.mount
                                          s AuthProvider.initial))%list
                        else (snd (AuthProvider.mount
                                     s AuthProvider.initial) ++ e)%list |}).
    { intros b. unfold Boot.boot. rewrite He.
      destruct b.
      - rewrite Hmount1.
        destruct (AuthProvider.mount s AuthProvider.initial) as [a1 e1].
        rewrite Hres. reflexivity.
      - destruct (AuthProvider.mount s AuthProvider.initial) as [a1 e1].
        rewrite Hres. reflexivity. }
    eexists. split; [apply Hboot|]. simpl.
    split; [reflexivity|]. split; [reflexivity|].
    split; [apply session_load|].
    split; [rewrite get_remove; reflexivity|].
    split.
    { intros k Hk. rewrite get_remove.
      destruct (String.eqb_spec "isAdmin" k); congruence. }
    split.
    { destruct (session_load s) as (_ & Hiff & _). cbv zeta in Hiff.
      rewrite Hiff. tauto. }
    intros r' Hr'. rewrite Hboot in Hr'. injection Hr' as <-. auto.
  - intros m Hs. unfold Boot.boot, Boot.adminEffects, AdminProvider.mount,
      AdminProvider.sync, AdminProvider.unsetAsAdmin,
      LocalStorage.getItem, LocalStorage.removeItem.
    rewrite Hs. simpl. destruct adminFirst; [reflexivity|].
    destruct (AuthProvider.mount s AuthProvider.initial). reflexivity.
Qed.

Lemma role_lost_on_reload_witness :
  let JSON_parse := fun v : string =>
    if (v =? "true")%string then LocalStorage.ok true
    else LocalStorage.thrown "SyntaxError" in
  let s :=
    {| LocalStorage.refused := None;
       LocalStorage.items :=
         [("isAuthenticated", "true"); ("isAdmin", "true")]%string |} in
  exists r,
    Boot.boot JSON_parse true s = LocalStorage.ok r
    /\ AdminProvider.isAdmin (Boot.admin r) = false.
Proof.
  intros JSON_parse s.
  destruct (proj1 (role_lost_on_reload JSON_parse true s) eq_refl)
    as (r & H1 & H2 & _).
  exists r. split; assumption.
Defined.

(** ** The login *)

(** X26. The mirrors are set only for a login that the backend accepts and whose
    role check answers true. In that case both flags are set and stored and
    success is notified. In every other case the session, the role and the
    storage are as before and exactly one error is notified; the role check
    is asked only after a sign-in that returned a user; and the backend
    session is signed out again exactly when the role check answered
    false. Either way the page is no longer loading at the end. *)
Theorem login_guard (email password : string) (srv : AdminAuth.Server)
        (x : AdminAuth.Session) :
  let out := AdminAuth.handleLogin email password srv x in
  (granted srv x ->
   AuthProvider.isAuthenticated (AdminAuth.auth (fst out)) = true
   /\ AdminProvider.isAdmin (AdminAuth.admin (fst out)) = true
   /\ get (LocalStorage.items (AdminAuth.storage (fst out))) "isAuthenticated"
      = Some "true"%string
   /\ get (LocalStorage.items (AdminAuth.storage (fst out))) "isAdmin"
      = Some "true"%string
   /\ filter is_toast_success (snd out)
      = [toast_success "Login Successful" "Welcome back, admin!"]
   /\ filter is_toast_error (snd out) = [])
  /\ (~ granted srv x ->
      AdminAuth.auth (fst out) = AdminAuth.auth x
      /\ AdminAuth.admin (fst out) = AdminAuth.admin x
      /\ AdminAuth.storage (fst out) = AdminAuth.storage x
      /\ filter is_toast_success (snd out) = []
      /\ exists message,
           filter is_toast_error (snd out)
           = [toast_error "Authentication Failed" message])
  /\ (In rpc_is_admin (snd out) <->
      AdminAuth.authError srv = None /\ AdminAuth.user srv = true)
  /\ (In signOut (snd out) <->
      AdminAuth.authError srv = None /\ AdminAuth.user srv = true
      /\ AdminAuth.rpcError srv = None /\ AdminAuth.isAdmin srv = false)
  /\ AdminAuth.loading (fst out) = false.
Proof.
  intros out. subst out. unfold granted, AdminAuth.handleLogin.
  destruct (AdminAuth.authError srv) as [m|] eqn:Ea.
  { simpl. split; [intros (H & _); discriminate H|].
    split; [intros _; repeat split; eauto|].
    split; [split; [intros [H|[H|[]]]; discriminate H
                   | intros (H & _); discriminate H]|].
    split; [split; [intros [H|[H|[]]]; discriminate H
                   | intros (H & _); discriminate H]|].
    reflexivity. }
  destruct (AdminAuth.user srv) eqn:Eu; simpl.
  2:{ split; [intros (_ & H & _); discriminate H|].
      split; [intros _; repeat split; eauto|].
      split; [split; [intros [H|[H|[]]]; discriminate H
                     | intros (_ & H); discriminate H]|].
      split; [split; [intros [H|[H|[]]]; discriminate H
                     | intros (_ & H & _); discriminate H]|].
      reflexivity. }
  destruct (AdminAuth.rpcError srv) as [m|] eqn:Er.
  { simpl. split; [intros (_ & _ & H & _); discriminate H|].
    split; [intros _; repeat split; eauto|].
    split; [split; [auto | intros _; right; left; reflexivity]|].
    split; [split; [intros [H|[H|[H|[]]]]; discriminate H
                   | intros (_ & _ & H & _); discriminate H]|].
    reflexivity. }
  destruct (AdminAuth.isAdmin srv) eqn:Ei.
  2:{ simpl. split; [intros (_ & _ & _ & H & _); discriminate H|].
      split; [intros _; repeat split; eauto|].
      split; [split; [auto | intros _; right; left; reflexivity]|].
      split; [split; [auto | intros _; right; right; left; reflexivity]|].
      reflexivity. }
  unfold AuthProvider.login, AdminProvider.setAsAdmin, LocalStorage.setItem.
  destruct (LocalStorage.refused (AdminAuth.storage x)) as [m|] eqn:Es.
  { simpl. split; [intros (_ & _ & _ & _ & H); discriminate H|].
    split; [intros _; repeat split; eauto|].
    split; [split; [auto | intros _; right; left; reflexivity]|].
    split; [split; [intros [H|[H|[H|[]]]]; discriminate H
                   | intros (_ & _ & _ & H); discriminate H]|].
    reflexivity. }
  simpl. split.
  { intros _. split; [reflexivity|]. split; [reflexivity|].
    split.
    { rewrite get_set. simpl. rewrite get_set, String.eqb_refl.
      reflexivity. }
    split; [rewrite get_set, String.eqb_refl; reflexivity|].
    split; reflexivity. }
  split; [intros Hn; exfalso; apply Hn; repeat split; reflexivity|].
  split; [split; [auto | intros _; right; left; reflexivity]|].
  split; [split; [intros [H|[H|[H|[]]]]; discriminate H
                 | intros (_ & _ & _ & H); discriminate H]|].
  reflexivity.
Qed.

Lemma login_guard_witness :
  let srv :=
    {| AdminAuth.authError := None; AdminAuth.user := true;
       AdminAuth.rpcError := None; AdminAuth.isAdmin := false |} in
  let x :=
    {| AdminAuth.storage :=
         {| LocalStorage.refused := None; LocalStorage.items := [] |};
       AdminAuth.auth :=
         {| AuthProvider.isAuthenticated := false;
            AuthProvider.loading := false |};
       AdminAuth.admin :=
         {| AdminProvider.isAdmin := false;
            AdminProvider.loading := false |};
       AdminAuth.loading := false |} in
  AdminAuth.storage (fst (AdminAuth.handleLogin "a@b.c" "secret" srv x))
  = AdminAuth.storage x.
Proof.
  intros srv x.
  apply (proj1 (proj2 (login_guard "a@b.c" "secret" srv x))).
  intros (_ & _ & _ & H & _). discriminate H.
Defined.

(** ** Refining the projection *)

(** X8. Refining the inputs only narrows what is shown. A longer search text
    in ASCII, one that contains the previous text, shows no report that the
    previous text did not show; and a status or category filter other than
    "all", or a search text other than the empty one, shows no report that
    "all", or the empty text, did not show. *)
Theorem refining_narrows `{Platform} (reports : list Issue)
        (searchTerm before after statusFilter categoryFilter sortBy : string)
        (r : Issue) :
  (isAscii before = true -> isAscii searchTerm = true ->
   isAscii after = true ->
   In r (ViewReports.filteredReports
           reports (before ++ searchTerm ++ after) statusFilter
           categoryFilter sortBy) ->
   In r (ViewReports.filteredReports
           reports searchTerm statusFilter categoryFilter sortBy))
  /\ (In r (ViewReports.filteredReports
              reports searchTerm statusFilter categoryFilter sortBy) ->
      In r (ViewReports.filteredReports
              reports searchTerm "all" categoryFilter sortBy)
      /\ In r (ViewReports.filteredReports
                 reports searchTerm statusFilter "all" sortBy)
      /\ In r (ViewReports.filteredReports
                 reports "" statusFilter categoryFilter sortBy)).
Proof.
  unfold ViewReports.filteredReports, ViewReports.filtered.
  rewrite !In_sorted, !filter_In, !andb_true_iff, !matchesSearch_spec,
    !matchesStatus_spec, !matchesCategory_spec.
  assert (Hempty : forall s, SubstringNoCase "" s).
  { intros s. exists ""%string, (toLowerCase s).
    rewrite toLowerCase_empty. reflexivity. }
  split.
  - intros Hb Ht Ha.
    pose proof (fun s => SubstringNoCase_narrows before searchTerm after s
                           Hb Ht Ha) as Hsub.
    intros (Hin & [[Ht'|[Hd|(n & Hn & Hl)]] Hst] & Hcat);
      (split; [assumption|]); (split; [split; [|assumption]|assumption]);
      eauto 6.
  - intros (Hin & [Hs Hst] & Hcat). repeat split; auto.
Qed.

(** A report found by "hole" on the scenario is found by "ol". *)
Example refining_runs :
  In Scenario.issue1
     (@ViewReports.filteredReports utcPlatform
        [Scenario.issue1; Scenario.issue2] "hole" "all" "all" "newest")
  /\ In Scenario.issue1
       (@ViewReports.filteredReports utcPlatform
          [Scenario.issue1; Scenario.issue2] "ol" "all" "all" "newest").
Proof. split; vm_compute; auto. Qed.

(** ** Priority *)

Lemma sorted_threshold_prefix {A : Type} (key : A -> Z) (n : Z)
      (l : list A) :
  StronglySorted (fun a b => key a >= key b) l ->
  l = (filter (fun x => n <? key x) l
       ++ filter (fun x => negb (n <? key x)) l)%list.
Proof.
  induction 1 as [|a l Hs IH Hall]; [reflexivity|].
  simpl. destruct (Z.ltb_spec n (key a)) as [Hlt|Hge]; simpl.
  - f_equal. exact IH.
  - assert (E1 : filter (fun x => n <? key x) l = []).
    { clear IH Hs. induction l as [|b l IHl]; [reflexivity|].
      inversion Hall as [|? ? Hb Hrest]; subst. simpl.
      destruct (Z.ltb_spec n (key b)); [lia|]. apply IHl. exact Hrest. }
    assert (E2 : filter (fun x => negb (n <? key x)) l = l).
    { apply filter_all_true. intros b Hb. rewrite Forall_forall in Hall.
      specialize (Hall b Hb). destruct (Z.ltb_spec n (key b)); [lia|].
      reflexivity. }
    rewrite E1, E2. reflexivity.
Qed.

(** X9. When the reports are sorted by priority, the ones that carry the "High
    Priority" badge (a priority score above 5; an absent score never has
    it) come first, before every report without the badge. *)
Theorem high_priority_first `{Platform} (l : list Issue) :
  let out := ViewReports.sorted "priority" l in
  out = (filter ViewReportsPage.highPriority out
         ++ filter (fun r => negb (ViewReportsPage.highPriority r)) out)%list
  /\ (forall r, priority_score r = None ->
                ViewReportsPage.highPriority r = false).
Proof.
  intros out. subst out. split.
  - apply (sorted_threshold_prefix (fun r => or0 (priority_score r)) 5).
    eapply StronglySorted_impl;
      [|apply (Array_sort_sorted (ViewReports.compareReports "priority")
                 (fun r => - or0 (priority_score r)))].
    + simpl. intros; lia.
    + intros a b. unfold ViewReports.compareReports. simpl. lia.
  - intros r Hr. unfold ViewReportsPage.highPriority. rewrite Hr.
    reflexivity.
Qed.

(** ** A failed analytics fetch *)

(** X27. A failed fetch of the analytics ends the loading state and leaves
    every chart as it was, so from the initial state every chart is empty
    and no error is recorded. On the alternate dashboard this is the very
    state that an empty table gives; on the primary one it differs from it
    only in the day-of-week chart, which has no bucket after a failure and
    seven buckets of count 0 for an empty table. *)
Theorem failed_fetch_looks_empty `{Platform} (message : string)
        (st : Analytics.State) (st' : AnalyticsAlt.State) :
  Analytics.fetchData (Gateway.error message) st
  = {| Analytics.monthlyData := Analytics.monthlyData st;
       Analytics.categoryData := Analytics.categoryData st;
       Analytics.reportsByDayData := Analytics.reportsByDayData st;
       Analytics.locationData := Analytics.locationData st;
       Analytics.loading := false |}
  /\ AnalyticsAlt.fetchData (Gateway.error message) AnalyticsAlt.initial
     = AnalyticsAlt.loaded []
  /\ AnalyticsAlt.loading
       (AnalyticsAlt.fetchData (Gateway.error message) st') = false
  /\ Analytics.fetchData (Gateway.error message) Analytics.initial
     = {| Analytics.monthlyData := []; Analytics.categoryData := [];
          Analytics.reportsByDayData := []; Analytics.locationData := [];
          Analytics.loading := false |}
  /\ Analytics.loaded []
     = {| Analytics.monthlyData := []; Analytics.categoryData := [];
          Analytics.reportsByDayData :=
            map (fun d => {| ReportsByDayData.day := d;
                             ReportsByDayData.count := 0 |})
                Analytics.daysOfWeek;
          Analytics.locationData := []; Analytics.loading := false |}
  /\ (forall table,
        Analytics.reportsByDayData (Analytics.loaded table)
        <> Analytics.reportsByDayData
             (Analytics.fetchData (Gateway.error message) Analytics.initial)).
Proof.
  repeat (split; [reflexivity|]).
  intros table E.
  apply (f_equal (@List.length ReportsByDayData.t)) in E.
  unfold Analytics.loaded, Analytics.fetchData, Analytics.processReportsByDay
    in E.
  simpl in E. discriminate E.
Qed.
